(** * incback: a shallow embedding of the backup orchestrator

    The development follows the TypeScript sources of incback:
    [exec.ts] (command execution), [remote-exists.ts] (remote probe),
    [type-guards.ts] (validation), [logger.ts], [config.ts] (configuration
    loading) and [backup.ts] (the orchestrator), with [index.ts] as the
    entry point.  Everything the program obtains from Node (file system,
    child processes, clock, [path], [JSON.parse]) is an operation of the
    [Runtime] class; asynchronous functions are computations of a monad
    that threads the process state, collects the observable events and
    distinguishes a resolved promise, a rejected one and [process.exit]. *)

From Stdlib Require Import ZArith String Ascii List Lia Bool.
From Stdlib Require Import DecimalString.
From stdpp Require Import base option gmap strings.
Import ListNotations.

Set Warnings "-register-all".
Open Scope string_scope.

(** ** Strings *)

Module Str.

(** The double quote, which the sources write inside template literals. *)
Definition dq : string := String "034"%char EmptyString.

Definition is_empty (s : string) : bool :=
  match s with EmptyString => true | String _ _ => false end.

(** White space removed by [String.prototype.trim], restricted to the
    ASCII range: tab, line feed, vertical tab, form feed, carriage return
    and space. *)
Definition is_ws (c : ascii) : bool :=
  let n := nat_of_ascii c in
  (Nat.eqb n 9 || Nat.eqb n 10 || Nat.eqb n 11 || Nat.eqb n 12
   || Nat.eqb n 13 || Nat.eqb n 32)%bool.

Fixpoint trimStart (s : string) : string :=
  match s with
  | EmptyString => EmptyString
  | String c r => if is_ws c then trimStart r else s
  end.

Fixpoint trimEnd (s : string) : string :=
  match s with
  | EmptyString => EmptyString
  | String c r =>
      let r' := trimEnd r in
      if (is_ws c && is_empty r')%bool then EmptyString else String c r'
  end.

Definition trim (s : string) : string := trimEnd (trimStart s).

(** [s.replace(/c/g, "")] for a single character [c]. *)
Fixpoint remove_char (c : ascii) (s : string) : string :=
  match s with
  | EmptyString => EmptyString
  | String d r =>
      if Ascii.eqb c d then remove_char c r else String d (remove_char c r)
  end.

(** [s.split(c)[0]]: the part of [s] before the first [c]. *)
Fixpoint before_char (c : ascii) (s : string) : string :=
  match s with
  | EmptyString => EmptyString
  | String d r => if Ascii.eqb c d then EmptyString else String d (before_char c r)
  end.

(** [s.slice(s.indexOf(c) + 1)]: the part of [s] after the first [c]. *)
Fixpoint after_char (c : ascii) (s : string) : string :=
  match s with
  | EmptyString => EmptyString
  | String d r => if Ascii.eqb c d then r else after_char c r
  end.

(** [s.replace(/c/g, by)] for a single character [c]. *)
Fixpoint replace_char (c : ascii) (by_ : string) (s : string) : string :=
  match s with
  | EmptyString => EmptyString
  | String d r =>
      if Ascii.eqb c d then by_ ++ replace_char c by_ r
      else String d (replace_char c by_ r)
  end.

(** Number of positions of [s] at which [pat] starts. *)
Fixpoint occ (pat s : string) : nat :=
  match s with
  | EmptyString => 0
  | String _ r => (if String.prefix pat s then 1 else 0) + occ pat r
  end.

Fixpoint mem (c : ascii) (s : string) : bool :=
  match s with
  | EmptyString => false
  | String d r => (Ascii.eqb c d || mem c r)%bool
  end.

(** Decimal rendering of an integer, as in a template literal. *)
Definition of_Z (z : Z) : string := NilZero.string_of_int (Z.to_int z).

End Str.

(** ** JavaScript values, as [JSON.parse] and Commander produce them *)

Inductive JsVal : Type :=
| JUndefined
| JNull
| JBool (b : bool)
| JNum (n : Z)
| JStr (s : string)
| JArr (items : list JsVal)
| JObj (fields : gmap string JsVal).

(** [obj.key]: a missing property reads as [undefined]. *)
Definition prop (o : gmap string JsVal) (k : string) : JsVal :=
  match o !! k with
  | Some v => v
  | None => JUndefined
  end.

Definition is_undefined (v : JsVal) : bool :=
  match v with JUndefined => true | _ => false end.

(** [typeof v === 'string'] *)
Definition is_string (v : JsVal) : bool :=
  match v with JStr _ => true | _ => false end.

(** [v === "lit"] *)
Definition strict_eq_str (v : JsVal) (lit : string) : bool :=
  match v with JStr s => String.eqb s lit | _ => false end.

(** A property is present when it does not read as [undefined]. *)
Definition present (v : JsVal) : Prop := v <> JUndefined.

(** [if (v)] *)
Definition truthy (v : JsVal) : bool :=
  match v with
  | JUndefined | JNull => false
  | JBool b => b
  | JNum n => negb (Z.eqb n 0)
  | JStr s => negb (Str.is_empty s)
  | JArr _ | JObj _ => true
  end.

(** [`${v}`]: the text of a value in a template literal; the elements of
    an array are joined by commas, [null] and [undefined] among them
    giving nothing. *)
Fixpoint to_string (v : JsVal) : string :=
  match v with
  | JUndefined => "undefined"
  | JNull => "null"
  | JBool b => if b then "true" else "false"
  | JNum n => Str.of_Z n
  | JStr s => s
  | JArr items =>
      (fix join (l : list JsVal) : string :=
         match l with
         | [] => ""
         | x :: r =>
             let text :=
               match x with
               | JUndefined | JNull => ""
               | _ => to_string x
               end in
             match r with
             | [] => text
             | _ :: _ => text ++ "," ++ join r
             end
         end) items
  | JObj _ => "[object Object]"
  end.

(** *** type-guards.ts *)

Definition isProgramOptions (_obj : JsVal) : bool :=
  match _obj with
  | JObj obj =>
      let mandatory := (is_string (prop obj "src") && is_string (prop obj "dest"))%bool in
      if negb mandatory then false
      else if (negb (is_undefined (prop obj "remoteRole"))
               || negb (is_undefined (prop obj "remoteUser"))
               || negb (is_undefined (prop obj "remoteHost")))%bool
      then
        let isRemoteRoleOk :=
          (strict_eq_str (prop obj "remoteRole") "src"
           || strict_eq_str (prop obj "remoteRole") "dest")%bool in
        let isRemoteUserOk := is_string (prop obj "remoteUser") in
        let isRemoteHostOk := is_string (prop obj "remoteHost") in
        (isRemoteRoleOk && isRemoteUserOk && isRemoteHostOk)%bool
      else true
  | JArr _ =>
      (* an array is an object without the properties [src] and [dest] *)
      false
  | _ => false
  end.

(** ** types.ts *)

Inductive RemoteRole := RoleSrc | RoleDest.

Record ProgramOptions := mkOptions {
  src : string;
  dest : string;
  remoteRole : option RemoteRole;
  remoteUser : option string;
  remoteHost : option string;
  excludeFrom : option string;
  logFile : option string;
  backupPrefix : option string;
  rsyncOptions : option string
}.

(** logger.ts: a logger remembers its file and whether the stream is open. *)
Record Logger := mkLogger {
  logFilePath : option string;
  stream : option string
}.

(** [ProgramConfig extends ProgramOptions] *)
Record ProgramConfig := mkConfig {
  options :> ProgramOptions;
  isRemoteSrc : bool;
  isRemoteDest : bool;
  logger : Logger
}.

(** The view of a validated object at the interface [ProgramOptions].
    The guard checks [src], [dest] and the remote triple, which are read
    at their declared type.  The guard does not look at the other
    properties, which can hold any value.  The code writes [backupPrefix]
    and [rsyncOptions] into template literals only, behind [??]: [null]
    and a missing property are an absent field, every other value is the
    field with its text.  It tests [excludeFrom] and [logFile] for truth
    and then hands them to [path.isAbsolute]: a string is the field, a
    value that is not true is an absent field, and for the other values
    [path.isAbsolute] throws, which [optionsToConfigOf] below follows. *)
Definition str_field (o : gmap string JsVal) (k : string) : option string :=
  match prop o k with JStr s => Some s | _ => None end.

Definition text_field (o : gmap string JsVal) (k : string) : option string :=
  match prop o k with
  | JUndefined | JNull => None
  | v => Some (to_string v)
  end.

(** The value of a property that is true and not a string. *)
Definition not_a_path (o : gmap string JsVal) (k : string) : option JsVal :=
  match prop o k with
  | JStr _ => None
  | v => if truthy v then Some v else None
  end.

(** The message of the [TypeError] of [path.isAbsolute(v)]. *)
Definition received (v : JsVal) : string :=
  match v with
  | JUndefined => "undefined"
  | JNull => "null"
  | JBool b => "type boolean (" ++ to_string v ++ ")"
  | JNum n => "type number (" ++ to_string v ++ ")"
  | JStr s => "type string ('" ++ s ++ "')"
  | JArr _ => "an instance of Array"
  | JObj _ => "an instance of Object"
  end.

Definition invalid_path (v : JsVal) : string :=
  "The " ++ Str.dq ++ "path" ++ Str.dq ++ " argument must be of type string. Received "
  ++ received v.

Definition role_field (o : gmap string JsVal) : option RemoteRole :=
  match prop o "remoteRole" with
  | JStr s =>
      if String.eqb s "src" then Some RoleSrc
      else if String.eqb s "dest" then Some RoleDest else None
  | _ => None
  end.

Definition asProgramOptions (o : gmap string JsVal) : ProgramOptions :=
  {| src := default "" (str_field o "src");
     dest := default "" (str_field o "dest");
     remoteRole := role_field o;
     remoteUser := str_field o "remoteUser";
     remoteHost := str_field o "remoteHost";
     excludeFrom := str_field o "excludeFrom";
     logFile := str_field o "logFile";
     backupPrefix := text_field o "backupPrefix";
     rsyncOptions := text_field o "rsyncOptions" |}.

(** A template literal renders an absent value as the word undefined. *)
Definition tpl (o : option string) : string :=
  match o with Some s => s | None => "undefined" end.

(** [o ?? d] *)
Definition nullish (o : option string) (d : string) : string :=
  match o with Some s => s | None => d end.

(** [if (o)] for an optional string: present and not empty. *)
Definition given (o : option string) : bool :=
  match o with Some s => negb (Str.is_empty s) | None => false end.

(** ** The Node runtime *)

Record JsError := MkError { message : string }.

(** What a spawned shell does.  When the shell cannot be spawned Node emits
    [error] and then [close] with the negative errno as exit code; otherwise
    the process closes with an exit code ([null] when a signal ended it)
    and the text collected from its two streams. *)
Inductive ProcOutcome :=
| SpawnFailed (errno : positive) (msg : string)
| Closed (code : option Z) (out err : string).

Definition exit_code (o : ProcOutcome) : option Z :=
  match o with
  | SpawnFailed errno _ => Some (Z.neg errno)
  | Closed code _ _ => code
  end.

Definition captured_stderr (o : ProcOutcome) : string :=
  match o with
  | SpawnFailed _ _ => ""
  | Closed _ _ err => err
  end.

Definition captured_stdout (o : ProcOutcome) : string :=
  match o with
  | SpawnFailed _ _ => ""
  | Closed _ out _ => out
  end.

Class Runtime (World : Type) := {
  process_argv : World -> list string;
  process_cwd : World -> string;
  (** [new Date()]: milliseconds since the epoch *)
  date_now : World -> Z;
  fs_existsSync : World -> string -> bool;
  (** [fs.mkdirSync(p, {recursive: true})]; [Some e] when it throws *)
  fs_mkdirSync : World -> string -> option JsError * World;
  (** [fs.readFileSync(p, 'utf-8')] *)
  fs_readFileSync : World -> string -> JsError + string;
  (** [spawn(command, {shell: true})], followed until the process closes *)
  spawn : World -> string -> ProcOutcome * World;
  path_isAbsolute : string -> bool;
  path_join : string -> string -> string;
  path_basename : string -> string;
  path_dirname : string -> string;
  (** [JSON.parse]; [None] when it throws *)
  JSON_parse : string -> option JsVal
}.

Inductive LogType := Log | Error | Warn.

Definition logType_name (t : LogType) : string :=
  match t with Log => "log" | Error => "error" | Warn => "warn" end.

(** What a run does that can be observed from outside. *)
Inductive Event :=
| EvConsole (level : LogType) (text : string)
| EvFileWrite (path : string) (text : string)
| EvMkdir (path : string)
| EvSpawn (command : string) (outcome : ProcOutcome)
| EvHelp.

(** How a computation ends: a value (a resolved promise), a thrown error (a
    rejected promise), or [process.exit(code)]. *)
Inductive Res (A : Type) :=
| Ok (a : A)
| Throw (e : JsError)
| Exit (code : Z).
Arguments Ok {A} a.
Arguments Throw {A} e.
Arguments Exit {A} code.

Section Program.

Context {World : Type} `{RT : Runtime World}.

(** The process state: the world and the two module-level singletons,
    [loggerInstance] of logger.ts and [config] of config.ts. *)
Record State := mkState {
  world : World;
  loggerInstance : option Logger;
  configCache : option ProgramConfig
}.

Definition set_world (s : State) (w : World) : State :=
  {| world := w; loggerInstance := loggerInstance s; configCache := configCache s |}.

Definition M (A : Type) : Type := State -> Res A * list Event * State.

Definition ret {A} (a : A) : M A := fun s => (Ok a, [], s).

Definition bind {A B} (m : M A) (f : A -> M B) : M B := fun s =>
  match m s with
  | (Ok a, e1, s1) => let '(r, e2, s2) := f a s1 in (r, (e1 ++ e2)%list, s2)
  | (Throw e, e1, s1) => (Throw e, e1, s1)
  | (Exit c, e1, s1) => (Exit c, e1, s1)
  end.

Definition throw {A} (msg : string) : M A := fun s => (Throw (MkError msg), [], s).

Definition rethrow {A} (e : JsError) : M A := fun s => (Throw e, [], s).

Definition process_exit {A} (code : Z) : M A := fun s => (Exit code, [], s).

(** [try { m } catch (e) { h e }]; [process.exit] is not caught. *)
Definition try_catch {A} (m : M A) (h : JsError -> M A) : M A := fun s =>
  match m s with
  | (Throw e, e1, s1) => let '(r, e2, s2) := h e s1 in (r, (e1 ++ e2)%list, s2)
  | other => other
  end.

Definition emit (e : Event) : M unit := fun s => (Ok tt, [e], s).

Definition get_state : M State := fun s => (Ok s, [], s).

Definition existsSync (p : string) : M bool := fun s =>
  (Ok (fs_existsSync (world s) p), [], s).

Definition cwd : M string := fun s => (Ok (process_cwd (world s)), [], s).

End Program.

Notation "x <- m ;; k" := (bind m (fun x => k))
  (at level 100, m at next level, right associativity).
Notation "m ;;; k" := (bind m (fun _ => k))
  (at level 100, right associativity).

(** ** Dates: [new Date().toISOString()]

    The time value is the number of milliseconds since the epoch; the
    calendar fields are those of ECMAScript's [YearFromTime],
    [MonthFromTime], [DateFromTime], [HourFromTime], [MinFromTime],
    [SecFromTime] and [msFromTime]. *)

Module JsDate.

Local Open Scope Z_scope.

Definition msPerDay : Z := 86400000.

Definition Day (t : Z) : Z := t / msPerDay.

Definition DayFromYear (y : Z) : Z :=
  365 * (y - 1970) + (y - 1969) / 4 - (y - 1901) / 100 + (y - 1601) / 400.

Definition isLeap (y : Z) : bool :=
  ((y mod 4 =? 0) && (negb (y mod 100 =? 0) || (y mod 400 =? 0)))%bool.

(** The largest year whose first day is not after day [d]: an estimate
    from the mean length of a year, corrected by one. *)
Definition YearFromDay (d : Z) : Z :=
  let y := 1970 + (d * 400) / 146097 in
  if d <? DayFromYear y then y - 1
  else if DayFromYear (y + 1) <=? d then y + 1
  else y.

Definition YearFromTime (t : Z) : Z := YearFromDay (Day t).

Definition DayWithinYear (t : Z) : Z := Day t - DayFromYear (YearFromTime t).

(** Month (1 to 12) and day of the month of the day [n] of a year, [leap]
    being 1 in a leap year and 0 otherwise. *)
Definition MonthDate (n leap : Z) : Z * Z :=
  if n <? 31 then (1, n + 1)
  else if n <? 59 + leap then (2, n - 30)
  else if n <? 90 + leap then (3, n - 58 - leap)
  else if n <? 120 + leap then (4, n - 89 - leap)
  else if n <? 151 + leap then (5, n - 119 - leap)
  else if n <? 181 + leap then (6, n - 150 - leap)
  else if n <? 212 + leap then (7, n - 180 - leap)
  else if n <? 243 + leap then (8, n - 211 - leap)
  else if n <? 273 + leap then (9, n - 242 - leap)
  else if n <? 304 + leap then (10, n - 272 - leap)
  else if n <? 334 + leap then (11, n - 303 - leap)
  else (12, n - 333 - leap).

Definition InLeapYear (t : Z) : Z := if isLeap (YearFromTime t) then 1 else 0.

Definition MonthFromTime (t : Z) : Z := fst (MonthDate (DayWithinYear t) (InLeapYear t)).
Definition DateFromTime (t : Z) : Z := snd (MonthDate (DayWithinYear t) (InLeapYear t)).
Definition HourFromTime (t : Z) : Z := (t / 3600000) mod 24.
Definition MinFromTime (t : Z) : Z := (t / 60000) mod 60.
Definition SecFromTime (t : Z) : Z := (t / 1000) mod 60.
Definition msFromTime (t : Z) : Z := t mod 1000.

Definition digit (n : Z) : ascii := ascii_of_nat (48 + Z.to_nat (n mod 10)).

(** [n] written with exactly [k] decimal digits *)
Fixpoint pad (k : nat) (n : Z) : string :=
  match k with
  | O => EmptyString
  | S k' => String (digit (n / 10 ^ Z.of_nat k')) (pad k' n)
  end.

(** Years 0 to 9999 take four digits, the others a sign and six. *)
Definition yearString (y : Z) : string :=
  if ((0 <=? y) && (y <=? 9999))%bool then pad 4 y
  else ((if (y <? 0)%Z then "-" else "+") ++ pad 6 (Z.abs y))%string.

Definition toISOString (t : Z) : string :=
  (yearString (YearFromTime t) ++ "-" ++ pad 2 (MonthFromTime t) ++ "-"
   ++ pad 2 (DateFromTime t) ++ "T" ++ pad 2 (HourFromTime t) ++ ":"
   ++ pad 2 (MinFromTime t) ++ ":" ++ pad 2 (SecFromTime t) ++ "."
   ++ pad 3 (msFromTime t) ++ "Z")%string.

(** The first and the last millisecond of the years 0 to 9999. *)
Definition firstTime : Z := -62167219200000.
Definition lastTime : Z := 253402300799999.

End JsDate.

Section Incback.

Context {World : Type} `{RT : Runtime World}.

Local Abbreviation M := (@M World).
Local Abbreviation dq := Str.dq.

(** ** exec.ts *)

(** [code !== 0] *)
Definition code_nonzero (code : option Z) : bool :=
  match code with Some c => negb (Z.eqb c 0) | None => true end.

(** [`${code}`] *)
Definition code_text (code : option Z) : string :=
  match code with Some c => Str.of_Z c | None => "null" end.

Definition exec_error (command detail : string) : JsError :=
  MkError ("Error executing command " ++ dq ++ command ++ dq ++ ": " ++ detail).

(** How the promise of [executeCommand] settles for an outcome of the
    child: the [error] handler rejects first when the spawn failed, the
    [close] handler settles it otherwise. *)
Definition settle (command : string) (o : ProcOutcome) : Res string :=
  match o with
  | SpawnFailed _ msg => Throw (exec_error command msg)
  | Closed code stdout stderr =>
      if code_nonzero code then
        Throw (exec_error command
                 (if negb (Str.is_empty stderr) then stderr
                  else "Process exited with code " ++ code_text code))
      else if negb (Str.is_empty stderr) then Throw (exec_error command stderr)
      else Ok (Str.trim stdout)
  end.

Definition executeCommand (command : string) : M string := fun s =>
  let '(o, w) := spawn (world s) command in
  (settle command o, [EvSpawn command o], set_world s w).

Definition escapeShellArg (arg : string) : string :=
  "'" ++ Str.replace_char "'"%char "'\''" arg ++ "'".

Definition sshCommand (remoteUser remoteHost command : string) : string :=
  "ssh -o BatchMode=yes -o ConnectTimeout=5 "
  ++ escapeShellArg (remoteUser ++ "@" ++ remoteHost) ++ " " ++ escapeShellArg command.

Definition endpointRequired : string :=
  "remoteCommand requires remoteUser and remoteHost in configuration".

Definition remoteCommand (command : string) (config : ProgramOptions)
    (throwError : bool) : M string :=
  let remoteUser := nullish (remoteUser config) "" in
  let remoteHost := nullish (remoteHost config) "" in
  if (Str.is_empty remoteHost || Str.is_empty remoteUser)%bool then
    throw endpointRequired
  else
    try_catch (executeCommand (sshCommand remoteUser remoteHost command))
      (fun error => if throwError then rethrow error else ret "").

(** ** remote-exists.ts *)

Definition remoteExistsCommand (remoteUser remoteHost remotePath : string) : string :=
  "ssh -o BatchMode=yes -o ConnectTimeout=5 " ++ remoteUser ++ "@" ++ remoteHost
  ++ " " ++ dq ++ "test -e \" ++ dq ++ remotePath ++ "\" ++ dq
  ++ " && echo exists || echo not_exists" ++ dq.

Definition remoteExists (remoteUser remoteHost remotePath : string) : M bool :=
  let cmd := remoteExistsCommand remoteUser remoteHost remotePath in
  try_catch
    (stdout <- executeCommand cmd ;;
     let exists_ := String.eqb (Str.trim stdout) "exists" in
     ret exists_)
    (fun _error => ret false).

(** [path.isAbsolute(p) ? p : path.join(process.cwd(), p)] *)
Definition resolved (w : World) (p : string) : string :=
  if path_isAbsolute p then p else path_join (process_cwd w) p.

(** ** logger.ts *)

Definition mkdirSync (p : string) : M unit := fun s =>
  let '(r, w) := fs_mkdirSync (world s) p in
  (match r with Some e => Throw e | None => Ok tt end, [EvMkdir p], set_world s w).

(** [new Logger(logFilePath)]: errors of the stream that arrive later are
    not followed, an opened stream stays open. *)
Definition newLogger (logFilePath : option string) : M Logger :=
  if given logFilePath then
    s <- get_state ;;
    let p := resolved (world s) (nullish logFilePath "") in
    try_catch
      (mkdirSync (path_dirname p) ;;;
       ret {| logFilePath := Some p; stream := Some p |})
      (fun error =>
         emit (EvConsole Error
                 ("Logger initialization failed (" ++ p ++ "): " ++ message error)) ;;;
         ret {| logFilePath := Some p; stream := None |})
  else ret {| logFilePath := logFilePath; stream := None |}.

Definition timestamped (msg : string) : M string := fun s =>
  (Ok ("[" ++ JsDate.toISOString (date_now (world s)) ++ "] " ++ msg), [], s).

Definition _log (l : Logger) (msg : string) (logType : LogType) : M unit :=
  timestampedMessage <- timestamped msg ;;
  emit (EvConsole logType timestampedMessage) ;;;
  match stream l with
  | Some p =>
      emit (EvFileWrite p (logType_name logType ++ " - " ++ timestampedMessage
                           ++ String "010"%char EmptyString))
  | None => ret tt
  end.

Definition log (l : Logger) (msg : string) : M unit := _log l msg Log.
Definition error (l : Logger) (msg : string) : M unit := _log l msg Error.
Definition warn (l : Logger) (msg : string) : M unit := _log l msg Warn.

Definition getLogger (config : ProgramOptions) : M Logger := fun s =>
  match loggerInstance s with
  | Some l => (Ok l, [], s)
  | None =>
      match newLogger (logFile config) s with
      | (Ok l, evs, s1) =>
          (Ok l, evs, {| world := world s1; loggerInstance := Some l;
                         configCache := configCache s1 |})
      | other => other
      end
  end.

(** ** config.ts *)

(** *** Commander

    Modelled after the library, for options that all take one value, as
    those of incback do.  An argument that is the short or the long flag
    of a declared option takes the next argument as its value, and the
    process ends with status 1 when there is none; [-fvalue] and
    [--flag=value] carry the value themselves; any other argument that
    starts with a dash is an unknown option, and it and the arguments
    after it that are not options are kept aside; [--] ends the options.
    Once all arguments are read, the built-in option [-h], [--help] among
    the arguments kept aside prints the usage and ends the process with
    status 0; otherwise the first unknown option ends it with status 1;
    operands are ignored. *)

Record OptionDecl := mkDecl {
  flags : string;
  short : string;
  long : string;
  key : string
}.

(** The options declared in [parseConfigFromArgs]. *)
Definition declared : list OptionDecl :=
  [ mkDecl "-c, --config <path>" "-c" "--config" "config";
    mkDecl "-s, --src <path>" "-s" "--src" "src";
    mkDecl "-d, --dest <path>" "-d" "--dest" "dest";
    mkDecl "-R, --remote-role <role>" "-R" "--remote-role" "remoteRole";
    mkDecl "-U, --remote-user <user>" "-U" "--remote-user" "remoteUser";
    mkDecl "-H, --remote-host <host>" "-H" "--remote-host" "remoteHost";
    mkDecl "-e, --exclude-from <file>" "-e" "--exclude-from" "excludeFrom";
    mkDecl "-l, --log-file <file>" "-l" "--log-file" "logFile" ].

Definition find_option (decls : list OptionDecl) (flag : string) : option OptionDecl :=
  List.find (fun d => (String.eqb flag (short d) || String.eqb flag (long d))%bool) decls.

(** An argument of more than one character that starts with a dash. *)
Definition looks_like_option (a : string) : bool :=
  match a with
  | String c (String _ _) => Ascii.eqb c "-"%char
  | _ => false
  end.

(** [-fvalue] *)
Definition short_with_value (decls : list OptionDecl) (a : string)
    : option (OptionDecl * string) :=
  match a with
  | String c1 (String c2 (String c3 r)) =>
      if (Ascii.eqb c1 "-"%char && negb (Ascii.eqb c2 "-"%char))%bool then
        match find_option decls (String c1 (String c2 EmptyString)) with
        | Some d => Some (d, String c3 r)
        | None => None
        end
      else None
  | _ => None
  end.

(** [--flag=value] *)
Definition long_with_value (decls : list OptionDecl) (a : string)
    : option (OptionDecl * string) :=
  match a with
  | String c1 (String c2 r) =>
      let name := Str.before_char "="%char r in
      if (Ascii.eqb c1 "-"%char && Ascii.eqb c2 "-"%char
          && negb (Str.is_empty name) && Str.mem "="%char r)%bool then
        match find_option decls ("--" ++ name) with
        | Some d => Some (d, Str.after_char "="%char r)
        | None => None
        end
      else None
  | _ => None
  end.

Inductive CommanderError :=
| UnknownOption (flag : string)
| OptionMissingArgument (flags : string)
| HelpDisplayed.

(** The built-in help option. *)
Definition is_help (a : string) : bool :=
  (String.eqb a "-h" || String.eqb a "--help")%bool.

Definition first_unknown (unknown : option string) (a : string) : option string :=
  match unknown with
  | Some f => Some f
  | None => Some a
  end.

Fixpoint parseOptions (decls : list OptionDecl) (args : list string)
    (opts : gmap string JsVal) (unknown : option string)
    : CommanderError + gmap string JsVal :=
  let finish :=
    match unknown with
    | Some flag => inl (UnknownOption flag)
    | None => inr opts
    end in
  match args with
  | [] => finish
  | a :: rest =>
      if String.eqb a "--" then
        (* after an unknown option the rest is kept aside as well *)
        match unknown with
        | Some flag =>
            if existsb is_help rest then inl HelpDisplayed else inl (UnknownOption flag)
        | None => inr opts
        end
      else
        match find_option decls a with
        | Some d =>
            match rest with
            | v :: rest' => parseOptions decls rest' (<[key d := JStr v]> opts) unknown
            | [] => inl (OptionMissingArgument (flags d))
            end
        | None =>
            match short_with_value decls a with
            | Some (d, v) => parseOptions decls rest (<[key d := JStr v]> opts) unknown
            | None =>
                match long_with_value decls a with
                | Some (d, v) =>
                    parseOptions decls rest (<[key d := JStr v]> opts) unknown
                | None =>
                    if is_help a then
                      (* a missing argument further on is met first *)
                      match parseOptions decls rest opts (first_unknown unknown a) with
                      | inl (OptionMissingArgument flags) =>
                          inl (OptionMissingArgument flags)
                      | _ => inl HelpDisplayed
                      end
                    else if looks_like_option a
                    then parseOptions decls rest opts (first_unknown unknown a)
                    else parseOptions decls rest opts unknown
                end
            end
        end
  end.

(** [program.parse(process.argv); program.opts()] *)
Definition program_parse (decls : list OptionDecl) (argv : list string)
    : M (gmap string JsVal) :=
  match parseOptions decls (skipn 2 argv) ∅ None with
  | inr opts => ret opts
  | inl (UnknownOption flag) =>
      emit (EvConsole Error ("error: unknown option '" ++ flag ++ "'")) ;;;
      process_exit 1
  | inl (OptionMissingArgument flags) =>
      emit (EvConsole Error ("error: option '" ++ flags ++ "' argument missing")) ;;;
      process_exit 1
  | inl HelpDisplayed =>
      emit EvHelp ;;;
      process_exit 0
  end.

Definition set_excludeFrom (o : ProgramOptions) (v : option string) : ProgramOptions :=
  {| src := src o; dest := dest o; remoteRole := remoteRole o;
     remoteUser := remoteUser o; remoteHost := remoteHost o;
     excludeFrom := v; logFile := logFile o;
     backupPrefix := backupPrefix o; rsyncOptions := rsyncOptions o |}.

Definition set_backupPrefix (o : ProgramOptions) (v : option string) : ProgramOptions :=
  {| src := src o; dest := dest o; remoteRole := remoteRole o;
     remoteUser := remoteUser o; remoteHost := remoteHost o;
     excludeFrom := excludeFrom o; logFile := logFile o;
     backupPrefix := v; rsyncOptions := rsyncOptions o |}.

(** [isRemoteSrc] and [isRemoteDest] as [optionsToConfig] computes them. *)
Definition remoteFlags (config : ProgramOptions) : bool * bool :=
  match remoteRole config with
  | Some RoleSrc => (true, false)
  | Some RoleDest => (false, true)
  | None => (false, false)
  end.

Definition optionsToConfig (config : ProgramOptions) : M ProgramConfig :=
  let '(isRemoteSrc, isRemoteDest) := remoteFlags config in
  logger <- getLogger config ;;
  config <-
    (if given (excludeFrom config) then
       s <- get_state ;;
       let excludeFrom := resolved (world s) (nullish (excludeFrom config) "") in
       present <- existsSync excludeFrom ;;
       if negb present then
         warn logger ("Exclude file not found: " ++ excludeFrom) ;;;
         ret (set_excludeFrom config None)
       else ret (set_excludeFrom config (Some excludeFrom))
     else ret config) ;;
  let backupPrefix := nullish (backupPrefix config) "BACKUP-" in
  ret {| options := set_backupPrefix config (Some backupPrefix);
         isRemoteSrc := isRemoteSrc;
         isRemoteDest := isRemoteDest;
         logger := logger |}.

(** [optionsToConfig(config)] for an object that passed the guard, which
    did not look at [logFile] and [excludeFrom]: where one of them is true
    and not a string, [path.isAbsolute] throws, in the constructor of the
    logger when no logger is made yet, or after the logger is there. *)
Definition optionsToConfigOf (o : gmap string JsVal) : M ProgramConfig :=
  let config := asProgramOptions o in
  s <- get_state ;;
  match loggerInstance s, not_a_path o "logFile" with
  | None, Some v => throw (invalid_path v)
  | _, _ =>
      match not_a_path o "excludeFrom" with
      | Some v => getLogger config ;;; throw (invalid_path v)
      | None => optionsToConfig config
      end
  end.

Definition readFileSync (p : string) : M string := fun s =>
  (match fs_readFileSync (world s) p with inl e => Throw e | inr d => Ok d end, [], s).

Definition readConfigFromJSON (configFilePath : string) : M ProgramConfig :=
  dir <- cwd ;;
  let configPath :=
    if negb (Str.is_empty configFilePath) then configFilePath
    else path_join dir ".incback" in
  present <- existsSync configPath ;;
  if present then
    rawData <- readFileSync configPath ;;
    match JSON_parse rawData with
    | None => throw "Invalid .incback configuration file"
    | Some config =>
        if negb (isProgramOptions config) then
          throw "Invalid .incback configuration file"
        else
          match config with
          | JObj o => optionsToConfigOf o
          | _ => throw "Invalid .incback configuration file"
          end
    end
  else throw ("Configuration file .incback not found in " ++ dir).

(** [options.config && typeof options.config === 'string'] *)
Definition config_flag (options : gmap string JsVal) : option string :=
  match prop options "config" with
  | JStr path => if Str.is_empty path then None else Some path
  | _ => None
  end.

Definition parseConfigFromArgs : M (option ProgramConfig) :=
  s <- get_state ;;
  let argv := process_argv (world s) in
  if Nat.leb (List.length argv) 2 then ret None
  else
    options <- program_parse declared argv ;;
    match config_flag options with
    | Some path => c <- readConfigFromJSON path ;; ret (Some c)
    | None =>
        if negb (isProgramOptions (JObj options)) then
          emit (EvConsole Error "Error: Missing or invalid parameters.") ;;;
          emit EvHelp ;;;
          process_exit 1
        else c <- optionsToConfigOf options ;; ret (Some c)
    end.

Definition set_config (c : ProgramConfig) : M ProgramConfig := fun s =>
  (Ok c, [], {| world := world s; loggerInstance := loggerInstance s;
                configCache := Some c |}).

Definition getConfig : M ProgramConfig := fun s =>
  match configCache s with
  | Some c => (Ok c, [], s)
  | None =>
      try_catch
        (argsConfig <- parseConfigFromArgs ;;
         match argsConfig with
         | Some c => set_config c
         | None => c <- readConfigFromJSON "" ;; set_config c
         end)
        (fun error =>
           emit (EvConsole Error ("Startup error: " ++ message error)) ;;;
           process_exit 1) s
  end.

(** ** backup.ts

    The module keeps the configuration of the run in a global that
    [backup] sets on entry; the helpers below take it as an argument. *)

Definition getPath (w : World) (config : ProgramConfig) (pathStr : string)
    (isRemote : bool) : string :=
  if isRemote then
    tpl (remoteUser config) ++ "@" ++ tpl (remoteHost config) ++ ":" ++ pathStr
  else resolved w pathStr.

Definition getSrcPath (w : World) (config : ProgramConfig) : string :=
  getPath w config (src config) (isRemoteSrc config).

Definition getDestPath (w : World) (config : ProgramConfig) : string :=
  getPath w config (dest config) (isRemoteDest config).

Definition existsPath (config : ProgramConfig) (pathStr : string)
    (isRemote : bool) : M bool :=
  if isRemote then
    remoteExists (tpl (remoteUser config)) (tpl (remoteHost config)) pathStr
  else existsSync pathStr.

Definition existsSrcPath (config : ProgramConfig) : M bool :=
  existsPath config (src config) (isRemoteSrc config).

Definition existsDestPath (config : ProgramConfig) : M bool :=
  existsPath config (dest config) (isRemoteDest config).

Definition lsCommand (config : ProgramConfig) : string :=
  "ls -dt " ++ dq ++ dest config ++ "/" ++ nullish (backupPrefix config) "BACKUP-"
  ++ dq ++ "* | head -n 1".

(** [result ? result.trim() : null] *)
Definition trimmed_or_null (result : string) : option string :=
  if negb (Str.is_empty result) then Some (Str.trim result) else None.

Definition getLatestBackupDir (config : ProgramConfig) : M (option string) :=
  let destPath := dest config in
  let lsCmd := lsCommand config in
  if isRemoteDest config then
    try_catch
      (result <- remoteCommand lsCmd config false ;; ret (trimmed_or_null result))
      (fun _e => ret None)
  else
    present <- existsSync destPath ;;
    if negb present then ret None
    else
      try_catch
        (result <- executeCommand lsCmd ;; ret (trimmed_or_null result))
        (fun _e => ret None).

Definition mkdirCommand (config : ProgramConfig) : string :=
  "mkdir -p " ++ dq ++ dest config ++ dq.

Definition createDestDir (config : ProgramConfig) : M unit :=
  let destPath := dest config in
  if isRemoteDest config then
    remoteCommand (mkdirCommand config) config true ;;; ret tt
  else mkdirSync destPath.

(** The timestamp of a snapshot:
    [new Date().toISOString().replace(/:/g, "").split(".")[0]] *)
Definition backupSuffix (t : Z) : string :=
  Str.before_char "."%char (Str.remove_char ":"%char (JsDate.toISOString t)).

(** The name of the snapshot directory made at time [t]. *)
Definition backupDirName (backupPrefix : option string) (t : Z) : string :=
  nullish backupPrefix "BACKUP-" ++ backupSuffix t.

(** [latestBackupDir] as the test [if (!latestBackupDir)] sees it: a
    snapshot was found when the listing gave a name that is not empty. *)
Definition found (latestBackupDir : option string) : option string :=
  match latestBackupDir with
  | Some d => if Str.is_empty d then None else Some d
  | None => None
  end.

(** The sync command as [backup] composes it, [latestBackupDir] being the
    result of [getLatestBackupDir]. *)
Definition rsyncCommand (w : World) (programConfig : ProgramConfig)
    (latestBackupDir : option string) (currentBackupDirname : string) : string :=
  let rsyncCmd := "rsync -" ++ nullish (rsyncOptions programConfig) "az" ++ " --delete " in
  let rsyncCmd :=
    if given (excludeFrom programConfig) then
      rsyncCmd ++ " --exclude-from=" ++ dq ++ tpl (excludeFrom programConfig) ++ dq ++ " "
    else rsyncCmd in
  match found latestBackupDir with
  | None =>
      rsyncCmd ++ " " ++ dq ++ getSrcPath w programConfig ++ "/" ++ dq ++ " " ++ dq
      ++ getDestPath w programConfig ++ "/" ++ path_basename currentBackupDirname
      ++ "/" ++ dq
  | Some latest =>
      let rsyncCmd :=
        rsyncCmd ++ " --link-dest=" ++ dq ++ "../" ++ path_basename latest ++ "/"
        ++ dq ++ " " in
      rsyncCmd ++ " " ++ dq ++ getSrcPath w programConfig ++ "/" ++ dq ++ " " ++ dq
      ++ getDestPath w programConfig ++ "/" ++ path_basename currentBackupDirname
      ++ "/" ++ dq
  end.

(** The line logged before the command runs. *)
Definition modeMessage (w : World) (programConfig : ProgramConfig)
    (latestBackupDir : option string) (currentBackupDirname : string) : string :=
  match found latestBackupDir with
  | None =>
      "Initial backup to " ++ getDestPath w programConfig ++ "/"
      ++ path_basename currentBackupDirname
  | Some latest =>
      "Incremental backup to " ++ getDestPath w programConfig ++ "/"
      ++ path_basename currentBackupDirname ++ " with link-dest to "
      ++ dest programConfig ++ "/" ++ path_basename latest
  end.

Definition sourceMissing (programConfig : ProgramConfig) : string :=
  "Source directory " ++ dq ++ src programConfig ++ dq ++ " does not exist.".

Definition destUncreatable (programConfig : ProgramConfig) : string :=
  "Destination directory " ++ dq ++ dest programConfig ++ dq
  ++ " does not exist and could not be created.".

Definition currentBackupDirname (programConfig : ProgramConfig) (w : World) : string :=
  path_join (dest programConfig)
    (backupDirName (backupPrefix programConfig) (date_now w)).

Definition backup (programConfig : ProgramConfig) : M unit :=
  let config := programConfig in
  let logger := logger config in
  s0 <- get_state ;;
  let currentBackupDirname := currentBackupDirname programConfig (world s0) in
  srcPresent <- existsSrcPath config ;;
  if negb srcPresent then throw (sourceMissing programConfig)
  else
    destPresent <- existsDestPath config ;;
    (if negb destPresent then
       try_catch (createDestDir config)
         (fun _error => throw (destUncreatable programConfig))
     else ret tt) ;;;
    latestBackupDir <- getLatestBackupDir config ;;
    s1 <- get_state ;;
    let rsyncCmd :=
      rsyncCommand (world s1) programConfig latestBackupDir currentBackupDirname in
    log logger (modeMessage (world s1) programConfig latestBackupDir
                  currentBackupDirname) ;;;
    log logger ("Executing command:" ++ rsyncCmd) ;;;
    executeCommand rsyncCmd ;;;
    ret tt.

Definition backupRun : M unit :=
  config <- getConfig ;;
  backup config.

(** ** index.ts *)

Definition main : M unit :=
  try_catch backupRun
    (fun error =>
       emit (EvConsole Error ("Backup failed: " ++ message error)) ;;;
       process_exit 1).

(** The exit status of the process for the way [main] ended. *)
Definition exit_status (r : Res unit) : Z :=
  match r with
  | Ok _ => 0
  | Throw _ => 1
  | Exit code => code
  end.

End Incback.

(** ** Vocabulary of the statements *)

(** An outcome of a child process that makes [executeCommand] reject. *)
Definition rejected (o : ProcOutcome) : Prop :=
  exit_code o <> Some 0%Z \/ captured_stderr o <> "".

(** The event of running the sync tool. *)
Definition is_sync (e : Event) : bool :=
  match e with
  | EvSpawn command _ => String.prefix "rsync" command
  | _ => false
  end.

Definition no_sync (evs : list Event) : Prop := existsb is_sync evs = false.

(** Events without any child process. *)
Definition is_spawn (e : Event) : bool :=
  match e with EvSpawn _ _ => true | _ => false end.

Definition quiet (evs : list Event) : Prop := existsb is_spawn evs = false.



Section Runs.

Context {World : Type} `{RT : Runtime World}.
Implicit Types (s : @State World).

(** What one call of the logger writes. *)
Definition log_events (l : Logger) (logType : LogType) (msg : string) (w : World)
    : list Event :=
  let text := "[" ++ JsDate.toISOString (date_now w) ++ "] " ++ msg in
  EvConsole logType text ::
  match stream l with
  | Some p => [EvFileWrite p (logType_name logType ++ " - " ++ text
                              ++ String "010"%char EmptyString)]
  | None => []
  end.

(** A computation that starts no child process. *)
Definition Quiet {A} (m : @M World A) : Prop :=
  forall s r e s1, m s = (r, e, s1) -> quiet e.

(** Both ends of the remote transport are configured. *)
Definition has_endpoint (config : ProgramOptions) : bool :=
  negb (Str.is_empty (nullish (remoteHost config) "")
        || Str.is_empty (nullish (remoteUser config) "")).

(** What the remote shell does with [command] in world [w]. *)
Definition remoteOutcome (config : ProgramOptions) (w : World) (command : string)
    : ProcOutcome :=
  (spawn w (sshCommand (nullish (remoteUser config) "")
              (nullish (remoteHost config) "") command)).1.

(** What the probe for [path] on the remote host finds in world [w]. *)
Definition probeOutcome (config : ProgramConfig) (w : World) (path : string)
    : ProcOutcome :=
  (spawn w (remoteExistsCommand (tpl (remoteUser config)) (tpl (remoteHost config))
              path)).1.

(** The source is not there: the local check fails, or the remote probe
    fails or does not answer with the sentinel. *)
Definition source_absent (config : ProgramConfig) s : Prop :=
  if isRemoteSrc config then
    rejected (probeOutcome config (world s) (src config))
    \/ Str.trim (captured_stdout (probeOutcome config (world s) (src config)))
       <> "exists"
  else fs_existsSync (world s) (src config) = false.

(** The three parts of a sync command: the tool with its flags, the
    baseline reference, and the two endpoints. *)
Definition syncHead (config : ProgramConfig) : string :=
  "rsync -" ++ nullish (rsyncOptions config) "az" ++ " --delete "
  ++ (if given (excludeFrom config)
      then " --exclude-from=" ++ Str.dq ++ tpl (excludeFrom config) ++ Str.dq ++ " "
      else "").

Definition baselineArg (latest : string) : string :=
  "--link-dest=" ++ Str.dq ++ "../" ++ path_basename latest ++ "/" ++ Str.dq.

Definition syncTail (w : World) (config : ProgramConfig) (cur : string) : string :=
  " " ++ Str.dq ++ getSrcPath w config ++ "/" ++ Str.dq ++ " " ++ Str.dq
  ++ getDestPath w config ++ "/" ++ path_basename cur ++ "/" ++ Str.dq.

(** Step 3 of a run: the destination is there, or it is created. *)
Inductive DestStep (config : ProgramConfig) s : list Event -> State -> Prop :=
| dest_present e s1 :
    existsDestPath config s = (Ok true, e, s1) ->
    DestStep config s e s1
| dest_created e1 s1 e2 s2 :
    existsDestPath config s = (Ok false, e1, s1) ->
    createDestDir config s1 = (Ok tt, e2, s2) ->
    DestStep config s (e1 ++ e2)%list s2.

(** The ways a run of [backup] goes. *)
Inductive BackupRun (config : ProgramConfig) s : Res unit -> list Event -> State -> Prop :=
| run_source_missing e1 s1 :
    existsSrcPath config s = (Ok false, e1, s1) ->
    BackupRun config s (Throw (MkError (sourceMissing config))) e1 s1
| run_dest_uncreatable e1 s1 e2 s2 err e3 s3 :
    existsSrcPath config s = (Ok true, e1, s1) ->
    existsDestPath config s1 = (Ok false, e2, s2) ->
    createDestDir config s2 = (Throw err, e3, s3) ->
    BackupRun config s (Throw (MkError (destUncreatable config)))
      (e1 ++ e2 ++ e3)%list s3
| run_sync e1 s1 e2 s2 latest e3 s3 o :
    existsSrcPath config s = (Ok true, e1, s1) ->
    DestStep config s1 e2 s2 ->
    getLatestBackupDir config s2 = (Ok latest, e3, s3) ->
    let cur := currentBackupDirname config (world s) in
    let rsyncCmd := rsyncCommand (world s3) config latest cur in
    o = (spawn (world s3) rsyncCmd).1 ->
    BackupRun config s
      (match settle rsyncCmd o with
       | Ok _ => Ok tt
       | Throw e => Throw e
       | Exit c => Exit c
       end)
      (e1 ++ e2 ++ e3
       ++ log_events (logger config) Log (modeMessage (world s3) config latest cur) (world s3)
       ++ log_events (logger config) Log ("Executing command:" ++ rsyncCmd) (world s3)
       ++ [EvSpawn rsyncCmd o])%list
      (set_world s3 (spawn (world s3) rsyncCmd).2).

End Runs.

(** ** Vocabulary of the further properties *)

(** Characters that end a word, or have a meaning of their own, when a
    POSIX shell meets them outside quotes. *)
Definition sh_special (c : ascii) : bool :=
  (Str.is_ws c || Str.mem c ("|&;<>()$`*?[#~" ++ Str.dq))%bool.

(** The word a POSIX shell reads from [s] when [s] is made of quoted parts
    ['...'], escaped characters [\c] and plain characters; [None] when a
    quote is left open or [s] is more than one plain word. *)
Fixpoint sh_word (s : string) (quoted : bool) : option string :=
  match s with
  | EmptyString => if quoted then None else Some EmptyString
  | String c r =>
      if quoted then
        if Ascii.eqb c "'"%char then sh_word r false
        else option_map (String c) (sh_word r true)
      else if Ascii.eqb c "'"%char then sh_word r true
      else if Ascii.eqb c "\"%char then
        match r with
        | String d r' => option_map (String d) (sh_word r' false)
        | EmptyString => None
        end
      else if sh_special c then None
      else option_map (String c) (sh_word r false)
  end.

(** The properties that [isProgramOptions] looks at. *)
Definition checked : list string :=
  ["src"; "dest"; "remoteRole"; "remoteUser"; "remoteHost"].

(** The part of [toISOString] that a snapshot name is made of, colons
    included. *)
Definition seconds_part (t : Z) : string :=
  JsDate.yearString (JsDate.YearFromTime t) ++ "-"
  ++ JsDate.pad 2 (JsDate.MonthFromTime t) ++ "-"
  ++ JsDate.pad 2 (JsDate.DateFromTime t) ++ "T"
  ++ JsDate.pad 2 (JsDate.HourFromTime t) ++ ":"
  ++ JsDate.pad 2 (JsDate.MinFromTime t) ++ ":"
  ++ JsDate.pad 2 (JsDate.SecFromTime t).

(** Events that create no directory. *)
Definition mkdir_free (evs : list Event) : Prop := forall p, ~ In (EvMkdir p) evs.

(** The text that introduces the exclude file in a sync command. *)
Definition excludeMarker : string := "--exclude-from=".

Definition exclude_free (s : string) : Prop := Str.occ excludeMarker s = 0.

(** How a run of [backup] ends and what it has done by then: it fails
    before the sync tool is started, or its last event is the one
    invocation of the sync tool, whose outcome decides. *)
Definition RunEnd (config : ProgramConfig) (r : Res unit) (evs : list Event) : Prop :=
  (no_sync evs
   /\ (r = Throw (MkError (sourceMissing config))
       \/ r = Throw (MkError (destUncreatable config))))
  \/ exists pre cmd o,
       evs = (pre ++ [EvSpawn cmd o])%list /\ no_sync pre
       /\ is_sync (EvSpawn cmd o) = true
       /\ (rejected o -> exists err, r = Throw err)
       /\ (~ rejected o -> r = Ok tt).

Section Ends.

Context {World : Type} `{RT : Runtime World}.
Implicit Types (s : @State World).

(** A computation that never ends the process. *)
Definition NoExit {A} (m : @M World A) : Prop :=
  forall s c e s1, m s <> (Exit c, e, s1).

(** The built-in help option is among the arguments of the command
    line. *)
Definition help_requested (argv : list string) : Prop :=
  In "-h" (skipn 2 argv) \/ In "--help" (skipn 2 argv).

(** [getConfig] when the configuration comes from the file [path]: the
    configuration read is kept in the module, an error is reported and
    ends the process. *)
Definition loadFrom (path : string) : @M World ProgramConfig := fun s =>
  match readConfigFromJSON path s with
  | (Ok c, e, s1) =>
      (Ok c, e, {| world := world s1; loggerInstance := loggerInstance s1;
                   configCache := Some c |})
  | (Throw err, e, s1) =>
      (Exit 1, (e ++ [EvConsole Error ("Startup error: " ++ message err)])%list, s1)
  | (Exit c, e, s1) => (Exit c, e, s1)
  end.

End Ends.

(** ** A small world for examples

    Paths are POSIX paths, the file system is a list of existing paths and
    of file contents, the shell answers from a table, and [JSON.parse]
    knows the documents it is given. *)

Module Sim.

Record World := mkWorld {
  argv : list string;
  cwd : string;
  clock : Z;
  paths : list string;
  files : list (string * string);
  shell : string -> ProcOutcome;
  mkdir_fails : bool
}.

Definition slash : ascii := "/"%char.

Fixpoint base_go (s cur last : string) : string :=
  match s with
  | EmptyString => if Str.is_empty cur then last else cur
  | String c r =>
      if Ascii.eqb c slash then base_go r "" (if Str.is_empty cur then last else cur)
      else base_go r (cur ++ String c "") last
  end.

Definition basename (s : string) : string := base_go s "" "".

Fixpoint dir_go (s done cur : string) : string :=
  match s with
  | EmptyString => done
  | String c r =>
      if Ascii.eqb c slash then dir_go r (done ++ cur ++ "/") ""
      else dir_go r done (cur ++ String c "")
  end.

Definition dirname (s : string) : string :=
  let d := dir_go s "" "" in
  if Str.is_empty d then "."
  else if String.eqb d "/" then d
  else substring 0 (String.length d - 1) d.

Definition lookup_file (fs : list (string * string)) (p : string) : option string :=
  option_map snd (List.find (fun e => String.eqb (fst e) p) fs).

Definition lookup_doc (docs : list (string * JsVal)) (text : string) : option JsVal :=
  option_map snd (List.find (fun e => String.eqb (fst e) text) docs).

Definition runtime (docs : list (string * JsVal)) : Runtime World :=
  {| process_argv := argv;
     process_cwd := cwd;
     date_now := clock;
     fs_existsSync := fun w p => existsb (String.eqb p) (paths w);
     fs_mkdirSync := fun w p =>
       if mkdir_fails w then (Some (MkError "EACCES: permission denied, mkdir"), w)
       else (None, {| argv := argv w; cwd := cwd w; clock := clock w;
                      paths := p :: paths w; files := files w;
                      shell := shell w; mkdir_fails := mkdir_fails w |});
     fs_readFileSync := fun w p =>
       match lookup_file (files w) p with
       | Some d => inr d
       | None => inl (MkError "ENOENT: no such file or directory, open")
       end;
     spawn := fun w c => (shell w c, w);
     path_isAbsolute := String.prefix "/";
     path_join := fun a b => a ++ "/" ++ b;
     path_basename := basename;
     path_dirname := dirname;
     JSON_parse := lookup_doc docs |}.

(** The runtime of the examples: no configuration file is read in them. *)
#[global] Instance node : Runtime World := runtime [].

Definition start (w : World) : @State World :=
  {| world := w; loggerInstance := None; configCache := None |}.

(** Shells: one in which the listing finds nothing, one in which the
    remote host cannot be reached. *)
Definition nothingListed (c : string) : ProcOutcome :=
  if String.prefix "ls " c
  then Closed (Some 2%Z) "" "ls: cannot access '/tmp/b/BACKUP-*': No such file or directory"
  else Closed (Some 0%Z) "" "".

Definition unreachable (c : string) : ProcOutcome :=
  if String.prefix "ssh " c
  then Closed (Some 255%Z) ""
         "ssh: connect to host backup.example port 22: Connection timed out"
  else Closed (Some 0%Z) "" "".

Definition world_of (args : list string) (sh : string -> ProcOutcome) : World :=
  {| argv := "node" :: "incback" :: args;
     cwd := "/home/u";
     clock := 1763926245123;
     paths := ["/tmp/a"; "/tmp/b"];
     files := [];
     shell := sh;
     mkdir_fails := false |}.

Definition localRun : World := world_of ["-s"; "/tmp/a"; "-d"; "/tmp/b"] nothingListed.

Definition noSource : World := world_of ["-s"; "/tmp/zz"; "-d"; "/tmp/b"] nothingListed.

Definition prefixFlag : World :=
  world_of ["-s"; "/tmp/a"; "-d"; "/tmp/b"; "--backup-prefix"; "WEB-"] nothingListed.

Definition optionsFlag : World :=
  world_of ["-s"; "/tmp/a"; "-d"; "/tmp/b"; "-o"; "az"] nothingListed.

Definition withExclude : World :=
  world_of ["-s"; "/tmp/a"; "-d"; "/tmp/b"; "-e"; "exclude.txt"] nothingListed.

Definition remoteDest : World :=
  world_of ["-s"; "/tmp/a"; "-d"; "/srv/backups"; "-R"; "dest"; "-U"; "backup";
            "-H"; "backup.example"] unreachable.

Definition localOptions : ProgramOptions :=
  {| src := "/tmp/a"; dest := "/tmp/b"; remoteRole := None; remoteUser := None;
     remoteHost := None; excludeFrom := None; logFile := None;
     backupPrefix := Some "BACKUP-"; rsyncOptions := None |}.

Definition console : Logger := {| logFilePath := None; stream := None |}.

Definition localConfig : ProgramConfig :=
  {| options := localOptions; isRemoteSrc := false; isRemoteDest := false;
     logger := console |}.

Definition remoteConfig : ProgramConfig :=
  {| options :=
       {| src := "/tmp/a"; dest := "/srv/backups"; remoteRole := Some RoleDest;
          remoteUser := Some "backup"; remoteHost := Some "backup.example";
          excludeFrom := None; logFile := None; backupPrefix := Some "BACKUP-";
          rsyncOptions := None |};
     isRemoteSrc := false; isRemoteDest := true; logger := console |}.

(** What [getConfig] loads in [noSource], and the state it leaves. *)
Definition noSourceConfig : ProgramConfig :=
  {| options :=
       {| src := "/tmp/zz"; dest := "/tmp/b"; remoteRole := None; remoteUser := None;
          remoteHost := None; excludeFrom := None; logFile := None;
          backupPrefix := Some "BACKUP-"; rsyncOptions := None |};
     isRemoteSrc := false; isRemoteDest := false; logger := console |}.

Definition loaded (w : World) (c : ProgramConfig) : @State World :=
  {| world := w; loggerInstance := Some (logger c); configCache := Some c |}.

(** A configuration whose sync flags are outside [a], [z] and [c]. *)
Definition otherFlags : ProgramConfig :=
  {| options :=
       {| src := "/tmp/a"; dest := "/tmp/b"; remoteRole := None; remoteUser := None;
          remoteHost := None; excludeFrom := None; logFile := None;
          backupPrefix := Some "BACKUP-"; rsyncOptions := Some "av --rsh=sh" |};
     isRemoteSrc := false; isRemoteDest := false; logger := console |}.

(** A configuration file with the same flags: its text, the object
    [JSON.parse] makes of it, and a run that is given the file. *)
Definition member (k v : string) : string :=
  Str.dq ++ k ++ Str.dq ++ ":" ++ Str.dq ++ v ++ Str.dq.

Definition flagsText : string :=
  "{" ++ member "src" "/tmp/a" ++ "," ++ member "dest" "/tmp/b" ++ ","
  ++ member "rsyncOptions" "av --rsh=sh" ++ "}".

Definition flagsObject : gmap string JsVal :=
  <["src" := JStr "/tmp/a"]>
    (<["dest" := JStr "/tmp/b"]> (<["rsyncOptions" := JStr "av --rsh=sh"]> ∅)).

Definition flagsFile : World :=
  {| argv := ["node"; "incback"; "-c"; "/etc/incback.json"];
     cwd := "/home/u";
     clock := 1763926245123;
     paths := ["/tmp/a"; "/tmp/b"; "/etc/incback.json"];
     files := [("/etc/incback.json", flagsText)];
     shell := nothingListed;
     mkdir_fails := false |}.

(** The object of a configuration file for a remote destination. *)
Definition remoteObject : gmap string JsVal :=
  <["src" := JStr "/tmp/a"]>
    (<["dest" := JStr "/srv/backups"]>
       (<["remoteRole" := JStr "dest"]>
          (<["remoteUser" := JStr "backup"]>
             (<["remoteHost" := JStr "backup.example"]> ∅)))).

(** A shell in which the listing finds one snapshot. *)
Definition oneListed (c : string) : ProcOutcome :=
  if String.prefix "ls " c
  then Closed (Some 0%Z)
         ("/tmp/b/BACKUP-2025-11-22T193045" ++ String "010"%char EmptyString) ""
  else Closed (Some 0%Z) "" "".

Definition secondRun : World := world_of ["-s"; "/tmp/a"; "-d"; "/tmp/b"] oneListed.

(** Worlds that differ in the arguments, the existing paths, the files and
    whether directories can be made. *)
Definition world_with (args present : list string) (fs : list (string * string))
    (fails : bool) : World :=
  {| argv := "node" :: "incback" :: args;
     cwd := "/home/u";
     clock := 1763926245123;
     paths := present;
     files := fs;
     shell := nothingListed;
     mkdir_fails := fails |}.

Definition noArguments : World := world_with [] ["/tmp/a"; "/tmp/b"] [] false.

Definition brokenFile : World :=
  world_with [] ["/tmp/a"; "/tmp/b"; "/home/u/.incback"] [("/home/u/.incback", "{oops")]
    false.

Definition missingFile : World :=
  world_with ["-c"; "/etc/none.json"; "-s"; "/tmp/a"] ["/tmp/a"; "/tmp/b"] [] false.

Definition sourceOnly : World := world_with ["-s"; "/tmp/a"] ["/tmp/a"; "/tmp/b"] [] false.

Definition readOnly : World :=
  world_with ["-s"; "/tmp/a"; "-d"; "/tmp/new"] ["/tmp/a"] [] true.

Definition excludeKept : World :=
  world_with ["-s"; "/tmp/a"; "-d"; "/tmp/b"; "-e"; "exclude.txt"]
    ["/tmp/a"; "/tmp/b"; "/home/u/exclude.txt"] [] false.

Definition excludeOptions : ProgramOptions :=
  {| src := "/tmp/a"; dest := "/tmp/b"; remoteRole := None; remoteUser := None;
     remoteHost := None; excludeFrom := Some "exclude.txt"; logFile := None;
     backupPrefix := None; rsyncOptions := None |}.

Definition excludeConfig : ProgramConfig :=
  {| options :=
       {| src := "/tmp/a"; dest := "/tmp/b"; remoteRole := None; remoteUser := None;
          remoteHost := None; excludeFrom := Some "/home/u/exclude.txt"; logFile := None;
          backupPrefix := Some "BACKUP-"; rsyncOptions := None |};
     isRemoteSrc := false; isRemoteDest := false; logger := console |}.

Definition newDestConfig : ProgramConfig :=
  {| options :=
       {| src := "/tmp/a"; dest := "/tmp/new"; remoteRole := None; remoteUser := None;
          remoteHost := None; excludeFrom := None; logFile := None;
          backupPrefix := Some "BACKUP-"; rsyncOptions := None |};
     isRemoteSrc := false; isRemoteDest := false; logger := console |}.

Definition fileLogging : ProgramOptions :=
  {| src := "/tmp/a"; dest := "/tmp/b"; remoteRole := None; remoteUser := None;
     remoteHost := None; excludeFrom := None; logFile := Some "/var/log/incback.log";
     backupPrefix := None; rsyncOptions := None |}.

(** The state once the logger of the console is made, and the options
    Commander reads from the arguments of [missingFile] and [sourceOnly]. *)
Definition withLogger (w : World) : @State World :=
  {| world := w; loggerInstance := Some console; configCache := None |}.

Definition configOnly : gmap string JsVal :=
  <["src" := JStr "/tmp/a"]> (<["config" := JStr "/etc/none.json"]> ∅).

Definition srcOnly : gmap string JsVal := <["src" := JStr "/tmp/a"]> ∅.









(** A remote host that answers the probe and whose ssh prints a warning. *)
Definition warned (c : string) : ProcOutcome :=
  if String.prefix "ssh " c
  then Closed (Some 0%Z) ("exists" ++ String "010"%char EmptyString)
         "Warning: Permanently added 'backup.example' to the list of known hosts."
  else Closed (Some 0%Z) "" "".

Definition warnedHost : World :=
  world_of ["-s"; "/tmp/a"; "-d"; "/srv/backups"; "-R"; "dest"; "-U"; "backup";
            "-H"; "backup.example"] warned.

Definition freshDest : World :=
  world_with ["-s"; "/tmp/a"; "-d"; "/tmp/new"] ["/tmp/a"] [] false.

Definition inlineOptions : gmap string JsVal :=
  <["dest" := JStr "/tmp/b"]> (<["src" := JStr "/tmp/a"]> ∅).

End Sim.

(** * Properties *)

(** ** Strings *)

Module StrFacts.

Import Str.

Lemma is_empty_true s : is_empty s = true <-> s = "".
Proof. destruct s; simpl; split; congruence. Qed.

Lemma is_empty_false s : is_empty s = false <-> s <> "".
Proof. destruct s; simpl; split; congruence. Qed.

Lemma trimStart_fixed c r : is_ws c = false -> trimStart (String c r) = String c r.
Proof. intros H. simpl. now rewrite H. Qed.

Lemma trimEnd_head c r : is_ws c = false -> trimEnd (String c r) = String c (trimEnd r).
Proof. intros H. simpl. now rewrite H. Qed.

Lemma trimEnd_idem s : trimEnd (trimEnd s) = trimEnd s.
Proof.
  induction s as [|c r IH]; [reflexivity|].
  simpl. destruct (is_ws c) eqn:Hc; simpl.
  - destruct (is_empty (trimEnd r)) eqn:He; simpl; [reflexivity|].
    rewrite Hc, IH, He. reflexivity.
  - rewrite Hc, IH. reflexivity.
Qed.

Lemma trimStart_shape s :
  trimStart s = "" \/ exists c r, trimStart s = String c r /\ is_ws c = false.
Proof.
  induction s as [|c r IH]; [now left|].
  simpl. destruct (is_ws c) eqn:Hc; [exact IH|].
  right. now exists c, r.
Qed.

(** Trimming twice is trimming once. *)
Lemma trim_idem s : trim (trim s) = trim s.
Proof.
  unfold trim. destruct (trimStart_shape s) as [E | (c & r & E & Hc)]; rewrite E.
  - reflexivity.
  - rewrite (trimEnd_head c r Hc), (trimStart_fixed c _ Hc).
    rewrite <- (trimEnd_head c r Hc). apply trimEnd_idem.
Qed.

(** A character that is not in the pattern cuts every match. *)
Lemma prefix_sep p : forall a c b,
  mem c p = false -> String.prefix p (a ++ String c b) = String.prefix p a.
Proof.
  induction p as [|d p IH]; intros a c b Hc; [now destruct a|].
  simpl in Hc. apply orb_false_elim in Hc as [Hcd Hp].
  destruct a as [|x a]; simpl.
  - destruct (ascii_dec d c) as [->|]; [|reflexivity].
    now rewrite Ascii.eqb_refl in Hcd.
  - destruct (ascii_dec d x); [now apply IH|reflexivity].
Qed.

Lemma occ_sep p a c b :
  mem c p = false -> p <> "" ->
  occ p (a ++ String c b) = occ p a + occ p b.
Proof.
  intros Hc Hp. induction a as [|x a IH].
  - pose proof (prefix_sep p "" c b Hc) as H. simpl in H.
    simpl. rewrite H. destruct p; [congruence|reflexivity].
  - change (occ p (String x a ++ String c b))
      with ((if String.prefix p (String x a ++ String c b) then 1 else 0)
            + occ p (a ++ String c b)).
    rewrite (prefix_sep p (String x a) c b Hc), IH. simpl. lia.
Qed.

Lemma append_assoc (a b c : string) : (a ++ b) ++ c = a ++ (b ++ c).
Proof.
  induction a as [|x a IH]; [reflexivity|].
  change (String x ((a ++ b) ++ c) = String x (a ++ b ++ c)). now rewrite IH.
Qed.

Lemma append_empty_r (a : string) : a ++ "" = a.
Proof.
  induction a as [|x a IH]; [reflexivity|].
  change (String x (a ++ "") = String x a). now rewrite IH.
Qed.

End StrFacts.

(** ** Running the monad *)

Section RunFacts.

Context {World : Type} `{RT : Runtime World}.
Implicit Types (s : @State World).

Lemma code_nonzero_spec code : code_nonzero code = true <-> code <> Some 0%Z.
Proof.
  destruct code as [c|]; simpl; [|split; congruence].
  rewrite negb_true_iff, Z.eqb_neq. split; congruence.
Qed.

Lemma settle_rejects command o :
  (exists e, settle command o = Throw e) <-> rejected o.
Proof.
  unfold rejected. destruct o as [errno msg | code out err]; simpl.
  - split; [intros _; left; discriminate | intros _; eauto].
  - destruct (code_nonzero code) eqn:Hc.
    + apply code_nonzero_spec in Hc. split; [tauto | eauto].
    + assert (code = Some 0%Z) as ->.
      { destruct code as [c|]; simpl in Hc; [|discriminate].
        apply negb_false_iff, Z.eqb_eq in Hc. now subst. }
      destruct (Str.is_empty err) eqn:He; simpl.
      * apply StrFacts.is_empty_true in He. subst. split.
        -- intros [e He]. discriminate.
        -- intros [H|H]; congruence.
      * apply StrFacts.is_empty_false in He. split; [tauto | eauto].
Qed.

Lemma settle_resolves command o :
  exit_code o = Some 0%Z -> captured_stderr o = "" ->
  settle command o = Ok (Str.trim (captured_stdout o)).
Proof.
  destruct o as [errno msg | code out err]; simpl; [discriminate|].
  intros -> ->. reflexivity.
Qed.

Lemma settle_cases command o :
  (rejected o /\ exists e, settle command o = Throw e)
  \/ (exit_code o = Some 0%Z /\ captured_stderr o = ""
      /\ settle command o = Ok (Str.trim (captured_stdout o))).
Proof.
  destruct (settle command o) as [v|e|c] eqn:E.
  - right. destruct o as [errno msg | code out err]; simpl in *; [discriminate|].
    destruct (code_nonzero code) eqn:Hc; [discriminate|].
    destruct (Str.is_empty err) eqn:He; simpl in E; [|discriminate].
    apply StrFacts.is_empty_true in He. subst err.
    destruct code as [c|]; simpl in Hc; [|discriminate].
    apply negb_false_iff, Z.eqb_eq in Hc. subst c. auto.
  - left. split; [|eauto]. apply (settle_rejects command). eauto.
  - exfalso. destruct o as [errno msg | code out err]; simpl in E; [discriminate|].
    destruct (code_nonzero code); [discriminate|].
    destruct (negb (Str.is_empty err)); discriminate.
Qed.

Lemma executeCommand_run command s :
  executeCommand command s =
    (settle command (spawn (world s) command).1,
     [EvSpawn command (spawn (world s) command).1],
     set_world s (spawn (world s) command).2).
Proof. unfold executeCommand. now destruct (spawn (world s) command). Qed.

End RunFacts.

(** ** The pieces of a run *)

Section ProgramFacts.

Context {World : Type} `{RT : Runtime World}.
Implicit Types (s : @State World).

Lemma remoteExists_run remoteUser remoteHost remotePath s :
  let cmd := remoteExistsCommand remoteUser remoteHost remotePath in
  let o := (spawn (world s) cmd).1 in
  remoteExists remoteUser remoteHost remotePath s =
    (Ok (match settle cmd o with
         | Ok stdout => String.eqb (Str.trim stdout) "exists"
         | _ => false
         end),
     [EvSpawn cmd o], set_world s (spawn (world s) cmd).2).
Proof.
  intros cmd o. unfold remoteExists, try_catch, bind. fold cmd.
  rewrite executeCommand_run. fold o.
  destruct (settle_cases cmd o) as [[_ [e ->]] | (_ & _ & ->)]; reflexivity.
Qed.

Lemma log_run l msg s :
  log l msg s = (Ok tt, log_events l Log msg (world s), s).
Proof.
  unfold log, _log, log_events, bind, timestamped, emit, ret.
  destruct (stream l); reflexivity.
Qed.

Lemma warn_run l msg s :
  warn l msg s = (Ok tt, log_events l Warn msg (world s), s).
Proof.
  unfold warn, _log, log_events, bind, timestamped, emit, ret.
  destruct (stream l); reflexivity.
Qed.

Lemma no_sync_app e1 e2 : no_sync (e1 ++ e2) <-> no_sync e1 /\ no_sync e2.
Proof. unfold no_sync. rewrite existsb_app, orb_false_iff. tauto. Qed.

Lemma no_sync_log l t msg w : no_sync (log_events l t msg w).
Proof. unfold no_sync, log_events. destruct (stream l); reflexivity. Qed.

Lemma no_sync_ssh u h c o : no_sync [EvSpawn (sshCommand u h c) o].
Proof. reflexivity. Qed.

Lemma no_sync_probe u h p o : no_sync [EvSpawn (remoteExistsCommand u h p) o].
Proof. reflexivity. Qed.

Lemma existsPath_run config pathStr isRemote s :
  exists b e s1, existsPath config pathStr isRemote s = (Ok b, e, s1) /\ no_sync e.
Proof.
  unfold existsPath. destruct isRemote.
  - rewrite remoteExists_run. do 3 eexists. split; [reflexivity|]. apply no_sync_probe.
  - unfold existsSync. do 3 eexists. split; reflexivity.
Qed.


Lemma remoteCommand_run command (config : ProgramOptions) throwError s :
  remoteCommand command config throwError s =
    if (Str.is_empty (nullish (remoteHost config) "")
        || Str.is_empty (nullish (remoteUser config) ""))%bool
    then (Throw (MkError endpointRequired), [], s)
    else
      let cmd := sshCommand (nullish (remoteUser config) "")
                   (nullish (remoteHost config) "") command in
      let o := (spawn (world s) cmd).1 in
      (match settle cmd o with
       | Throw e => if throwError then Throw e else Ok ""
       | r => r
       end,
       [EvSpawn cmd o], set_world s (spawn (world s) cmd).2).
Proof.
  unfold remoteCommand.
  destruct (Str.is_empty (nullish (remoteHost config) "")
            || Str.is_empty (nullish (remoteUser config) ""))%bool; [reflexivity|].
  cbv zeta. unfold try_catch. rewrite executeCommand_run.
  destruct (settle_cases
              (sshCommand (nullish (remoteUser config) "")
                 (nullish (remoteHost config) "") command)
              (spawn (world s)
                 (sshCommand (nullish (remoteUser config) "")
                    (nullish (remoteHost config) "") command)).1)
    as [[_ [e ->]] | (_ & _ & ->)]; [|reflexivity].
  destruct throwError; reflexivity.
Qed.

Lemma remoteCommand_no_sync command (config : ProgramOptions) throwError s r e s1 :
  remoteCommand command config throwError s = (r, e, s1) -> no_sync e.
Proof.
  rewrite remoteCommand_run.
  destruct (Str.is_empty _ || Str.is_empty _)%bool; intros [= <- <- <-];
    [reflexivity | apply no_sync_ssh].
Qed.

Lemma no_sync_ls config o : no_sync [EvSpawn (lsCommand config) o].
Proof. reflexivity. Qed.

Lemma getLatestBackupDir_run config s :
  exists latest e s1,
    getLatestBackupDir config s = (Ok latest, e, s1) /\ no_sync e.
Proof.
  unfold getLatestBackupDir. destruct (isRemoteDest config).
  - unfold try_catch, bind.
    destruct (remoteCommand (lsCommand config) config false s) as [[r e] s1] eqn:E.
    pose proof (remoteCommand_no_sync _ _ _ _ _ _ _ E) as Hn.
    destruct r as [v|err|c].
    + do 3 eexists. split; [reflexivity|]. now rewrite app_nil_r.
    + do 3 eexists. split; [reflexivity|]. now rewrite app_nil_r.
    + exfalso. rewrite remoteCommand_run in E.
      destruct (Str.is_empty _ || Str.is_empty _)%bool; [discriminate|].
      cbv zeta in E.
      destruct (settle_cases
                  (sshCommand (nullish (remoteUser config) "")
                     (nullish (remoteHost config) "") (lsCommand config))
                  (spawn (world s)
                     (sshCommand (nullish (remoteUser config) "")
                        (nullish (remoteHost config) "") (lsCommand config))).1)
        as [[_ [e' He]] | (_ & _ & He)]; rewrite He in E; discriminate.
  - unfold bind, existsSync.
    destruct (fs_existsSync (world s) (dest config)); simpl.
    + unfold try_catch, bind. rewrite executeCommand_run.
      destruct (settle_cases (lsCommand config) (spawn (world s) (lsCommand config)).1)
        as [[_ [e' ->]] | (_ & _ & ->)];
        do 3 eexists; (split; [reflexivity|]); reflexivity.
    + do 3 eexists. split; reflexivity.
Qed.


Lemma createDestDir_run config s :
  exists r e s1,
    createDestDir config s = (r, e, s1) /\ no_sync e
    /\ (r = Ok tt \/ exists err, r = Throw err).
Proof.
  unfold createDestDir. destruct (isRemoteDest config).
  - unfold bind. rewrite remoteCommand_run.
    destruct (Str.is_empty _ || Str.is_empty _)%bool.
    + do 3 eexists. split; [reflexivity|]. split; [reflexivity | eauto].
    + cbv zeta.
      destruct (settle_cases
                  (sshCommand (nullish (remoteUser config) "")
                     (nullish (remoteHost config) "") (mkdirCommand config))
                  (spawn (world s)
                     (sshCommand (nullish (remoteUser config) "")
                        (nullish (remoteHost config) "") (mkdirCommand config))).1)
        as [[_ [e' ->]] | (_ & _ & ->)];
        do 3 eexists; (split; [reflexivity|]); (split; [reflexivity | eauto]).
  - unfold mkdirSync. destruct (fs_mkdirSync (world s) (dest config)) as [[err|] w];
      do 3 eexists; (split; [reflexivity|]); (split; [reflexivity | eauto]).
Qed.

(** Every run of [backup] is one of the three runs of [BackupRun]. *)
Lemma backup_inv config s :
  exists r evs s1, backup config s = (r, evs, s1) /\ BackupRun config s r evs s1.
Proof.
  unfold backup, bind, get_state.
  destruct (existsPath_run config (src config) (isRemoteSrc config) s)
    as (b1 & e1 & s1 & E1 & _).
  fold (existsSrcPath config) in E1. rewrite E1.
  destruct b1; cbn [negb].
  2:{ do 3 eexists. split; [reflexivity|].
      rewrite app_nil_r. now apply run_source_missing. }
  destruct (existsPath_run config (dest config) (isRemoteDest config) s1)
    as (b2 & e2 & s2 & E2 & _).
  fold (existsDestPath config) in E2. rewrite E2.
  destruct b2; cbn [negb].
  - (* the destination is there *)
    unfold ret at 1.
    destruct (getLatestBackupDir_run config s2) as (latest & e3 & s3 & E3 & _).
    rewrite E3. rewrite !log_run, executeCommand_run.
    pose proof (run_sync config s e1 s1 e2 s2 latest e3 s3 _ E1
                  (dest_present config s1 e2 s2 E2) E3 eq_refl) as R.
    cbv zeta in R.
    destruct (settle _ _); unfold ret; cbv beta iota zeta; cbn [app];
      do 3 eexists; (split; [reflexivity|]);
      rewrite ?app_nil_r, <- ?app_assoc in *; exact R.
  - unfold try_catch.
    destruct (createDestDir_run config s2) as (r & e3 & s3 & E3 & _ & Hr).
    rewrite E3. destruct Hr as [-> | [err ->]].
    + destruct (getLatestBackupDir_run config s3) as (latest & e4 & s4 & E4 & _).
      rewrite E4. rewrite !log_run, executeCommand_run.
      pose proof (run_sync config s e1 s1 (e2 ++ e3) s3 latest e4 s4 _ E1
                    (dest_created config s1 e2 s2 e3 s3 E2 E3) E4 eq_refl) as R.
      cbv zeta in R.
      destruct (settle _ _); unfold ret; cbv beta iota zeta; cbn [app];
        do 3 eexists; (split; [reflexivity|]);
        rewrite ?app_nil_r, <- ?app_assoc in *; exact R.
    + do 3 eexists. split; [reflexivity|].
      unfold throw. rewrite !app_nil_r.
      now apply (run_dest_uncreatable config s e1 s1 e2 s2 err e3 s3).
Qed.

End ProgramFacts.

(** ** Loading the configuration *)

Create HintDb quiet.

Section ConfigFacts.

Context {World : Type} `{RT : Runtime World}.
Implicit Types (s : @State World).

Lemma quiet_app e1 e2 : quiet (e1 ++ e2) <-> quiet e1 /\ quiet e2.
Proof. unfold quiet. rewrite existsb_app, orb_false_iff. tauto. Qed.

Lemma quiet_no_sync evs : quiet evs -> no_sync evs.
Proof.
  unfold quiet, no_sync. induction evs as [|e evs IH]; [reflexivity|].
  simpl. rewrite !orb_false_iff. intros [He Hevs]. split; [|auto].
  destruct e; simpl in *; congruence.
Qed.

Lemma quiet_log l t msg w : quiet (log_events l t msg w).
Proof. unfold quiet, log_events. destruct (stream l); reflexivity. Qed.

Lemma newLogger_run logFilePath s :
  exists l e s1, newLogger logFilePath s = (Ok l, e, s1) /\ quiet e.
Proof.
  unfold newLogger. destruct (given logFilePath).
  - unfold bind, get_state, try_catch, mkdirSync.
    destruct (fs_mkdirSync _ _) as [[err|] w]; do 3 eexists; split; reflexivity.
  - do 3 eexists. split; reflexivity.
Qed.

Lemma getLogger_run (config : ProgramOptions) s :
  exists l e s1, getLogger config s = (Ok l, e, s1) /\ quiet e.
Proof.
  unfold getLogger. destruct (loggerInstance s) as [l|].
  - do 3 eexists. split; reflexivity.
  - destruct (newLogger_run (logFile config) s) as (l & e & s1 & -> & Hq).
    do 3 eexists. split; [reflexivity | exact Hq].
Qed.

Lemma optionsToConfig_run (config : ProgramOptions) s l e0 s0 :
  getLogger config s = (Ok l, e0, s0) ->
  optionsToConfig config s =
    let kept :=
      if given (excludeFrom config) then
        let p := resolved (world s0) (nullish (excludeFrom config) "") in
        if fs_existsSync (world s0) p then set_excludeFrom config (Some p)
        else set_excludeFrom config None
      else config in
    (Ok {| options := set_backupPrefix kept (Some (nullish (backupPrefix kept) "BACKUP-"));
           isRemoteSrc := (remoteFlags config).1;
           isRemoteDest := (remoteFlags config).2;
           logger := l |},
     (e0 ++
      if given (excludeFrom config) then
        let p := resolved (world s0) (nullish (excludeFrom config) "") in
        if fs_existsSync (world s0) p then []
        else log_events l Warn ("Exclude file not found: " ++ p) (world s0)
      else [])%list,
     s0).
Proof.
  intros E. unfold optionsToConfig.
  destruct (remoteFlags config) as [f1 f2]; cbv zeta;
    unfold bind; rewrite E;
    (destruct (given (excludeFrom config));
     [ unfold get_state, existsSync; cbv beta iota zeta;
       destruct (fs_existsSync _ _); cbn [negb]; rewrite ?warn_run;
       unfold ret; cbv beta iota zeta; rewrite ?app_nil_r; reflexivity
     | unfold ret; cbv beta iota zeta; rewrite ?app_nil_r; reflexivity ]).
Qed.


Lemma Quiet_ret {A} (a : A) : Quiet (@ret World A a).
Proof. intros s r e s1 [= <- <- <-]. reflexivity. Qed.

Lemma Quiet_throw {A} msg : Quiet (@throw World A msg).
Proof. intros s r e s1 [= <- <- <-]. reflexivity. Qed.

Lemma Quiet_exit {A} c : Quiet (@process_exit World A c).
Proof. intros s r e s1 [= <- <- <-]. reflexivity. Qed.

Lemma Quiet_emit ev : is_spawn ev = false -> Quiet (@emit World ev).
Proof. intros H s r e s1 [= <- <- <-]. unfold quiet. simpl. now rewrite H. Qed.

Lemma Quiet_bind {A B} (m : @M World A) (f : A -> @M World B) :
  Quiet m -> (forall a, Quiet (f a)) -> Quiet (bind m f).
Proof.
  intros Hm Hf s r e s1. unfold bind.
  destruct (m s) as [[r0 e0] s0] eqn:E0. specialize (Hm _ _ _ _ E0).
  destruct r0 as [a|err|c]; try (intros [= <- <- <-]; exact Hm).
  destruct (f a s0) as [[r1 e1] s2] eqn:E1. specialize (Hf _ _ _ _ _ E1).
  intros [= <- <- <-]. apply quiet_app. auto.
Qed.

Lemma Quiet_try_catch {A} (m : @M World A) (h : JsError -> @M World A) :
  Quiet m -> (forall err, Quiet (h err)) -> Quiet (try_catch m h).
Proof.
  intros Hm Hh s r e s1. unfold try_catch.
  destruct (m s) as [[r0 e0] s0] eqn:E0. specialize (Hm _ _ _ _ E0).
  destruct r0 as [a|err|c]; try (intros [= <- <- <-]; exact Hm).
  destruct (h err s0) as [[r1 e1] s2] eqn:E1. specialize (Hh _ _ _ _ _ E1).
  intros [= <- <- <-]. apply quiet_app. auto.
Qed.

Lemma Quiet_get_state : Quiet (@get_state World).
Proof. intros s r e s1 [= <- <- <-]. reflexivity. Qed.

Lemma Quiet_cwd : Quiet (@cwd World _).
Proof. intros s r e s1 [= <- <- <-]. reflexivity. Qed.

Lemma Quiet_existsSync p : Quiet (existsSync p).
Proof. intros s r e s1 [= <- <- <-]. reflexivity. Qed.

Lemma Quiet_readFileSync p : Quiet (readFileSync p).
Proof. intros s r e s1 [= <- <- <-]. reflexivity. Qed.

Lemma Quiet_set_config c : Quiet (@set_config World c).
Proof. intros s r e s1 [= <- <- <-]. reflexivity. Qed.

Lemma Quiet_getLogger (config : ProgramOptions) : Quiet (getLogger config).
Proof.
  intros s r e s1 E.
  destruct (getLogger_run config s) as (l & e' & s' & E' & Hq). congruence.
Qed.

Lemma Quiet_warn l msg : Quiet (warn l msg).
Proof. intros s r e s1. rewrite warn_run. intros [= <- <- <-]. apply quiet_log. Qed.

#[local] Hint Resolve Quiet_ret Quiet_throw Quiet_exit Quiet_get_state Quiet_cwd
  Quiet_existsSync Quiet_readFileSync Quiet_set_config Quiet_getLogger
  Quiet_warn : quiet.

Ltac quiet_step :=
  match goal with
  | |- Quiet (bind _ _) => apply Quiet_bind; [|intros ?]
  | |- Quiet (try_catch _ _) => apply Quiet_try_catch; [|intros ?]
  | |- Quiet (emit _) => apply Quiet_emit; reflexivity
  | |- Quiet (if ?b then _ else _) => destruct b
  | |- Quiet (match ?x with _ => _ end) => destruct x
  | |- Quiet _ => solve [auto with quiet]
  end.

Lemma Quiet_optionsToConfig (config : ProgramOptions) : Quiet (optionsToConfig config).
Proof.
  unfold optionsToConfig. destruct (remoteFlags config). repeat quiet_step.
Qed.

Lemma Quiet_optionsToConfigOf o : Quiet (optionsToConfigOf o).
Proof.
  unfold optionsToConfigOf. pose proof Quiet_optionsToConfig.
  repeat quiet_step.
Qed.

Lemma Quiet_readConfigFromJSON p : Quiet (readConfigFromJSON p).
Proof.
  unfold readConfigFromJSON. pose proof Quiet_optionsToConfigOf.
  repeat quiet_step.
Qed.

Lemma Quiet_program_parse decls argv : Quiet (@program_parse World decls argv).
Proof. unfold program_parse. repeat quiet_step. Qed.

Lemma Quiet_parseConfigFromArgs : Quiet parseConfigFromArgs.
Proof.
  unfold parseConfigFromArgs.
  pose proof Quiet_optionsToConfigOf. pose proof Quiet_readConfigFromJSON.
  pose proof Quiet_program_parse.
  repeat quiet_step.
Qed.

Lemma Quiet_getConfig : Quiet getConfig.
Proof.
  intros s r e s1. unfold getConfig. destruct (configCache s).
  - intros [= <- <- <-]. reflexivity.
  - revert s r e s1. change (Quiet (try_catch
      (argsConfig <- parseConfigFromArgs ;;
       match argsConfig with
       | Some c => set_config c
       | None => c <- readConfigFromJSON "" ;; set_config c
       end)
      (fun error =>
         emit (EvConsole Error ("Startup error: " ++ message error)) ;;;
         process_exit 1))).
    pose proof Quiet_parseConfigFromArgs. pose proof Quiet_readConfigFromJSON.
    repeat quiet_step.
Qed.

End ConfigFacts.

(** ** Runs of the orchestrator *)

Section Claims.

Context {World : Type} `{RT : Runtime World}.
Implicit Types (s : @State World).

Lemma backup_run config s r evs s1 :
  backup config s = (r, evs, s1) -> BackupRun config s r evs s1.
Proof.
  intros E. destruct (backup_inv config s) as (r' & evs' & s1' & E' & R).
  rewrite E in E'. now inversion E'; subst.
Qed.

Lemma main_run s config e0 s0 r evs s1 :
  getConfig s = (Ok config, e0, s0) ->
  backup config s0 = (r, evs, s1) ->
  main s =
    (match r with Ok _ => Ok tt | Throw _ => Exit 1 | Exit c => Exit c end,
     (e0 ++ evs ++
      match r with
      | Throw e => [EvConsole Error ("Backup failed: " ++ message e)]
      | _ => []
      end)%list,
     s1).
Proof.
  intros E0 E1. unfold main, try_catch, backupRun, bind. rewrite E0, E1.
  destruct r as [[]|e|c]; unfold emit, process_exit; cbv beta iota zeta;
    cbn [app]; rewrite ?app_nil_r, <- ?app_assoc; reflexivity.
Qed.

Lemma not_rejected o :
  exit_code o = Some 0%Z -> captured_stderr o = "" -> ~ rejected o.
Proof. intros H1 H2 [H|H]; congruence. Qed.

(** The probe answers false when its command fails or prints anything but
    the sentinel. *)
Lemma remoteExists_false remoteUser remoteHost remotePath s :
  let cmd := remoteExistsCommand remoteUser remoteHost remotePath in
  let o := (spawn (world s) cmd).1 in
  rejected o \/ Str.trim (captured_stdout o) <> "exists" ->
  remoteExists remoteUser remoteHost remotePath s
    = (Ok false, [EvSpawn cmd o], set_world s (spawn (world s) cmd).2).
Proof.
  intros cmd o H. rewrite remoteExists_run. fold cmd o.
  destruct (settle_cases cmd o) as [[_ [e ->]] | (Hc & He & ->)]; [reflexivity|].
  rewrite StrFacts.trim_idem.
  destruct H as [H | H]; [destruct (not_rejected o Hc He H)|].
  apply String.eqb_neq in H. now rewrite H.
Qed.

(** C5, as amended: the remote probe always resolves to a boolean and
    never rejects; it resolves to true exactly when the command of the
    existence test ended with status 0, wrote nothing to its error
    stream, and its trimmed output is the sentinel [exists]; every
    failure of the connection or of the command, output on the error
    stream included, resolves to false. *)
Theorem remoteExists_total remoteUser remoteHost remotePath s :
  let cmd := remoteExistsCommand remoteUser remoteHost remotePath in
  let o := (spawn (world s) cmd).1 in
  exists b,
    remoteExists remoteUser remoteHost remotePath s
      = (Ok b, [EvSpawn cmd o], set_world s (spawn (world s) cmd).2)
    /\ (b = true <-> ~ rejected o /\ Str.trim (captured_stdout o) = "exists")
    /\ (rejected o -> b = false).
Proof.
  intros cmd o. rewrite remoteExists_run. fold cmd o.
  destruct (settle_cases cmd o) as [[Hr [e ->]] | (Hc & He & ->)].
  - exists false. split; [reflexivity|]. split; [|reflexivity].
    split; [discriminate | tauto].
  - eexists. split; [reflexivity|]. rewrite StrFacts.trim_idem.
    pose proof (not_rejected o Hc He) as Hn. split.
    + rewrite String.eqb_eq. tauto.
    + tauto.
Qed.

Lemma no_sync_In evs e : no_sync evs -> In e evs -> is_sync e = false.
Proof.
  unfold no_sync. intros Hn Hin. destruct (is_sync e) eqn:He; [|reflexivity].
  assert (existsb is_sync evs = true) by (apply existsb_exists; eauto). congruence.
Qed.

Lemma existsPath_no_sync config p isRemote s r e s1 :
  existsPath config p isRemote s = (r, e, s1) -> no_sync e.
Proof.
  intros E. destruct (existsPath_run config p isRemote s) as (b & e' & s' & E' & Hn).
  congruence.
Qed.

Lemma createDestDir_no_sync config s r e s1 :
  createDestDir config s = (r, e, s1) -> no_sync e.
Proof.
  intros E. destruct (createDestDir_run config s) as (r' & e' & s' & E' & Hn & _).
  congruence.
Qed.

Lemma getLatestBackupDir_no_sync config s r e s1 :
  getLatestBackupDir config s = (r, e, s1) -> no_sync e.
Proof.
  intros E. destruct (getLatestBackupDir_run config s) as (l & e' & s' & E' & Hn).
  congruence.
Qed.

Lemma DestStep_no_sync config s e s1 : DestStep config s e s1 -> no_sync e.
Proof.
  intros [e' s' E | e1 s' e2 s2 E1 E2].
  - exact (existsPath_no_sync _ _ _ _ _ _ _ E).
  - apply no_sync_app. split.
    + exact (existsPath_no_sync _ _ _ _ _ _ _ E1).
    + exact (createDestDir_no_sync _ _ _ _ _ E2).
Qed.

Lemma rsyncCommand_is_sync w config latest cur o :
  is_sync (EvSpawn (rsyncCommand w config latest cur) o) = true.
Proof.
  unfold rsyncCommand. destruct (given (excludeFrom config)), (found latest); reflexivity.
Qed.

(** A run either stops before the sync tool is started, and fails, or
    ends with the one invocation of the sync tool, whose outcome decides
    how the run ends. *)
Lemma BackupRun_shape config s r evs s1 :
  BackupRun config s r evs s1 ->
  (no_sync evs /\ exists e, r = Throw e)
  \/ exists pre s2 latest e3 s3 o,
       let cmd :=
         rsyncCommand (world s3) config latest (currentBackupDirname config (world s)) in
       getLatestBackupDir config s2 = (Ok latest, e3, s3)
       /\ evs = (pre ++ [EvSpawn cmd o])%list /\ no_sync pre
       /\ r = match settle cmd o with
              | Ok _ => Ok tt
              | Throw e => Throw e
              | Exit c => Exit c
              end.
Proof.
  intros [e1 s' E1 | e1 s' e2 s2 err e3 s3 E1 E2 E3
          | e1 s' e2 s2 latest e3 s3 o E1 D E3 cur cmd Ho].
  - left. split; [|eauto]. exact (existsPath_no_sync _ _ _ _ _ _ _ E1).
  - left. split; [|eauto]. rewrite !no_sync_app.
    split; [exact (existsPath_no_sync _ _ _ _ _ _ _ E1)|].
    split; [exact (existsPath_no_sync _ _ _ _ _ _ _ E2)|].
    exact (createDestDir_no_sync _ _ _ _ _ E3).
  - right.
    exists (e1 ++ e2 ++ e3
            ++ log_events (logger config) Log
                 (modeMessage (world s3) config latest cur) (world s3)
            ++ log_events (logger config) Log ("Executing command:" ++ cmd) (world s3))%list,
      s2, latest, e3, s3, o.
    cbv zeta. fold cur. fold cmd. split; [exact E3|].
    split; [now rewrite <- !app_assoc|].
    split; [|reflexivity]. rewrite !no_sync_app.
    split; [exact (existsPath_no_sync _ _ _ _ _ _ _ E1)|].
    split; [exact (DestStep_no_sync _ _ _ _ D)|].
    split; [exact (getLatestBackupDir_no_sync _ _ _ _ _ E3)|].
    split; apply no_sync_log.
Qed.

(** The sync invocation of a run is its last event. *)
Lemma sync_is_last pre cmd o sync o' :
  no_sync pre -> In (EvSpawn sync o') (pre ++ [EvSpawn cmd o]) ->
  is_sync (EvSpawn sync o') = true -> sync = cmd /\ o' = o.
Proof.
  intros Hn Hin Hs. apply in_app_or in Hin as [Hin | [Heq | []]].
  - rewrite (no_sync_In _ _ Hn Hin) in Hs. discriminate.
  - now inversion Heq.
Qed.

(** C7: [executeCommand] rejects if and only if the process closed with
    an exit code other than 0 or wrote to its error stream; otherwise it
    resolves with the trimmed standard output.  A sync invocation that
    ends that way makes [backup] reject and the process exit with
    status 1. *)
Theorem executeCommand_rejects_iff command s :
  let o := (spawn (world s) command).1 in
  let r := (executeCommand command s).1.1 in
  ((exists e, r = Throw e) <-> rejected o)
  /\ (~ rejected o -> r = Ok (Str.trim (captured_stdout o)))
  /\ (forall s' config s0 e0 res evs s1 sync o',
        getConfig s' = (Ok config, e0, s0) ->
        backup config s0 = (res, evs, s1) ->
        In (EvSpawn sync o') evs -> is_sync (EvSpawn sync o') = true ->
        rejected o' ->
        (exists e, res = Throw e) /\ (main s').1.1 = Exit 1).
Proof.
  intros o r. subst r. rewrite executeCommand_run. fold o. cbn [fst].
  split; [apply settle_rejects|]. split.
  - intros Hn. destruct (settle_cases command o) as [[Hr _] | (_ & _ & ->)]; tauto.
  - intros s' config s0 e0 res evs s1 sync o' E0 E1 Hin Hsync Hrej.
    assert (exists e, res = Throw e) as [e ->].
    { apply backup_run, BackupRun_shape in E1
        as [[Hn He] | (pre & s2 & latest & e3 & s3 & o1 & _ & -> & Hn & ->)];
        [exact He|].
      destruct (sync_is_last _ _ _ _ _ Hn Hin Hsync) as [-> ->].
      destruct (proj2 (settle_rejects
                         (rsyncCommand (world s3) config latest
                            (currentBackupDirname config (world s0))) o1) Hrej)
        as [e ->].
      eauto. }
    split; [eauto|]. rewrite (main_run _ _ _ _ _ _ _ E0 E1). reflexivity.
Qed.


(** C10: when [remoteUser] or [remoteHost] is missing or empty,
    [remoteCommand] rejects with its precondition error whatever
    [throwError] is, and starts no process; with both present and
    [throwError = false], a failure of the transport resolves to the empty
    string instead. *)
Theorem remoteCommand_requires_endpoint command (config : ProgramOptions) s :
  ((remoteUser config = None \/ remoteUser config = Some ""
    \/ remoteHost config = None \/ remoteHost config = Some "") ->
   forall throwError,
     remoteCommand command config throwError s = (Throw (MkError endpointRequired), [], s))
  /\ (forall user host,
        remoteUser config = Some user -> user <> "" ->
        remoteHost config = Some host -> host <> "" ->
        let cmd := sshCommand user host command in
        let o := (spawn (world s) cmd).1 in
        rejected o ->
        remoteCommand command config false s
          = (Ok "", [EvSpawn cmd o], set_world s (spawn (world s) cmd).2)).
Proof.
  split.
  - intros H throwError. rewrite remoteCommand_run.
    destruct H as [-> | [-> | [-> | ->]]]; cbn [nullish Str.is_empty orb];
      rewrite ?orb_true_r; reflexivity.
  - intros user host Hu Hun Hh Hhn cmd o Hrej. rewrite remoteCommand_run, Hu, Hh.
    cbn [nullish]. apply StrFacts.is_empty_false in Hun, Hhn. rewrite Hun, Hhn.
    cbn [orb]. cbv zeta. fold cmd o.
    destruct (proj2 (settle_rejects cmd o) Hrej) as [e ->]. reflexivity.
Qed.

Lemma source_absent_probe config s :
  source_absent config s ->
  exists e1 s1, existsSrcPath config s = (Ok false, e1, s1).
Proof.
  unfold source_absent, existsSrcPath, existsPath, probeOutcome.
  destruct (isRemoteSrc config).
  - intros H.
    rewrite (remoteExists_false (tpl (remoteUser config)) (tpl (remoteHost config))
               (src config) s H).
    eauto.
  - intros H. unfold existsSync. rewrite H. eauto.
Qed.

(** C8: when the source path does not exist, by the local check or by
    the remote probe, [backup] rejects with an error that names the
    source path, no event of the run starts the sync tool, and the process
    exits with status 1. *)
Theorem missing_source_aborts s config e0 s0 :
  getConfig s = (Ok config, e0, s0) ->
  source_absent config s0 ->
  let failure :=
    "Source directory " ++ Str.dq ++ src config ++ Str.dq ++ " does not exist." in
  exists e1 s1,
    backup config s0 = (Throw (MkError failure), e1, s1)
    /\ main s = (Exit 1,
                 (e0 ++ e1 ++ [EvConsole Error ("Backup failed: " ++ failure)])%list,
                 s1)
    /\ no_sync (e0 ++ e1 ++ [EvConsole Error ("Backup failed: " ++ failure)])%list
    /\ exit_status (main s).1.1 <> 0%Z.
Proof.
  intros E0 Habs failure.
  destruct (source_absent_probe config s0 Habs) as (e1 & s1 & E1).
  exists e1, s1.
  assert (backup config s0 = (Throw (MkError failure), e1, s1)) as Eb.
  { unfold backup, bind, get_state. rewrite E1. cbn [negb]. unfold throw.
    now rewrite app_nil_r. }
  pose proof (main_run _ _ _ _ _ _ _ E0 Eb) as Em. cbv beta iota in Em.
  split; [exact Eb|]. split; [exact Em|]. split.
  - rewrite !no_sync_app. split; [|split].
    + apply quiet_no_sync. exact (Quiet_getConfig _ _ _ _ E0).
    + exact (existsPath_no_sync _ _ _ _ _ _ _ E1).
    + reflexivity.
  - rewrite Em. discriminate.
Qed.

Lemma has_endpoint_true (config : ProgramOptions) :
  has_endpoint config = true ->
  (Str.is_empty (nullish (remoteHost config) "")
   || Str.is_empty (nullish (remoteUser config) ""))%bool = false.
Proof. unfold has_endpoint. now rewrite negb_true_iff. Qed.

Lemma remoteCommand_fails command (config : ProgramOptions) throwError s :
  has_endpoint config = true ->
  rejected (remoteOutcome config (world s) command) ->
  exists e e1 s1,
    remoteCommand command config throwError s
      = (if throwError then Throw e else Ok "", e1, s1)
    /\ no_sync e1.
Proof.
  intros Hend Hrej. apply has_endpoint_true in Hend.
  rewrite remoteCommand_run, Hend. cbv zeta.
  destruct (proj2 (settle_rejects
                     (sshCommand (nullish (remoteUser config) "")
                        (nullish (remoteHost config) "") command)
                     (remoteOutcome config (world s) command)) Hrej) as [e He].
  unfold remoteOutcome in He. rewrite He.
  exists e. do 2 eexists. split; [destruct throwError; reflexivity | apply no_sync_ssh].
Qed.

(** C6: over the remote transport, a failure of the probe resolves to
    false and a failure of the listing to no snapshot, neither rejects;
    a failure of [mkdir -p] for the destination makes [createDestDir]
    reject, and the run then fails before the sync tool is started and
    the process exits with status 1. *)
Theorem transport_failure_policy (config : ProgramConfig) s :
  has_endpoint config = true ->
  isRemoteDest config = true ->
  (rejected (probeOutcome config (world s) (dest config)) ->
   exists e1 s1, existsDestPath config s = (Ok false, e1, s1))
  /\ (rejected (remoteOutcome config (world s) (lsCommand config)) ->
      (exists e1 s1, remoteCommand (lsCommand config) config false s = (Ok "", e1, s1))
      /\ exists e1 s1, getLatestBackupDir config s = (Ok None, e1, s1))
  /\ (rejected (remoteOutcome config (world s) (mkdirCommand config)) ->
      (exists err e1 s1,
         remoteCommand (mkdirCommand config) config true s = (Throw err, e1, s1))
      /\ (exists err e1 s1, createDestDir config s = (Throw err, e1, s1))
      /\ forall s' e0 s0 e1 s1 e2,
           getConfig s' = (Ok config, e0, s0) ->
           existsSrcPath config s0 = (Ok true, e1, s1) ->
           existsDestPath config s1 = (Ok false, e2, s) ->
           exists evs s2,
             backup config s0 = (Throw (MkError (destUncreatable config)), evs, s2)
             /\ no_sync evs
             /\ (main s').1.1 = Exit 1).
Proof.
  intros Hend Hremote. split; [|split].
  - intros Hrej. unfold existsDestPath, existsPath. rewrite Hremote.
    rewrite (remoteExists_false (tpl (remoteUser config)) (tpl (remoteHost config))
               (dest config) s (or_introl Hrej)).
    eauto.
  - intros Hrej.
    destruct (remoteCommand_fails _ _ false _ Hend Hrej) as (e & e1 & s1 & E & _).
    split; [eauto|].
    unfold getLatestBackupDir. rewrite Hremote. unfold try_catch, bind. rewrite E.
    unfold ret. cbv beta iota zeta. eauto.
  - intros Hrej.
    destruct (remoteCommand_fails _ _ true _ Hend Hrej) as (err & e3 & s3 & E & Hn3).
    split; [eauto|].
    assert (createDestDir config s = (Throw err, e3, s3)) as E3.
    { unfold createDestDir. rewrite Hremote. unfold bind. now rewrite E. }
    split; [eauto|].
    intros s' e0 s0 e1 s1 e2 E0 E1 E2.
    assert (backup config s0
            = (Throw (MkError (destUncreatable config)), (e1 ++ e2 ++ e3)%list, s3))
      as Eb.
    { unfold backup, bind, get_state. rewrite E1. cbn [negb]. rewrite E2.
      cbn [negb]. unfold try_catch. rewrite E3. unfold throw.
      cbv beta iota zeta. now rewrite !app_nil_r. }
    do 2 eexists. split; [exact Eb|]. split.
    + rewrite !no_sync_app. split; [|split]; [| |exact Hn3].
      * exact (existsPath_no_sync _ _ _ _ _ _ _ E1).
      * exact (existsPath_no_sync _ _ _ _ _ _ _ E2).
    + rewrite (main_run _ _ _ _ _ _ _ E0 Eb). reflexivity.
Qed.

End Claims.

(** ** The composed sync command *)

Section Compose.

Context {World : Type} `{RT : Runtime World}.
Implicit Types (s : @State World).

Lemma rsyncCommand_parts w (config : ProgramConfig) latest cur :
  rsyncCommand w config latest cur =
    syncHead config
    ++ match found latest with
       | None => ""
       | Some l => " " ++ baselineArg l ++ " "
       end
    ++ syncTail w config cur.
Proof.
  unfold rsyncCommand, syncHead, syncTail, baselineArg.
  destruct (given (excludeFrom config)), (found latest);
    rewrite ?StrFacts.append_assoc; reflexivity.
Qed.




Lemma occ_app_end p a c b :
  Str.mem c p = false -> p <> "" ->
  Str.occ p ((a ++ String c "") ++ b) = Str.occ p (a ++ String c "") + Str.occ p b.
Proof.
  intros Hc Hp. rewrite StrFacts.append_assoc.
  change (String c "" ++ b) with (String c b).
  rewrite !StrFacts.occ_sep by assumption. simpl. lia.
Qed.

Lemma syncHead_ends (config : ProgramConfig) : exists h, syncHead config = h ++ String " " "".
Proof.
  unfold syncHead. destruct (given (excludeFrom config)).
  - exists ("rsync -" ++ nullish (rsyncOptions config) "az" ++ " --delete "
            ++ " --exclude-from=" ++ Str.dq ++ tpl (excludeFrom config) ++ Str.dq).
    rewrite !StrFacts.append_assoc. reflexivity.
  - exists ("rsync -" ++ nullish (rsyncOptions config) "az" ++ " --delete").
    rewrite !StrFacts.append_assoc. reflexivity.
Qed.



Lemma trimmed_or_null_found result d :
  Str.trim result = result -> trimmed_or_null result = Some d ->
  d <> "" /\ Str.trim d = d.
Proof.
  unfold trimmed_or_null. intros Ht.
  destruct (Str.is_empty result) eqn:He; cbn; [discriminate|].
  intros [= <-]. rewrite Ht. split; [|exact Ht].
  now apply StrFacts.is_empty_false.
Qed.

Lemma found_trimmed (latest : option string) :
  (forall d, latest = Some d -> d <> "" /\ Str.trim d = d) ->
  found latest = latest /\ forall d, latest = Some d -> Str.trim d = d.
Proof.
  destruct latest as [d|]; intros H; [|split; [reflexivity | discriminate]].
  destruct (H d eq_refl) as [Hne Ht]. split.
  - unfold found. destruct d; [contradiction | reflexivity].
  - intros d' [= <-]. exact Ht.
Qed.

(** The listing gives no snapshot or a name that is not empty. *)
Lemma getLatestBackupDir_found config s latest e s1 :
  getLatestBackupDir config s = (Ok latest, e, s1) -> found latest = latest.
Proof.
  assert (forall out, found (trimmed_or_null (Str.trim out))
                      = trimmed_or_null (Str.trim out)) as K.
  { intros out. apply found_trimmed. intros d.
    apply trimmed_or_null_found, StrFacts.trim_idem. }
  unfold getLatestBackupDir. destruct (isRemoteDest config).
  - unfold try_catch, bind. rewrite remoteCommand_run.
    destruct (Str.is_empty _ || Str.is_empty _)%bool.
    + intros [= <- _ _]. reflexivity.
    + cbv zeta.
      destruct (settle_cases
                  (sshCommand (nullish (remoteUser config) "")
                     (nullish (remoteHost config) "") (lsCommand config))
                  (spawn (world s)
                     (sshCommand (nullish (remoteUser config) "")
                        (nullish (remoteHost config) "") (lsCommand config))).1)
        as [[_ [e' ->]] | (_ & _ & ->)]; unfold ret; cbv beta iota zeta;
        intros [= <- _ _]; [reflexivity | apply K].
  - unfold bind, existsSync.
    destruct (fs_existsSync (world s) (dest config)); cbn [negb].
    + unfold try_catch, bind. rewrite executeCommand_run.
      destruct (settle_cases (lsCommand config) (spawn (world s) (lsCommand config)).1)
        as [[_ [e' ->]] | (_ & _ & ->)]; unfold ret; cbv beta iota zeta;
        intros [= <- _ _]; [reflexivity | apply K].
    + intros [= <- _ _]. reflexivity.
Qed.

(** A run that finds its source and has its destination, or makes it,
    goes on to the listing, the two log lines and the sync command
    composed from the result of the listing. *)
Lemma backup_sync_run config s e1 s1 e2 s2 latest e3 s3 :
  existsSrcPath config s = (Ok true, e1, s1) ->
  DestStep config s1 e2 s2 ->
  getLatestBackupDir config s2 = (Ok latest, e3, s3) ->
  let cur := currentBackupDirname config (world s) in
  let cmd := rsyncCommand (world s3) config latest cur in
  let o := (spawn (world s3) cmd).1 in
  backup config s =
    (match settle cmd o with
     | Ok _ => Ok tt
     | Throw e => Throw e
     | Exit c => Exit c
     end,
     (e1 ++ e2 ++ e3
      ++ log_events (logger config) Log (modeMessage (world s3) config latest cur) (world s3)
      ++ log_events (logger config) Log ("Executing command:" ++ cmd) (world s3)
      ++ [EvSpawn cmd o])%list,
     set_world s3 (spawn (world s3) cmd).2).
Proof.
  intros E1 D E3 cur cmd o. unfold backup, bind, get_state. rewrite E1. cbn [negb].
  destruct D as [ea sa E2 | ea sa eb sb E2 E2'].
  - rewrite E2. cbn [negb]. unfold ret at 1. rewrite E3.
    rewrite !log_run, executeCommand_run. fold cur. fold cmd. fold o.
    destruct (settle cmd o); unfold ret; cbv beta iota zeta; cbn [app];
      rewrite ?app_nil_r, <- ?app_assoc; reflexivity.
  - rewrite E2. cbn [negb]. unfold try_catch. rewrite E2'. rewrite E3.
    rewrite !log_run, executeCommand_run. fold cur. fold cmd. fold o.
    destruct (settle cmd o); unfold ret; cbv beta iota zeta; cbn [app];
      rewrite ?app_nil_r, <- ?app_assoc; reflexivity.
Qed.


End Compose.

(** ** Validation and the derived flags *)

Section ConfigClaims.

Context {World : Type} `{RT : Runtime World}.
Implicit Types (s : @State World).

Lemma is_undefined_false v : is_undefined v = false <-> present v.
Proof. unfold present. destruct v; simpl; split; congruence. Qed.

Lemma is_string_true v : is_string v = true <-> exists x, v = JStr x.
Proof.
  destruct v; simpl; split; try congruence; try (intros [x Hx]; congruence).
  eauto.
Qed.

Lemma strict_eq_str_true v lit : strict_eq_str v lit = true <-> v = JStr lit.
Proof.
  destruct v; simpl; split; try congruence.
  - intros H. apply String.eqb_eq in H. now subst.
  - intros [= ->]. apply String.eqb_refl.
Qed.

Lemma isProgramOptions_object v :
  isProgramOptions v = true -> exists obj, v = JObj obj.
Proof. destruct v; simpl; try discriminate. eauto. Qed.

Lemma role_field_src obj : prop obj "remoteRole" = JStr "src" -> role_field obj = Some RoleSrc.
Proof. unfold role_field. now intros ->. Qed.

Lemma role_field_dest obj : prop obj "remoteRole" = JStr "dest" -> role_field obj = Some RoleDest.
Proof. unfold role_field. now intros ->. Qed.

Lemma role_field_absent obj : prop obj "remoteRole" = JUndefined -> role_field obj = None.
Proof. unfold role_field. now intros ->. Qed.

(** C4: an object in which one of [remoteRole], [remoteUser],
    [remoteHost] is present is accepted only when the role is [src] or
    [dest] and the user and the host are strings; on an accepted object
    the role [src] gives [isRemoteSrc] alone, the role [dest] gives
    [isRemoteDest] alone, and without any remote property both flags are
    false. *)
Theorem remote_triple (obj : gmap string JsVal) s :
  isProgramOptions (JObj obj) = true ->
  ((present (prop obj "remoteRole") \/ present (prop obj "remoteUser")
    \/ present (prop obj "remoteHost")) ->
   (prop obj "remoteRole" = JStr "src" \/ prop obj "remoteRole" = JStr "dest")
   /\ (exists user, prop obj "remoteUser" = JStr user)
   /\ (exists host, prop obj "remoteHost" = JStr host))
  /\ exists config evs s1,
       optionsToConfig (asProgramOptions obj) s = (Ok config, evs, s1)
       /\ (prop obj "remoteRole" = JStr "src" ->
           isRemoteSrc config = true /\ isRemoteDest config = false)
       /\ (prop obj "remoteRole" = JStr "dest" ->
           isRemoteSrc config = false /\ isRemoteDest config = true)
       /\ (prop obj "remoteRole" = JUndefined -> prop obj "remoteUser" = JUndefined ->
           prop obj "remoteHost" = JUndefined ->
           isRemoteSrc config = false /\ isRemoteDest config = false).
Proof.
  intros Hok. split.
  - intros Hany. unfold isProgramOptions in Hok.
    destruct (is_string (prop obj "src") && is_string (prop obj "dest"))%bool;
      [|discriminate]. cbn [negb] in Hok.
    destruct (negb (is_undefined (prop obj "remoteRole"))
              || negb (is_undefined (prop obj "remoteUser"))
              || negb (is_undefined (prop obj "remoteHost")))%bool eqn:Hp.
    + cbv zeta in Hok. apply andb_true_iff in Hok as [Hok Hh].
      apply andb_true_iff in Hok as [Hr Hu].
      apply orb_true_iff in Hr. rewrite !strict_eq_str_true in Hr.
      apply is_string_true in Hu, Hh. auto.
    + exfalso. rewrite !orb_false_iff, !negb_false_iff in Hp.
      destruct Hp as [[H1 H2] H3]. unfold present in Hany.
      destruct (prop obj "remoteRole"), (prop obj "remoteUser"),
        (prop obj "remoteHost"); simpl in *; try discriminate.
      destruct Hany as [H|[H|H]]; congruence.
  - destruct (getLogger_run (asProgramOptions obj) s) as (l & e0 & s0 & E & _).
    rewrite (optionsToConfig_run _ _ _ _ _ E). cbv zeta.
    do 3 eexists. split; [reflexivity|]. cbn [isRemoteSrc isRemoteDest].
    unfold remoteFlags. cbn [asProgramOptions remoteRole].
    split; [|split].
    + intros H. now rewrite (role_field_src _ H).
    + intros H. now rewrite (role_field_dest _ H).
    + intros H _ _. now rewrite (role_field_absent _ H).
Qed.

(** C9: an exclude file that is given and that does not exist at its
    resolved path does not make configuration loading fail: the
    configuration has no [excludeFrom], and a warning that names the
    resolved path is written. *)
Theorem missing_exclude_file (config : ProgramOptions) s path :
  excludeFrom config = Some path -> path <> "" ->
  let s0 := (getLogger config s).2 in
  let file := resolved (world s0) path in
  fs_existsSync (world s0) file = false ->
  exists (result : ProgramConfig) evs,
    optionsToConfig config s = (Ok result, evs, s0)
    /\ excludeFrom result = None
    /\ In (EvConsole Warn
             ("[" ++ JsDate.toISOString (date_now (world s0))
              ++ "] Exclude file not found: " ++ file)) evs.
Proof.
  intros Hex Hne s0 file Hmiss.
  destruct (getLogger_run config s) as (l & e0 & s0' & E & _).
  assert (s0 = s0') as <- by (subst s0; now rewrite E).
  rewrite (optionsToConfig_run _ _ _ _ _ E). cbv zeta.
  assert (given (excludeFrom config) = true) as ->.
  { rewrite Hex. simpl. apply negb_true_iff, StrFacts.is_empty_false, Hne. }
  rewrite Hex. cbn [nullish]. fold file. rewrite Hmiss.
  do 2 eexists. split; [reflexivity|]. split; [reflexivity|].
  apply in_or_app. right. unfold log_events. left. reflexivity.
Qed.

End ConfigClaims.

(** ** Dates and snapshot names *)

Module DateFacts.
Import JsDate.
Local Open Scope Z_scope.

Ltac divs := unfold DayFromYear in *; Z.div_mod_to_equations.

Lemma DayFromYear_mono y1 y2 : y1 <= y2 -> DayFromYear y1 <= DayFromYear y2.
Proof. intros H. divs. lia. Qed.

Lemma DayFromYear_next y : DayFromYear y + 365 <= DayFromYear (y + 1) <= DayFromYear y + 366.
Proof. divs. lia. Qed.

Lemma YearFromDay_spec d :
  DayFromYear (YearFromDay d) <= d < DayFromYear (YearFromDay d + 1).
Proof.
  unfold YearFromDay.
  set (y := 1970 + d * 400 / 146097).
  assert (DayFromYear (y - 1) <= d < DayFromYear (y + 2)) as Hy.
  { subst y. divs. lia. }
  destruct (d <? DayFromYear y) eqn:H1; [apply Z.ltb_lt in H1 | apply Z.ltb_ge in H1].
  - replace (y - 1 + 1) with y by lia. lia.
  - destruct (DayFromYear (y + 1) <=? d) eqn:H2;
      [apply Z.leb_le in H2 | apply Z.leb_gt in H2].
    + replace (y + 1 + 1) with (y + 2) by lia. lia.
    + lia.
Qed.

Lemma YearFromDay_mono d1 d2 : d1 <= d2 -> YearFromDay d1 <= YearFromDay d2.
Proof.
  intros H. pose proof (YearFromDay_spec d1) as [H1 _].
  pose proof (YearFromDay_spec d2) as [_ H2].
  destruct (Z_le_gt_dec (YearFromDay d1) (YearFromDay d2)) as [|Hgt]; [assumption|].
  pose proof (DayFromYear_mono (YearFromDay d2 + 1) (YearFromDay d1)). lia.
Qed.


Lemma DayFromYear_leap y :
  DayFromYear (y + 1) = DayFromYear y + 365 + (if isLeap y then 1 else 0).
Proof.
  unfold isLeap.
  destruct (Z.eqb_spec (y mod 4) 0), (Z.eqb_spec (y mod 100) 0),
    (Z.eqb_spec (y mod 400) 0); cbn [negb andb orb]; divs; lia.
Qed.

(** The day within the year is a day of that year. *)
Lemma DayWithinYear_range t :
  0 <= DayWithinYear t < 365 + InLeapYear t.
Proof.
  unfold DayWithinYear, InLeapYear, YearFromTime.
  pose proof (YearFromDay_spec (Day t)).
  pose proof (DayFromYear_leap (YearFromDay (Day t))).
  destruct (isLeap (YearFromDay (Day t))); lia.
Qed.

Ltac month_cases :=
  unfold MonthDate;
  repeat match goal with
         | |- context [?a <? ?b] => destruct (Z.ltb_spec a b)
         end;
  cbn [fst snd]; lia.

Lemma MonthDate_range n leap :
  0 <= leap <= 1 -> 0 <= n < 365 + leap ->
  1 <= fst (MonthDate n leap) <= 12 /\ 1 <= snd (MonthDate n leap) <= 31.
Proof. intros Hl Hn. month_cases. Qed.

Lemma MonthDate_lt n1 n2 leap :
  0 <= leap <= 1 -> 0 <= n1 -> n1 < n2 -> n2 < 365 + leap ->
  fst (MonthDate n1 leap) < fst (MonthDate n2 leap)
  \/ (fst (MonthDate n1 leap) = fst (MonthDate n2 leap)
      /\ snd (MonthDate n1 leap) < snd (MonthDate n2 leap)).
Proof. intros Hl H0 H12 Hn. month_cases. Qed.

Lemma clock_range t :
  0 <= HourFromTime t < 24 /\ 0 <= MinFromTime t < 60 /\ 0 <= SecFromTime t < 60.
Proof. unfold HourFromTime, MinFromTime, SecFromTime. Z.div_mod_to_equations. lia. Qed.

Lemma clock_lt t1 t2 :
  Day t1 = Day t2 -> t1 + 1000 <= t2 ->
  HourFromTime t1 < HourFromTime t2
  \/ (HourFromTime t1 = HourFromTime t2
      /\ (MinFromTime t1 < MinFromTime t2
          \/ (MinFromTime t1 = MinFromTime t2 /\ SecFromTime t1 < SecFromTime t2))).
Proof.
  unfold Day, msPerDay, HourFromTime, MinFromTime, SecFromTime.
  intros Hd Ht. Z.div_mod_to_equations. lia.
Qed.


(** The calendar fields of a later second come later, field by field. *)
Lemma fields_lt t1 t2 :
  t1 + 1000 <= t2 ->
  YearFromTime t1 < YearFromTime t2
  \/ (YearFromTime t1 = YearFromTime t2
      /\ (MonthFromTime t1 < MonthFromTime t2
          \/ (MonthFromTime t1 = MonthFromTime t2
              /\ (DateFromTime t1 < DateFromTime t2
                  \/ (DateFromTime t1 = DateFromTime t2
                      /\ (HourFromTime t1 < HourFromTime t2
                          \/ (HourFromTime t1 = HourFromTime t2
                              /\ (MinFromTime t1 < MinFromTime t2
                                  \/ (MinFromTime t1 = MinFromTime t2
                                      /\ SecFromTime t1 < SecFromTime t2))))))))).
Proof.
  intros Ht.
  assert (Day t1 <= Day t2) as Hd.
  { unfold Day, msPerDay. Z.div_mod_to_equations. lia. }
  destruct (Z.eq_dec (Day t1) (Day t2)) as [Heq | Hne].
  - right. unfold YearFromTime, MonthFromTime, DateFromTime, DayWithinYear,
      InLeapYear, YearFromTime. rewrite Heq.
    split; [reflexivity|]. right. split; [reflexivity|]. right. split; [reflexivity|].
    apply clock_lt; assumption.
  - pose proof (YearFromDay_mono _ _ Hd) as Hy.
    destruct (Z.eq_dec (YearFromTime t1) (YearFromTime t2)) as [Hyeq | Hyne];
      [right; split; [assumption|] | left; unfold YearFromTime in *; lia].
    pose proof (DayWithinYear_range t1) as R1.
    pose proof (DayWithinYear_range t2) as R2.
    assert (InLeapYear t1 = InLeapYear t2) as Hl by (unfold InLeapYear; now rewrite Hyeq).
    assert (DayWithinYear t1 < DayWithinYear t2) as Hn
      by (unfold DayWithinYear; rewrite Hyeq; lia).
    assert (0 <= InLeapYear t2 <= 1) as Hb
      by (unfold InLeapYear; destruct (isLeap _); lia).
    unfold MonthFromTime, DateFromTime. rewrite Hl in *.
    destruct (MonthDate_lt (DayWithinYear t1) (DayWithinYear t2) (InLeapYear t2))
      as [Hm | [Hm Hdt]]; lia.
Qed.

Lemma fields_range t :
  1 <= MonthFromTime t <= 12 /\ 1 <= DateFromTime t <= 31.
Proof.
  unfold MonthFromTime, DateFromTime. apply MonthDate_range.
  - unfold InLeapYear. destruct (isLeap _); lia.
  - apply DayWithinYear_range.
Qed.

Lemma year_range t :
  firstTime <= t <= lastTime -> 0 <= YearFromTime t <= 9999.
Proof.
  unfold firstTime, lastTime, YearFromTime. intros Ht.
  pose proof (YearFromDay_spec (Day t)) as [Hlo Hhi].
  assert (DayFromYear 0 <= Day t < DayFromYear 10000) as Hd.
  { unfold Day, msPerDay. change (DayFromYear 0) with (-719528).
    change (DayFromYear 10000) with 2932897. Z.div_mod_to_equations. lia. }
  split.
  - destruct (Z_le_gt_dec 0 (YearFromDay (Day t))) as [|Hneg]; [assumption|].
    pose proof (DayFromYear_mono (YearFromDay (Day t) + 1) 0). lia.
  - destruct (Z_le_gt_dec (YearFromDay (Day t)) 9999) as [|Hbig]; [assumption|].
    pose proof (DayFromYear_mono 10000 (YearFromDay (Day t))). lia.
Qed.

End DateFacts.

Module PadFacts.
Import JsDate.

Lemma digit_cases n :
  exists d, (0 <= d <= 9)%Z /\ (n mod 10 = d)%Z /\ digit n = ascii_of_nat (48 + Z.to_nat d).
Proof.
  exists (n mod 10)%Z. split; [|split; reflexivity].
  pose proof (Z.mod_pos_bound n 10). lia.
Qed.

Ltac digit_enum d H :=
  assert (d = 0 \/ d = 1 \/ d = 2 \/ d = 3 \/ d = 4 \/ d = 5 \/ d = 6 \/ d = 7
          \/ d = 8 \/ d = 9)%Z as H by lia;
  repeat destruct H as [H | H]; subst d.

Lemma digit_compare x y :
  Ascii.compare (digit x) (digit y) = (x mod 10 ?= y mod 10)%Z.
Proof.
  destruct (digit_cases x) as (a & Ha & -> & ->).
  destruct (digit_cases y) as (b & Hb & -> & ->).
  digit_enum a Ea; digit_enum b Eb; reflexivity.
Qed.

Lemma digit_not c n :
  (nat_of_ascii c < 48 \/ 57 < nat_of_ascii c)%nat -> Ascii.eqb c (digit n) = false.
Proof.
  intros Hc. destruct (digit_cases n) as (a & Ha & _ & ->).
  apply Ascii.eqb_neq. intros ->.
  digit_enum a Ea; vm_compute in Hc; lia.
Qed.

Lemma compare_cons c r1 r2 :
  String.compare (String c r1) (String c r2) = String.compare r1 r2.
Proof.
  simpl. unfold Ascii.compare. now rewrite N.compare_refl.
Qed.

Lemma compare_app p r1 r2 :
  String.compare (p ++ r1) (p ++ r2) = String.compare r1 r2.
Proof.
  induction p as [|c p IH]; [reflexivity|].
  change (String.compare (String c (p ++ r1)) (String c (p ++ r2)) = String.compare r1 r2).
  now rewrite compare_cons.
Qed.

Lemma compare_split P qa qb ra rb :
  (0 <= ra < P)%Z -> (0 <= rb < P)%Z ->
  (ra + P * qa ?= rb + P * qb)%Z =
    match (qa ?= qb)%Z with
    | Eq => (ra ?= rb)%Z
    | c => c
    end.
Proof.
  intros Ha Hb. destruct (Z.compare_spec qa qb) as [-> | Hq | Hq].
  - destruct (Z.compare_spec ra rb) as [-> | Hr | Hr].
    + apply Z.compare_refl.
    + apply Z.compare_lt_iff. lia.
    + apply Z.compare_gt_iff. lia.
  - apply Z.compare_lt_iff. nia.
  - apply Z.compare_gt_iff. nia.
Qed.

(** Numbers written with the same number of digits compare as strings the
    way they compare as numbers. *)
Lemma pad_compare k : forall a b r1 r2,
  String.compare (pad k a ++ r1) (pad k b ++ r2) =
    match (a mod 10 ^ Z.of_nat k ?= b mod 10 ^ Z.of_nat k)%Z with
    | Eq => String.compare r1 r2
    | c => c
    end.
Proof.
  induction k as [|k IH]; intros a b r1 r2.
  - change (10 ^ Z.of_nat 0)%Z with 1%Z. rewrite !Z.mod_1_r. reflexivity.
  - change (pad (S k) a ++ r1) with (String (digit (a / 10 ^ Z.of_nat k)) (pad k a ++ r1)).
    change (pad (S k) b ++ r2) with (String (digit (b / 10 ^ Z.of_nat k)) (pad k b ++ r2)).
    cbn [String.compare]. rewrite digit_compare, IH.
    replace (10 ^ Z.of_nat (S k))%Z with (10 ^ Z.of_nat k * 10)%Z
      by (rewrite Nat2Z.inj_succ, Z.pow_succ_r; lia).
    assert (0 < 10 ^ Z.of_nat k)%Z as Hp by (apply Z.pow_pos_nonneg; lia).
    rewrite !(Z.rem_mul_r _ (10 ^ Z.of_nat k) 10) by lia.
    rewrite compare_split by (apply Z.mod_pos_bound; exact Hp).
    destruct ((a / 10 ^ Z.of_nat k) mod 10 ?= (b / 10 ^ Z.of_nat k) mod 10)%Z;
      reflexivity.
Qed.

(** The same for numbers that fit the width. *)
Lemma pad_compare_small k a b r1 r2 :
  (0 <= a < 10 ^ Z.of_nat k)%Z -> (0 <= b < 10 ^ Z.of_nat k)%Z ->
  String.compare (pad k a ++ r1) (pad k b ++ r2) =
    match (a ?= b)%Z with
    | Eq => String.compare r1 r2
    | c => c
    end.
Proof. intros Ha Hb. now rewrite pad_compare, !Z.mod_small. Qed.

Lemma remove_char_pad c k n r :
  (nat_of_ascii c < 48 \/ 57 < nat_of_ascii c)%nat ->
  Str.remove_char c (pad k n ++ r) = pad k n ++ Str.remove_char c r.
Proof.
  intros Hc. induction k as [|k IH]; [reflexivity|].
  change (pad (S k) n ++ r) with (String (digit (n / 10 ^ Z.of_nat k)) (pad k n ++ r)).
  cbn [Str.remove_char]. rewrite (digit_not c _ Hc), IH. reflexivity.
Qed.

Lemma before_char_pad c k n r :
  (nat_of_ascii c < 48 \/ 57 < nat_of_ascii c)%nat ->
  Str.before_char c (pad k n ++ r) = pad k n ++ Str.before_char c r.
Proof.
  intros Hc. induction k as [|k IH]; [reflexivity|].
  change (pad (S k) n ++ r) with (String (digit (n / 10 ^ Z.of_nat k)) (pad k n ++ r)).
  cbn [Str.before_char]. rewrite (digit_not c _ Hc), IH. reflexivity.
Qed.

End PadFacts.

Module NameFacts.
Import JsDate DateFacts PadFacts.

Lemma remove_char_other c d r :
  Ascii.eqb c d = false -> Str.remove_char c (String d r) = String d (Str.remove_char c r).
Proof. intros H. cbn [Str.remove_char]. now rewrite H. Qed.

Lemma remove_char_same c r : Str.remove_char c (String c r) = Str.remove_char c r.
Proof. cbn [Str.remove_char]. now rewrite Ascii.eqb_refl. Qed.

Lemma before_char_other c d r :
  Ascii.eqb c d = false -> Str.before_char c (String d r) = String d (Str.before_char c r).
Proof. intros H. cbn [Str.before_char]. now rewrite H. Qed.

Lemma before_char_same c r : Str.before_char c (String c r) = "".
Proof. cbn [Str.before_char]. now rewrite Ascii.eqb_refl. Qed.

(** The timestamp of a snapshot made in the years 0 to 9999. *)
Lemma backupSuffix_fields t :
  (0 <= YearFromTime t <= 9999)%Z ->
  backupSuffix t =
    pad 4 (YearFromTime t) ++ String "-" (pad 2 (MonthFromTime t) ++ String "-"
      (pad 2 (DateFromTime t) ++ String "T" (pad 2 (HourFromTime t)
         ++ pad 2 (MinFromTime t) ++ pad 2 (SecFromTime t) ++ ""))).
Proof.
  intros Hy. unfold backupSuffix, toISOString, yearString.
  assert (((0 <=? YearFromTime t)%Z && (YearFromTime t <=? 9999)%Z)%bool = true) as ->
    by (apply andb_true_iff; split; apply Z.leb_le; lia).
  change (Str.before_char "."
            (Str.remove_char ":"
               (pad 4 (YearFromTime t) ++ String "-" (pad 2 (MonthFromTime t) ++ String "-"
                  (pad 2 (DateFromTime t) ++ String "T" (pad 2 (HourFromTime t) ++ String ":"
                     (pad 2 (MinFromTime t) ++ String ":" (pad 2 (SecFromTime t) ++ String "."
                        (pad 3 (msFromTime t) ++ String "Z" ""))))))))
          = pad 4 (YearFromTime t) ++ String "-" (pad 2 (MonthFromTime t) ++ String "-"
              (pad 2 (DateFromTime t) ++ String "T" (pad 2 (HourFromTime t)
                 ++ pad 2 (MinFromTime t) ++ pad 2 (SecFromTime t) ++ "")))).
  repeat first [ rewrite remove_char_pad by (vm_compute; lia)
               | rewrite remove_char_same
               | rewrite remove_char_other by reflexivity ].
  repeat first [ rewrite before_char_pad by (vm_compute; lia)
               | rewrite before_char_same
               | rewrite before_char_other by reflexivity ].
  reflexivity.
Qed.

Ltac field_step H :=
  rewrite pad_compare_small by (cbn; lia);
  destruct H as [H | [-> H]];
  [ apply Z.compare_lt_iff in H; rewrite H; reflexivity
  | rewrite Z.compare_refl, ?compare_cons ].

(** C3, as amended: two snapshot names with the same prefix, made at least
    one second apart in the years 0 to 9999, compare as strings the way
    their times compare. *)
Theorem names_sort_chronologically backupPrefix t1 t2 :
  (firstTime <= t1)%Z -> (t2 <= lastTime)%Z -> (t1 + 1000 <= t2)%Z ->
  String.ltb (backupDirName backupPrefix t1) (backupDirName backupPrefix t2) = true.
Proof.
  intros Hlo Hhi Ht.
  pose proof (year_range t1 ltac:(unfold firstTime, lastTime in *; lia)) as Hy1.
  pose proof (year_range t2 ltac:(unfold firstTime, lastTime in *; lia)) as Hy2.
  pose proof (fields_range t1) as [Hm1 Hd1]. pose proof (fields_range t2) as [Hm2 Hd2].
  pose proof (clock_range t1) as (Hh1 & Hi1 & Hs1).
  pose proof (clock_range t2) as (Hh2 & Hi2 & Hs2).
  pose proof (fields_lt t1 t2 Ht) as H.
  unfold String.ltb, backupDirName. rewrite compare_app.
  rewrite (backupSuffix_fields t1 Hy1), (backupSuffix_fields t2 Hy2).
  field_step H. field_step H. field_step H. field_step H. field_step H.
  rewrite pad_compare_small by (cbn; lia).
  apply Z.compare_lt_iff in H. now rewrite H.
Qed.

End NameFacts.

(** * Further properties of the code *)

(** ** Quoting and running commands *)

Lemma sh_word_quoted_body s :
  sh_word (Str.replace_char "'"%char "'\''" s ++ "'") true = Some s.
Proof.
  induction s as [|c r IH]; [reflexivity|].
  cbn [Str.replace_char]. destruct (Ascii.eqb "'" c) eqn:Hc.
  - apply Ascii.eqb_eq in Hc. subst c.
    rewrite StrFacts.append_assoc.
    change ("'\''" ++ Str.replace_char "'" "'\''" r ++ "'")
      with (String "'" (String "\" (String "'" (String "'"
              (Str.replace_char "'" "'\''" r ++ "'"))))).
    cbn [sh_word Ascii.eqb Bool.eqb]. cbn. rewrite IH. reflexivity.
  - change (String c (Str.replace_char "'" "'\''" r) ++ "'")
      with (String c (Str.replace_char "'" "'\''" r ++ "'")).
    cbn [sh_word]. rewrite Ascii.eqb_sym in Hc. rewrite Hc, IH. reflexivity.
Qed.

(** X1: a shell reads the text that [escapeShellArg] makes of an argument
    back as one word, which is the argument, whatever characters it holds;
    so the command that [remoteCommand] composes is the fixed ssh prefix
    followed by two words, the destination [user@host] and the command. *)
Theorem escapeShellArg_roundtrip arg :
  sh_word (escapeShellArg arg) false = Some arg
  /\ forall remoteUser remoteHost command,
       exists destination quoted,
         sshCommand remoteUser remoteHost command
           = "ssh -o BatchMode=yes -o ConnectTimeout=5 " ++ destination ++ " " ++ quoted
         /\ sh_word destination false = Some (remoteUser ++ "@" ++ remoteHost)
         /\ sh_word quoted false = Some command.
Proof.
  assert (forall a, sh_word (escapeShellArg a) false = Some a) as H.
  { intros a. unfold escapeShellArg.
    change ("'" ++ Str.replace_char "'" "'\''" a ++ "'")
      with (String "'" (Str.replace_char "'" "'\''" a ++ "'")).
    cbn [sh_word]. change (Ascii.eqb "'" "'") with true. cbv iota.
    apply sh_word_quoted_body. }
  split; [apply H|].
  intros u h c. exists (escapeShellArg (u ++ "@" ++ h)), (escapeShellArg c).
  split; [reflexivity|]. split; apply H.
Qed.

Section ExecFacts.

Context {World : Type} `{RT : Runtime World}.
Implicit Types (s : @State World).

(** X3: with both ends of the transport configured and [throwError] left
    at false, [remoteCommand] always resolves: with the empty string when
    the remote command fails, with its trimmed output otherwise; and when
    the command succeeds [throwError] makes no difference. *)
Theorem remoteCommand_resolves command (config : ProgramOptions) s :
  has_endpoint config = true ->
  let o := remoteOutcome config (world s) command in
  exists v e s1,
    remoteCommand command config false s = (Ok v, e, s1)
    /\ (rejected o -> v = "")
    /\ (~ rejected o -> v = Str.trim (captured_stdout o))
    /\ (~ rejected o ->
        forall throwError,
          remoteCommand command config throwError s = (Ok v, e, s1)).
Proof.
  unfold has_endpoint, remoteOutcome. intros He. apply negb_true_iff in He.
  cbv zeta. rewrite remoteCommand_run, He. cbv zeta.
  set (cmd := sshCommand _ _ _).
  destruct (settle_cases cmd (spawn (world s) cmd).1) as [[Hr [err E]] | (Hc & Hs & E)].
  - rewrite E. do 3 eexists. split; [reflexivity|].
    split; [reflexivity|]. split; intros Hn; destruct (Hn Hr).
  - pose proof (not_rejected _ Hc Hs) as Hn. rewrite E.
    do 3 eexists. split; [reflexivity|].
    split; [intros Hr; destruct (Hn Hr)|]. split; [reflexivity|].
    intros _ te. rewrite remoteCommand_run, He. cbv zeta. fold cmd. now rewrite E.
Qed.

End ExecFacts.

(** ** Validation *)

Lemma prop_insert_ne (obj : gmap string JsVal) k v k' :
  k <> k' -> prop (<[k := v]> obj) k' = prop obj k'.
Proof. intros H. unfold prop. now rewrite lookup_insert_ne. Qed.

Lemma is_string_iff v : is_string v = true <-> exists a, v = JStr a.
Proof. destruct v; simpl; split; try discriminate; eauto; intros [a [=]]. Qed.

Lemma is_undefined_iff v : is_undefined v = true <-> v = JUndefined.
Proof. destruct v; simpl; split; congruence. Qed.

Lemma strict_eq_str_iff v lit : strict_eq_str v lit = true <-> v = JStr lit.
Proof.
  destruct v; simpl; split; try discriminate.
  - intros H. apply String.eqb_eq in H. now subst.
  - intros [= ->]. apply String.eqb_refl.
Qed.

(** X4: [isProgramOptions] accepts exactly the objects whose [src] and
    [dest] are strings and whose remote fields are either all missing or
    all well formed: a role that is [src] or [dest], and a user and a host
    that are strings.  Nothing that is not an object is accepted. *)
Theorem isProgramOptions_iff v :
  isProgramOptions v = true <->
  exists obj,
    v = JObj obj
    /\ (exists a, prop obj "src" = JStr a)
    /\ (exists b, prop obj "dest" = JStr b)
    /\ ((prop obj "remoteRole" = JUndefined /\ prop obj "remoteUser" = JUndefined
         /\ prop obj "remoteHost" = JUndefined)
        \/ ((prop obj "remoteRole" = JStr "src" \/ prop obj "remoteRole" = JStr "dest")
            /\ (exists u, prop obj "remoteUser" = JStr u)
            /\ (exists h, prop obj "remoteHost" = JStr h))).
Proof.
  destruct v as [| |b|n|a|items|obj];
    try (split; [discriminate | intros (obj' & [=] & _)]).
  unfold isProgramOptions. split.
  - intros H. exists obj. split; [reflexivity|].
    rewrite <- !is_string_iff, <- !is_undefined_iff, <- !strict_eq_str_iff.
    destruct (is_string (prop obj "src")), (is_string (prop obj "dest"));
      try discriminate. split; [reflexivity|]. split; [reflexivity|].
    destruct (is_undefined (prop obj "remoteRole")),
      (is_undefined (prop obj "remoteUser")),
      (is_undefined (prop obj "remoteHost")); cbn in H |- *; auto; right;
      destruct (strict_eq_str (prop obj "remoteRole") "src"),
        (strict_eq_str (prop obj "remoteRole") "dest"),
        (is_string (prop obj "remoteUser")), (is_string (prop obj "remoteHost"));
      cbn in H; try discriminate; auto.
  - intros (obj' & [= <-] & Ha & Hb & H).
    rewrite <- !is_string_iff, <- !is_undefined_iff, <- !strict_eq_str_iff in *.
    rewrite Ha, Hb. cbn [andb negb].
    destruct H as [(-> & -> & ->) | (Hr & -> & ->)]; [reflexivity|].
    rewrite !andb_true_r.
    destruct Hr as [-> | ->]; rewrite ?orb_true_r; cbn;
      destruct (_ || _)%bool; reflexivity.
Qed.

(** X5: validation looks at [src], [dest] and the three remote fields
    only: setting any other property of an object, to any value, does not
    change the verdict. *)
Theorem isProgramOptions_other_keys (obj : gmap string JsVal) k v :
  ~ In k checked ->
  isProgramOptions (JObj (<[k := v]> obj)) = isProgramOptions (JObj obj).
Proof.
  intros H. unfold isProgramOptions.
  assert (forall k', In k' checked -> prop (<[k := v]> obj) k' = prop obj k') as E.
  { intros k' Hk. apply prop_insert_ne. intros <-. exact (H Hk). }
  rewrite !E by (unfold checked; simpl; tauto). reflexivity.
Qed.

(** ** The logger *)

Lemma prefix_append a b : String.prefix a (a ++ b) = true.
Proof.
  induction a as [|x a IH]; [now destruct b|].
  change (String x a ++ b) with (String x (a ++ b)). simpl.
  destruct (ascii_dec x x); [exact IH | contradiction].
Qed.

Section LoggerFacts.

Context {World : Type} `{RT : Runtime World}.
Implicit Types (s : @State World).

Lemma getLogger_sets (config : ProgramOptions) s l e s1 :
  getLogger config s = (Ok l, e, s1) -> loggerInstance s1 = Some l.
Proof.
  unfold getLogger. destruct (loggerInstance s) as [l0|] eqn:El.
  - intros [= <- <- <-]. exact El.
  - destruct (newLogger (logFile config) s) as [[[l1|err|c] e1] s2];
      intros [= <- <- <-]. reflexivity.
Qed.

(** X6: the logger is made once: after a first call of [getLogger] every
    later call returns the same logger, whatever log file the later
    configuration names, and does nothing else. *)
Theorem getLogger_singleton (first : ProgramOptions) s l e s1 :
  getLogger first s = (Ok l, e, s1) ->
  forall later : ProgramOptions, getLogger later s1 = (Ok l, [], s1).
Proof.
  intros E later. apply getLogger_sets in E. unfold getLogger. now rewrite E.
Qed.

(** X7: making a logger never fails.  Without a log file nothing happens;
    with one, the directory of the resolved path is created and the stream
    is opened, and when the directory cannot be created the logger writes
    to the console only, after one error line that names the path. *)
Theorem newLogger_degrades (file : option string) s :
  exists l e s1,
    newLogger file s = (Ok l, e, s1)
    /\ (given file = false ->
        l = {| logFilePath := file; stream := None |} /\ e = [] /\ s1 = s)
    /\ (given file = true ->
        let p := resolved (world s) (nullish file "") in
        let dir := path_dirname p in
        logFilePath l = Some p
        /\ match (fs_mkdirSync (world s) dir).1 with
           | None => stream l = Some p /\ e = [EvMkdir dir]
           | Some err =>
               stream l = None
               /\ exists text,
                    e = [EvMkdir dir; EvConsole Error text]
                    /\ String.prefix ("Logger initialization failed (" ++ p ++ "):") text
                       = true
           end).
Proof.
  unfold newLogger. destruct (given file).
  - unfold bind, get_state, try_catch, mkdirSync. cbv zeta.
    destruct (fs_mkdirSync _ _) as [[err|] w]; do 3 eexists;
      (split; [reflexivity|]); (split; [discriminate|]); intros _; cbn; auto.
    split; [reflexivity|]. split; [reflexivity|]. eexists. split; [reflexivity|].
    set (p := resolved _ _).
    replace ("Logger initialization failed (" ++ p ++ "): " ++ message err)
      with (("Logger initialization failed (" ++ p ++ "):") ++ " " ++ message err)
      by (rewrite !StrFacts.append_assoc; reflexivity).
    apply prefix_append.
  - do 3 eexists. split; [reflexivity|]. split; [auto | discriminate].
Qed.

End LoggerFacts.

(** ** How loading the configuration ends *)

Create HintDb exits.

Section LoadFacts.

Context {World : Type} `{RT : Runtime World}.
Implicit Types (s : @State World).

Lemma bind_inv {A B} (m : @M World A) (f : A -> @M World B) s r e s1 :
  bind m f s = (r, e, s1) ->
  (exists a e1 s' e2,
     m s = (Ok a, e1, s') /\ f a s' = (r, e2, s1) /\ e = (e1 ++ e2)%list)
  \/ (exists err, m s = (Throw err, e, s1) /\ r = Throw err)
  \/ (exists c, m s = (Exit c, e, s1) /\ r = Exit c).
Proof.
  unfold bind. destruct (m s) as [[[a|err|c] e1] s'].
  - destruct (f a s') as [[r2 e2] s2] eqn:E. intros [= <- <- <-].
    left. exists a, e1, s', e2. auto.
  - intros [= <- <- <-]. right. left. eauto.
  - intros [= <- <- <-]. right. right. eauto.
Qed.

Lemma NoExit_ret {A} (a : A) : NoExit (@ret World A a).
Proof. intros s c e s1 [=]. Qed.

Lemma NoExit_throw {A} msg : NoExit (@throw World A msg).
Proof. intros s c e s1 [=]. Qed.

Lemma NoExit_emit ev : NoExit (@emit World ev).
Proof. intros s c e s1 [=]. Qed.

Lemma NoExit_bind {A B} (m : @M World A) (f : A -> @M World B) :
  NoExit m -> (forall a, NoExit (f a)) -> NoExit (bind m f).
Proof.
  intros Hm Hf s c e s1 E.
  apply bind_inv in E
    as [(a & e1 & s' & e2 & _ & E & _) | [(err & _ & [=]) | (c' & E & _)]].
  - exact (Hf _ _ _ _ _ E).
  - exact (Hm _ _ _ _ E).
Qed.

Lemma NoExit_try_catch {A} (m : @M World A) (h : JsError -> @M World A) :
  NoExit m -> (forall err, NoExit (h err)) -> NoExit (try_catch m h).
Proof.
  intros Hm Hh s c e s1. unfold try_catch.
  destruct (m s) as [[[a|err|c'] e0] s0] eqn:E0.
  - intros [=].
  - destruct (h err s0) as [[r1 e1] s2] eqn:E1. intros [= -> <- <-].
    exact (Hh _ _ _ _ _ E1).
  - intros _. exact (Hm _ _ _ _ E0).
Qed.

Lemma NoExit_get_state : NoExit (@get_state World).
Proof. intros s c e s1 [=]. Qed.

Lemma NoExit_cwd : NoExit (@cwd World _).
Proof. intros s c e s1 [=]. Qed.

Lemma NoExit_existsSync p : NoExit (existsSync p).
Proof. intros s c e s1 [=]. Qed.

Lemma NoExit_readFileSync p : NoExit (readFileSync p).
Proof.
  intros s c e s1. unfold readFileSync. destruct (fs_readFileSync _ _); intros [=].
Qed.

Lemma NoExit_set_config c : NoExit (@set_config World c).
Proof. intros s c' e s1 [=]. Qed.

Lemma NoExit_getLogger (config : ProgramOptions) : NoExit (getLogger config).
Proof.
  intros s c e s1 E.
  destruct (getLogger_run config s) as (l & e' & s' & E' & _). congruence.
Qed.

Lemma NoExit_warn l msg : NoExit (warn l msg).
Proof. intros s c e s1. rewrite warn_run. intros [=]. Qed.

#[local] Hint Resolve NoExit_ret NoExit_throw NoExit_emit NoExit_get_state
  NoExit_cwd NoExit_existsSync NoExit_readFileSync NoExit_set_config NoExit_getLogger
  NoExit_warn : exits.

Ltac exits_step :=
  match goal with
  | |- NoExit (bind _ _) => apply NoExit_bind; [|intros ?]
  | |- NoExit (try_catch _ _) => apply NoExit_try_catch; [|intros ?]
  | |- NoExit (if ?b then _ else _) => destruct b
  | |- NoExit (match ?x with _ => _ end) => destruct x
  | |- NoExit _ => solve [auto with exits]
  end.

Lemma NoExit_optionsToConfig (config : ProgramOptions) : NoExit (optionsToConfig config).
Proof.
  unfold optionsToConfig. destruct (remoteFlags config). repeat exits_step.
Qed.

Lemma NoExit_optionsToConfigOf o : NoExit (optionsToConfigOf o).
Proof.
  unfold optionsToConfigOf. pose proof NoExit_optionsToConfig.
  repeat exits_step.
Qed.

Lemma NoExit_readConfigFromJSON p : NoExit (readConfigFromJSON p).
Proof.
  unfold readConfigFromJSON. pose proof NoExit_optionsToConfigOf.
  repeat exits_step.
Qed.

(** The usage is printed for the built-in help option only. *)
Lemma existsb_is_help args :
  existsb is_help args = true -> In "-h" args \/ In "--help" args.
Proof.
  intros H. apply existsb_exists in H as (a & Hin & Ha).
  unfold is_help in Ha. apply orb_true_iff in Ha as [Ha | Ha];
    apply String.eqb_eq in Ha; subst a; auto.
Qed.

Lemma parseOptions_help decls : forall n args opts unknown,
  (length args <= n)%nat ->
  parseOptions decls args opts unknown = inl HelpDisplayed ->
  In "-h" args \/ In "--help" args.
Proof.
  assert (forall a (rest : list string),
            In "-h" rest \/ In "--help" rest ->
            In "-h" (a :: rest) \/ In "--help" (a :: rest)) as K
    by (intros a rest [H | H]; simpl; auto).
  induction n as [|n IH]; intros args opts unknown Hn.
  - destruct args; [|simpl in Hn; lia]. simpl. destruct unknown; discriminate.
  - destruct args as [|a rest]; simpl; [destruct unknown; discriminate|].
    simpl in Hn. destruct (String.eqb a "--").
    { destruct unknown; [|discriminate].
      destruct (existsb is_help rest) eqn:Eh; [|discriminate].
      intros _. apply K. now apply existsb_is_help. }
    destruct (find_option decls a) as [d|].
    { destruct rest as [|v rest']; [discriminate|]. simpl in Hn.
      intros H. apply K, K. apply (IH rest' _ _ ltac:(lia) H). }
    destruct (short_with_value decls a) as [[d v]|].
    { intros H. apply K. apply (IH rest _ _ ltac:(lia) H). }
    destruct (long_with_value decls a) as [[d v]|].
    { intros H. apply K. apply (IH rest _ _ ltac:(lia) H). }
    destruct (is_help a) eqn:Eh.
    { intros _. unfold is_help in Eh. apply orb_true_iff in Eh as [Eh | Eh];
        apply String.eqb_eq in Eh; subst a; simpl; auto. }
    destruct (looks_like_option a); intros H; apply K;
      apply (IH rest _ _ ltac:(lia) H).
Qed.

(** [parseConfigFromArgs] ends the process with status 1, or with status
    0 after the usage that the help option asked for. *)
Lemma program_parse_exit argv s c e s1 :
  @program_parse World declared argv s = (Exit c, e, s1) ->
  c = 1%Z
  \/ (c = 0%Z /\ e = [EvHelp] /\ s1 = s /\ help_requested argv).
Proof.
  unfold program_parse.
  destruct (parseOptions declared (skipn 2 argv) ∅ None)
    as [[flag | flag |] | opts] eqn:Ep.
  - intros [= <- _ _]. now left.
  - intros [= <- _ _]. now left.
  - intros [= <- <- <-]. right. split; [reflexivity|]. split; [reflexivity|].
    split; [reflexivity|]. exact (parseOptions_help _ _ _ _ _ (Nat.le_refl _) Ep).
  - intros [=].
Qed.

Lemma parseConfigFromArgs_exit s c e s1 :
  parseConfigFromArgs s = (Exit c, e, s1) ->
  c = 1%Z
  \/ (c = 0%Z /\ e = [EvHelp] /\ s1 = s /\ help_requested (process_argv (world s))).
Proof.
  unfold parseConfigFromArgs. intros E.
  apply bind_inv in E
    as [(a & e1 & s' & e2 & Eg & E & ->) | [(err & _ & [=]) | (c' & [=] & _)]].
  injection Eg as <- <- <-. cbn [app].
  destruct (Nat.leb _ _); [discriminate|].
  apply bind_inv in E
    as [(opts & ea & sa & eb & _ & E & _) | [(err & _ & [=]) | (c' & E & [= <-])]].
  - destruct (config_flag opts) as [path|].
    + exfalso. revert E.
      apply NoExit_bind; [apply NoExit_readConfigFromJSON | intros; apply NoExit_ret].
    + destruct (negb (isProgramOptions (JObj opts))) eqn:Hv.
      * injection E as <- _ _. now left.
      * exfalso. revert E.
        apply NoExit_bind; [apply NoExit_optionsToConfigOf | intros; apply NoExit_ret].
  - exact (program_parse_exit _ _ _ _ _ E).
Qed.

(** How [getConfig] ends: with a configuration that the module now holds,
    with status 1, or with status 0 after the usage. *)
Lemma getConfig_ends s r e s1 :
  getConfig s = (r, e, s1) ->
  (exists c, r = Ok c /\ configCache s1 = Some c)
  \/ r = Exit 1
  \/ (r = Exit 0 /\ e = [EvHelp] /\ s1 = s /\ help_requested (process_argv (world s))).
Proof.
  unfold getConfig. destruct (configCache s) as [c|] eqn:Ec.
  - intros [= <- <- <-]. left. eauto.
  - unfold try_catch.
    destruct ((argsConfig <- parseConfigFromArgs ;;
               match argsConfig with
               | Some c => set_config c
               | None => c <- readConfigFromJSON "" ;; set_config c
               end) s) as [[[c|err|code] e0] s0] eqn:E.
    + intros [= <- <- <-]. left. exists c. split; [reflexivity|].
      apply bind_inv in E
        as [(a & e1 & s' & e2 & _ & E & _) | [(err & _ & [=]) | (c' & _ & [=])]].
      destruct a as [c'|].
      * injection E as <- _ <-. reflexivity.
      * apply bind_inv in E
          as [(a & e3 & s'' & e4 & _ & E & _) | [(err & _ & [=]) | (c' & _ & [=])]].
        injection E as <- _ <-. reflexivity.
    + intros [= <- <- <-]. right. now left.
    + intros [= <- <- <-]. right.
      apply bind_inv in E
        as [(a & e1 & s' & e2 & _ & E & _) | [(err & _ & [=]) | (c' & E & [= <-])]].
      * exfalso. revert E. destruct a as [c'|]; [apply NoExit_set_config|].
        apply NoExit_bind; [apply NoExit_readConfigFromJSON | apply NoExit_set_config].
      * destruct (parseConfigFromArgs_exit _ _ _ _ E) as [-> | (-> & -> & -> & H)];
          [now left | right; auto].
Qed.

(** What [getConfig] does when no argument is given, and when the
    arguments name a configuration file. *)
Lemma getConfig_default s :
  configCache s = None -> (length (process_argv (world s)) <= 2)%nat ->
  getConfig s = loadFrom "" s.
Proof.
  intros Hc Ha. unfold getConfig, loadFrom. rewrite Hc.
  unfold try_catch, bind at 1. unfold parseConfigFromArgs, bind at 1, get_state.
  apply Nat.leb_le in Ha. rewrite Ha. unfold ret at 1. cbv beta iota zeta.
  unfold bind at 1.
  destruct (readConfigFromJSON "" s) as [[[c|err|code] e0] s0]; cbn;
    rewrite ?app_nil_r; reflexivity.
Qed.

Lemma getConfig_flag s opts path :
  configCache s = None -> (2 < length (process_argv (world s)))%nat ->
  parseOptions declared (skipn 2 (process_argv (world s))) ∅ None = inr opts ->
  config_flag opts = Some path ->
  getConfig s = loadFrom path s.
Proof.
  intros Hc Ha Hp Hf. unfold getConfig, loadFrom. rewrite Hc.
  unfold try_catch, bind at 1. unfold parseConfigFromArgs, bind at 1, get_state.
  apply Nat.leb_gt in Ha. rewrite Ha. cbv beta iota zeta.
  unfold bind at 1. unfold program_parse. rewrite Hp. unfold ret at 1.
  cbv beta iota zeta. rewrite Hf. unfold bind at 1.
  destruct (readConfigFromJSON path s) as [[[c|err|code] e0] s0]; cbn;
    rewrite ?app_nil_r; reflexivity.
Qed.

Lemma readConfigFromJSON_missing configFilePath s :
  let configPath :=
    if negb (Str.is_empty configFilePath) then configFilePath
    else path_join (process_cwd (world s)) ".incback" in
  fs_existsSync (world s) configPath = false ->
  readConfigFromJSON configFilePath s =
    (Throw (MkError ("Configuration file .incback not found in " ++ process_cwd (world s))),
     [], s).
Proof.
  intros configPath H. unfold readConfigFromJSON, bind, cwd, existsSync.
  cbv beta iota zeta. fold configPath. rewrite H. reflexivity.
Qed.

Lemma readConfigFromJSON_invalid configFilePath s rawData :
  let configPath :=
    if negb (Str.is_empty configFilePath) then configFilePath
    else path_join (process_cwd (world s)) ".incback" in
  fs_existsSync (world s) configPath = true ->
  fs_readFileSync (world s) configPath = inr rawData ->
  match JSON_parse rawData with
  | Some v => isProgramOptions v = false
  | None => True
  end ->
  readConfigFromJSON configFilePath s =
    (Throw (MkError "Invalid .incback configuration file"), [], s).
Proof.
  intros configPath H Hr Hv.
  unfold readConfigFromJSON, bind, cwd, existsSync, readFileSync.
  cbv beta iota zeta. fold configPath. rewrite H, Hr. cbv beta iota zeta.
  destruct (JSON_parse rawData) as [v|]; [|reflexivity]. rewrite Hv. reflexivity.
Qed.

(** X8: [optionsToConfig] always returns a configuration; that
    configuration has a snapshot prefix, the given one or [BACKUP-]; it
    carries the source, the destination, the remote fields, the log file
    and the sync flags over unchanged; at most one of its two remote flags
    is set; and its logger is the logger of the process. *)
Theorem optionsToConfig_fields (config : ProgramOptions) s :
  exists (result : ProgramConfig) e s1,
    optionsToConfig config s = (Ok result, e, s1)
    /\ backupPrefix result = Some (nullish (backupPrefix config) "BACKUP-")
    /\ src result = src config /\ dest result = dest config
    /\ remoteRole result = remoteRole config
    /\ remoteUser result = remoteUser config
    /\ remoteHost result = remoteHost config
    /\ logFile result = logFile config
    /\ rsyncOptions result = rsyncOptions config
    /\ (isRemoteSrc result && isRemoteDest result = false)%bool
    /\ loggerInstance s1 = Some (logger result).
Proof.
  destruct (getLogger_run config s) as (l & e0 & s0 & E & _).
  rewrite (optionsToConfig_run config s l e0 s0 E). cbv zeta.
  do 3 eexists. split; [reflexivity|].
  cbn [options backupPrefix src dest remoteRole remoteUser remoteHost logFile
       rsyncOptions isRemoteSrc isRemoteDest logger set_backupPrefix].
  assert (loggerInstance s0 = Some l) as Hl by exact (getLogger_sets _ _ _ _ _ E).
  assert (((remoteFlags config).1 && (remoteFlags config).2)%bool = false) as Hf
    by (unfold remoteFlags; destruct (remoteRole config) as [[]|]; reflexivity).
  destruct (given (excludeFrom config)); [destruct (fs_existsSync _ _)|];
    cbn; repeat split; assumption.
Qed.

(** X9: an exclude file that [optionsToConfig] keeps in the configuration
    exists, and its path is the given one resolved against the working
    directory. *)
Theorem kept_exclude_file_exists (config : ProgramOptions) s (result : ProgramConfig)
    e s1 p :
  optionsToConfig config s = (Ok result, e, s1) ->
  excludeFrom result = Some p -> p <> "" ->
  fs_existsSync (world s1) p = true
  /\ p = resolved (world s1) (nullish (excludeFrom config) "").
Proof.
  destruct (getLogger_run config s) as (l & e0 & s0 & E & _).
  rewrite (optionsToConfig_run config s l e0 s0 E). cbv zeta.
  intros [= <- _ <-].
  cbn [options excludeFrom set_backupPrefix].
  destruct (given (excludeFrom config)) eqn:Hg.
  - destruct (fs_existsSync _ _) eqn:Hx; cbn; [|discriminate].
    intros [= <-] _. auto.
  - intros Hp Hne. rewrite Hp in Hg. cbn in Hg.
    apply negb_false_iff, StrFacts.is_empty_true in Hg. contradiction.
Qed.

(** X10: the configuration is loaded once: after a call of [getConfig]
    that returned a configuration, every call returns the same one and
    does nothing else. *)
Theorem getConfig_cached s c e s1 :
  getConfig s = (Ok c, e, s1) -> getConfig s1 = (Ok c, [], s1).
Proof.
  intros E. apply getConfig_ends in E as [(c' & [= <-] & Hc) | [[=] | ([=] & _)]].
  unfold getConfig. now rewrite Hc.
Qed.

(** X11: [getConfig] never throws and starts no child process: it returns
    a configuration, which the module then holds, or ends the process
    with status 1, or, and then the command line holds the help option,
    prints the usage and ends the process with status 0 with nothing else
    done; and it does the latter when the help option is the only
    argument. *)
Theorem getConfig_exit_only s :
  (exists r e s1,
     getConfig s = (r, e, s1) /\ quiet e
     /\ ((exists c, r = Ok c /\ configCache s1 = Some c)
         \/ r = Exit 1
         \/ (r = Exit 0 /\ e = [EvHelp] /\ s1 = s
             /\ help_requested (process_argv (world s)))))
  /\ (configCache s = None ->
      forall node script a,
        process_argv (world s) = [node; script; a] -> is_help a = true ->
        getConfig s = (Exit 0, [EvHelp], s)).
Proof.
  split.
  - destruct (getConfig s) as [[r e] s1] eqn:E. exists r, e, s1.
    split; [reflexivity|]. split; [exact (Quiet_getConfig _ _ _ _ E)|].
    exact (getConfig_ends _ _ _ _ E).
  - intros Hc node script a Ha Hh. unfold getConfig. rewrite Hc.
    unfold try_catch, bind at 1. unfold parseConfigFromArgs, bind at 1, get_state.
    rewrite Ha. cbn [length Nat.leb]. cbv beta iota zeta.
    unfold bind at 1. unfold program_parse. cbn [skipn parseOptions].
    assert (String.eqb a "--" = false) as ->.
    { unfold is_help in Hh. apply orb_true_iff in Hh as [Hh | Hh];
        apply String.eqb_eq in Hh; subst a; reflexivity. }
    assert (find_option declared a = None /\ short_with_value declared a = None
            /\ long_with_value declared a = None) as (-> & -> & ->).
    { unfold is_help in Hh. apply orb_true_iff in Hh as [Hh | Hh];
        apply String.eqb_eq in Hh; subst a; repeat split; reflexivity. }
    rewrite Hh. reflexivity.
Qed.

(** X12: where the configuration comes from: without arguments, from the
    default file; with a configuration file named on the command line,
    from that file, and then the other options of the command line are
    not looked at, not even to validate them. *)
Theorem config_sources s :
  configCache s = None ->
  ((length (process_argv (world s)) <= 2)%nat -> getConfig s = loadFrom "" s)
  /\ forall opts path,
       (2 < length (process_argv (world s)))%nat ->
       parseOptions declared (skipn 2 (process_argv (world s))) ∅ None = inr opts ->
       config_flag opts = Some path ->
       getConfig s = loadFrom path s.
Proof.
  intros Hc. split.
  - now apply getConfig_default.
  - intros opts path. now apply getConfig_flag.
Qed.

(** X13: when the file named on the command line does not exist the
    process ends with status 1, and the message names the default file and
    the working directory, not the path that was given. *)
Theorem explicit_config_missing s opts path :
  configCache s = None -> (2 < length (process_argv (world s)))%nat ->
  parseOptions declared (skipn 2 (process_argv (world s))) ∅ None = inr opts ->
  config_flag opts = Some path ->
  fs_existsSync (world s) path = false ->
  getConfig s =
    (Exit 1,
     [EvConsole Error ("Startup error: Configuration file .incback not found in "
                       ++ process_cwd (world s))],
     s).
Proof.
  intros Hc Ha Hp Hf He. rewrite (getConfig_flag s opts path Hc Ha Hp Hf).
  assert (path <> "") as Hne.
  { unfold config_flag in Hf.
    destruct (prop opts "config") as [| |b|n|p|items|fields]; try discriminate.
    destruct (Str.is_empty p) eqn:E; [discriminate|].
    injection Hf as <-. now apply StrFacts.is_empty_false. }
  unfold loadFrom. rewrite (readConfigFromJSON_missing path s).
  - reflexivity.
  - apply StrFacts.is_empty_false in Hne. rewrite Hne. exact He.
Qed.

(** X14: without arguments and without a file [.incback] in the working
    directory the process ends with status 1 after one error line that
    names the working directory. *)
Theorem missing_default_file s :
  configCache s = None -> (length (process_argv (world s)) <= 2)%nat ->
  fs_existsSync (world s) (path_join (process_cwd (world s)) ".incback") = false ->
  getConfig s =
    (Exit 1,
     [EvConsole Error ("Startup error: Configuration file .incback not found in "
                       ++ process_cwd (world s))],
     s).
Proof.
  intros Hc Ha He. rewrite getConfig_default by assumption.
  unfold loadFrom. rewrite (readConfigFromJSON_missing "" s He). reflexivity.
Qed.

(** X15: a default configuration file whose text is not JSON, or whose
    JSON value validation rejects, ends the process with status 1 after
    the same error line in both cases; no logger is made. *)
Theorem invalid_file_content s rawData :
  configCache s = None -> (length (process_argv (world s)) <= 2)%nat ->
  let configPath := path_join (process_cwd (world s)) ".incback" in
  fs_existsSync (world s) configPath = true ->
  fs_readFileSync (world s) configPath = inr rawData ->
  match JSON_parse rawData with
  | Some v => isProgramOptions v = false
  | None => True
  end ->
  getConfig s =
    (Exit 1, [EvConsole Error "Startup error: Invalid .incback configuration file"], s).
Proof.
  intros Hc Ha configPath He Hr Hv. rewrite getConfig_default by assumption.
  unfold loadFrom.
  rewrite (readConfigFromJSON_invalid "" s rawData He Hr Hv). reflexivity.
Qed.

(** X16: options given on the command line that validation rejects, a
    missing destination for one, end the process with status 1 after an
    error line and the usage text; nothing else happens. *)
Theorem invalid_inline_options s opts :
  configCache s = None -> (2 < length (process_argv (world s)))%nat ->
  parseOptions declared (skipn 2 (process_argv (world s))) ∅ None = inr opts ->
  config_flag opts = None ->
  isProgramOptions (JObj opts) = false ->
  getConfig s =
    (Exit 1, [EvConsole Error "Error: Missing or invalid parameters."; EvHelp], s).
Proof.
  intros Hc Ha Hp Hf Hv. unfold getConfig. rewrite Hc.
  unfold try_catch, bind at 1. unfold parseConfigFromArgs, bind at 1, get_state.
  apply Nat.leb_gt in Ha. rewrite Ha. cbv beta iota zeta.
  unfold bind at 1. unfold program_parse. rewrite Hp. unfold ret at 1.
  cbv beta iota zeta. rewrite Hf, Hv. reflexivity.
Qed.

End LoadFacts.

(** ** Runs, from the listing to the exit status *)

Section EndFacts.

Context {World : Type} `{RT : Runtime World}.
Implicit Types (s : @State World).

(** X17: listing the snapshots never fails, with a local and with a remote
    destination: it gives no snapshot, or a name that is not empty and has
    no white space at either end, so that the test of [backup] for a found
    snapshot sees the result as it is; and when a local destination does
    not exist nothing is listed at all. *)
Theorem getLatestBackupDir_total config s :
  exists latest e s1,
    getLatestBackupDir config s = (Ok latest, e, s1)
    /\ found latest = latest
    /\ (forall d, latest = Some d -> Str.trim d = d)
    /\ (isRemoteDest config = false ->
        fs_existsSync (world s) (dest config) = false ->
        latest = None /\ e = [] /\ s1 = s).
Proof.
  unfold getLatestBackupDir. destruct (isRemoteDest config).
  - unfold try_catch, bind. rewrite remoteCommand_run.
    destruct (Str.is_empty _ || Str.is_empty _)%bool.
    + do 3 eexists. split; [reflexivity|]. cbn. repeat split; discriminate.
    + cbv zeta.
      destruct (settle_cases
                  (sshCommand (nullish (remoteUser config) "")
                     (nullish (remoteHost config) "") (lsCommand config))
                  (spawn (world s)
                     (sshCommand (nullish (remoteUser config) "")
                        (nullish (remoteHost config) "") (lsCommand config))).1)
        as [[_ [e' ->]] | (_ & _ & ->)]; unfold ret; cbv beta iota zeta;
        do 3 eexists; (split; [reflexivity|]).
      * cbn. repeat split; discriminate.
      * split; [|split; [|discriminate]]; apply found_trimmed; intros d;
          apply trimmed_or_null_found, StrFacts.trim_idem.
  - unfold bind, existsSync.
    destruct (fs_existsSync (world s) (dest config)); cbn [negb].
    + unfold try_catch, bind. rewrite executeCommand_run.
      destruct (settle_cases (lsCommand config) (spawn (world s) (lsCommand config)).1)
        as [[_ [e' ->]] | (_ & _ & ->)]; unfold ret; cbv beta iota zeta;
        do 3 eexists; (split; [reflexivity|]).
      * cbn. repeat split; discriminate.
      * split; [|split; [|discriminate]]; apply found_trimmed; intros d;
          apply trimmed_or_null_found, StrFacts.trim_idem.
    + do 3 eexists. split; [reflexivity|]. cbn.
      split; [reflexivity|]. split; [discriminate|]. intros _ _.
      rewrite ?app_nil_r. auto.
Qed.

Lemma BackupRun_end config s r evs s1 :
  BackupRun config s r evs s1 -> RunEnd config r evs.
Proof.
  intros [e1 s' E1 | e1 s' e2 s2 err e3 s3 E1 E2 E3
          | e1 s' e2 s2 latest e3 s3 o E1 D E3 cur cmd Ho].
  - left. split; [|auto]. exact (existsPath_no_sync _ _ _ _ _ _ _ E1).
  - left. split; [|auto]. rewrite !no_sync_app.
    split; [exact (existsPath_no_sync _ _ _ _ _ _ _ E1)|].
    split; [exact (existsPath_no_sync _ _ _ _ _ _ _ E2)|].
    exact (createDestDir_no_sync _ _ _ _ _ E3).
  - right.
    exists (e1 ++ e2 ++ e3
            ++ log_events (logger config) Log
                 (modeMessage (world s3) config latest cur) (world s3)
            ++ log_events (logger config) Log ("Executing command:" ++ cmd) (world s3))%list,
      cmd, o.
    split; [now rewrite <- !app_assoc|]. split.
    { rewrite !no_sync_app.
      split; [exact (existsPath_no_sync _ _ _ _ _ _ _ E1)|].
      split; [exact (DestStep_no_sync _ _ _ _ D)|].
      split; [exact (getLatestBackupDir_no_sync _ _ _ _ _ E3)|].
      split; apply no_sync_log. }
    split; [apply rsyncCommand_is_sync|].
    destruct (settle_cases cmd o) as [[Hr [err ->]] | (Hc & Hs & ->)].
    + split; [eauto | tauto].
    + pose proof (not_rejected _ Hc Hs). split; [tauto | reflexivity].
Qed.

(** X18: [backup] starts the sync tool at most once and never ends the
    process itself.  It fails before the sync tool is started, with one
    of its two messages about the source and the destination, or the sync
    invocation is the last thing it does, and it resolves exactly when
    that invocation succeeded. *)
Theorem backup_single_sync config s :
  exists r evs s1, backup config s = (r, evs, s1) /\ RunEnd config r evs.
Proof.
  destruct (backup_inv config s) as (r & evs & s1 & E & R).
  exists r, evs, s1. split; [exact E | exact (BackupRun_end _ _ _ _ _ R)].
Qed.

(** X19: when a local destination does not exist and cannot be created,
    [backup] fails with its own message about the destination, in place of
    the error of the file system, after one attempt to create the
    directory and before anything is listed or synchronised. *)
Theorem local_destination_uncreatable config s e1 s1 err :
  isRemoteDest config = false ->
  existsSrcPath config s = (Ok true, e1, s1) ->
  fs_existsSync (world s1) (dest config) = false ->
  (fs_mkdirSync (world s1) (dest config)).1 = Some err ->
  backup config s =
    (Throw (MkError (destUncreatable config)),
     (e1 ++ [EvMkdir (dest config)])%list,
     set_world s1 (fs_mkdirSync (world s1) (dest config)).2).
Proof.
  intros Hl E1 Hx Hm. unfold backup, bind at 1, get_state. cbv beta iota zeta.
  unfold bind at 1. rewrite E1. cbn [negb]. unfold bind at 1, bind at 1.
  unfold existsDestPath, existsPath. rewrite Hl. unfold existsSync. rewrite Hx.
  cbn [negb]. unfold try_catch, createDestDir. rewrite Hl. unfold mkdirSync.
  destruct (fs_mkdirSync (world s1) (dest config)) as [r w]. cbn in Hm. subst r.
  unfold throw. cbn. rewrite ?app_nil_r. reflexivity.
Qed.

Lemma main_startup s c e0 s0 :
  getConfig s = (Exit c, e0, s0) -> main s = (Exit c, e0, s0).
Proof.
  intros E. unfold main, try_catch, backupRun, bind. now rewrite E.
Qed.

(** X20: the process ends with status 0 or 1 and never with a rejection
    that nobody handles.  It ends with status 0 in two ways only: after a
    sync invocation that succeeded, which is then the last thing it did
    and the only sync invocation of the run; or after the usage that the
    help option of the command line asked for, and then it did nothing
    else. *)
Theorem main_exit_status s :
  exists r evs s1,
    main s = (r, evs, s1)
    /\ (r = Ok tt \/ r = Exit 1 \/ r = Exit 0)
    /\ (r = Ok tt ->
        exists pre cmd o,
          evs = (pre ++ [EvSpawn cmd o])%list /\ no_sync pre
          /\ is_sync (EvSpawn cmd o) = true /\ ~ rejected o)
    /\ (r = Exit 0 ->
        evs = [EvHelp] /\ s1 = s /\ help_requested (process_argv (world s))).
Proof.
  destruct (getConfig s) as [[r0 e0] s0] eqn:E0.
  pose proof (Quiet_getConfig _ _ _ _ E0) as Hq. apply quiet_no_sync in Hq.
  destruct (getConfig_ends _ _ _ _ E0)
    as [(config & -> & _) | [-> | (-> & -> & -> & Hh)]].
  - destruct (backup_inv config s0) as (r & evs & s1 & E & R).
    rewrite (main_run s config e0 s0 r evs s1 E0 E).
    do 3 eexists. split; [reflexivity|].
    destruct (BackupRun_end _ _ _ _ _ R)
      as [(_ & [-> | ->]) | (pre & cmd & o & -> & Hn & Hs & Hrej & Hok)].
    + split; [auto|]. split; discriminate.
    + split; [auto|]. split; discriminate.
    + destruct (settle_cases cmd o) as [[Hr _] | (Hc & Hs' & _)].
      * destruct (Hrej Hr) as [err ->]. split; [auto|]. split; discriminate.
      * pose proof (not_rejected _ Hc Hs') as Hnr. rewrite (Hok Hnr).
        split; [auto|]. split; [|discriminate].
        intros _. exists (e0 ++ pre)%list, cmd, o.
        split; [now rewrite app_nil_r, <- app_assoc|].
        split; [apply no_sync_app; auto|]. auto.
  - rewrite (main_startup _ _ _ _ E0). do 3 eexists. split; [reflexivity|].
    split; [auto|]. split; discriminate.
  - rewrite (main_startup _ _ _ _ E0). do 3 eexists. split; [reflexivity|].
    split; [auto|]. split; [discriminate|]. auto.
Qed.

End EndFacts.

(** ** What a run creates, logs and excludes *)

Section TraceFacts.

Context {World : Type} `{RT : Runtime World}.
Implicit Types (s : @State World).

Lemma mkdir_free_app e1 e2 : mkdir_free e1 -> mkdir_free e2 -> mkdir_free (e1 ++ e2).
Proof.
  intros H1 H2 p Hin.
  apply in_app_or in Hin as [H | H]; [exact (H1 p H) | exact (H2 p H)].
Qed.

Lemma mkdir_free_nil : mkdir_free [].
Proof. intros p []. Qed.

Lemma mkdir_free_spawn c o : mkdir_free [EvSpawn c o].
Proof. intros p [H | []]. discriminate. Qed.

Lemma mkdir_free_log l t msg w : mkdir_free (log_events l t msg w).
Proof.
  intros p. unfold log_events. destruct (stream l); simpl; intros H;
    decompose [or] H; try discriminate; assumption.
Qed.

Lemma existsPath_mkdir_free config p isRemote s r e s1 :
  existsPath config p isRemote s = (r, e, s1) -> mkdir_free e.
Proof.
  unfold existsPath. destruct isRemote.
  - rewrite remoteExists_run. intros [= <- <- <-]. apply mkdir_free_spawn.
  - intros [= <- <- <-]. apply mkdir_free_nil.
Qed.

Lemma remoteCommand_mkdir_free command (config : ProgramOptions) throwError s r e s1 :
  remoteCommand command config throwError s = (r, e, s1) -> mkdir_free e.
Proof.
  rewrite remoteCommand_run.
  destruct (Str.is_empty _ || Str.is_empty _)%bool; intros [= <- <- <-];
    [apply mkdir_free_nil | apply mkdir_free_spawn].
Qed.

Lemma getLatestBackupDir_mkdir_free config s r e s1 :
  getLatestBackupDir config s = (r, e, s1) -> mkdir_free e.
Proof.
  unfold getLatestBackupDir. destruct (isRemoteDest config).
  - unfold try_catch, bind.
    destruct (remoteCommand (lsCommand config) config false s) as [[r0 e0] s0] eqn:E.
    apply remoteCommand_mkdir_free in E.
    destruct r0; intros [= <- <- <-]; rewrite ?app_nil_r; exact E.
  - unfold bind, existsSync.
    destruct (fs_existsSync (world s) (dest config)); cbn [negb].
    + unfold try_catch, bind. rewrite executeCommand_run.
      destruct (settle _ _); intros [= <- <- <-]; cbn; apply mkdir_free_spawn.
    + intros [= <- <- <-]. apply mkdir_free_nil.
Qed.

Lemma createDestDir_mkdir config s r e s1 p :
  createDestDir config s = (r, e, s1) -> In (EvMkdir p) e ->
  p = dest config /\ isRemoteDest config = false.
Proof.
  unfold createDestDir. destruct (isRemoteDest config).
  - unfold bind.
    destruct (remoteCommand (mkdirCommand config) config true s) as [[r0 e0] s0] eqn:E.
    apply remoteCommand_mkdir_free in E.
    destruct r0; intros [= <- <- <-]; rewrite ?app_nil_r; intros Hin;
      destruct (E p Hin).
  - unfold mkdirSync. destruct (fs_mkdirSync _ _) as [r0 w].
    intros [= <- <- <-] [[= <-] | []]. auto.
Qed.

Lemma createDestDir_remote config s :
  isRemoteDest config = true -> has_endpoint config = true ->
  exists r,
    createDestDir config s
    = (r,
       [EvSpawn (sshCommand (nullish (remoteUser config) "")
                   (nullish (remoteHost config) "") (mkdirCommand config))
          (remoteOutcome config (world s) (mkdirCommand config))],
       set_world s
         (spawn (world s)
            (sshCommand (nullish (remoteUser config) "")
               (nullish (remoteHost config) "") (mkdirCommand config))).2).
Proof.
  intros Hr He. apply has_endpoint_true in He.
  unfold createDestDir. rewrite Hr. unfold bind. rewrite remoteCommand_run, He.
  cbv zeta. unfold remoteOutcome.
  destruct (settle _ _); unfold ret; cbv beta iota zeta; rewrite ?app_nil_r;
    eexists; reflexivity.
Qed.

(** X24: how [backup] itself makes a directory.  It calls [fs.mkdirSync]
    for one directory only, a local destination that was found missing
    after the source was found, and never for the snapshot directory.  A
    remote destination that the probe reports missing is made by the
    command [mkdir -p] for the destination, run over ssh right after the
    two probes. *)
Theorem backup_destination_creation config s :
  exists r evs s1,
    backup config s = (r, evs, s1)
    /\ (forall p, In (EvMkdir p) evs ->
          p = dest config /\ isRemoteDest config = false
          /\ exists e1 s',
               existsSrcPath config s = (Ok true, e1, s')
               /\ fs_existsSync (world s') (dest config) = false)
    /\ (isRemoteDest config = true -> has_endpoint config = true ->
        forall e1 s' e2 s'',
          existsSrcPath config s = (Ok true, e1, s') ->
          existsDestPath config s' = (Ok false, e2, s'') ->
          exists rest,
            evs = (e1 ++ e2
                   ++ EvSpawn (sshCommand (nullish (remoteUser config) "")
                                 (nullish (remoteHost config) "") (mkdirCommand config))
                        (remoteOutcome config (world s'') (mkdirCommand config))
                      :: rest)%list).
Proof.
  destruct (backup_inv config s) as (r & evs & s1 & E & R).
  exists r, evs, s1. split; [exact E|]. split.
  - intros p Hin.
    assert (forall s0 b e s', existsDestPath config s0 = (Ok b, e, s') ->
              isRemoteDest config = false ->
              s' = s0 /\ b = fs_existsSync (world s0) (dest config)) as K.
    { intros s0 b e s'. unfold existsDestPath, existsPath. intros H Hl.
      rewrite Hl in H. injection H as <- _ <-. auto. }
    destruct R as [e1 s' E1 | e1 s' e2 s2 err e3 s3 E1 E2 E3
                   | e1 s' e2 s2 latest e3 s3 o E1 D E3 cur cmd Ho].
    + destruct (existsPath_mkdir_free _ _ _ _ _ _ _ E1 p Hin).
    + apply in_app_or in Hin as [Hin | Hin];
        [destruct (existsPath_mkdir_free _ _ _ _ _ _ _ E1 p Hin)|].
      apply in_app_or in Hin as [Hin | Hin];
        [destruct (existsPath_mkdir_free _ _ _ _ _ _ _ E2 p Hin)|].
      destruct (createDestDir_mkdir _ _ _ _ _ _ E3 Hin) as [-> Hl].
      split; [reflexivity|]. split; [exact Hl|].
      destruct (K _ _ _ _ E2 Hl) as [-> Hb]. eauto.
    + apply in_app_or in Hin as [Hin | Hin];
        [destruct (existsPath_mkdir_free _ _ _ _ _ _ _ E1 p Hin)|].
      apply in_app_or in Hin as [Hin | Hin].
      * destruct D as [ea sa E2 | ea sa eb sb E2 E2'].
        -- destruct (existsPath_mkdir_free _ _ _ _ _ _ _ E2 p Hin).
        -- apply in_app_or in Hin as [Hin | Hin];
             [destruct (existsPath_mkdir_free _ _ _ _ _ _ _ E2 p Hin)|].
           destruct (createDestDir_mkdir _ _ _ _ _ _ E2' Hin) as [-> Hl].
           split; [reflexivity|]. split; [exact Hl|].
           destruct (K _ _ _ _ E2 Hl) as [-> Hb]. eauto.
      * exfalso. revert p Hin.
        change (mkdir_free
                  (e3 ++ log_events (logger config) Log
                           (modeMessage (world s3) config latest cur) (world s3)
                   ++ log_events (logger config) Log ("Executing command:" ++ cmd)
                        (world s3)
                   ++ [EvSpawn cmd o])).
        repeat apply mkdir_free_app;
          [exact (getLatestBackupDir_mkdir_free _ _ _ _ _ E3) | apply mkdir_free_log
          | apply mkdir_free_log | apply mkdir_free_spawn].
  - intros Hr He e1 s' e2 s'' E1 E2.
    destruct (createDestDir_remote config s'' Hr He) as [rc Ec].
    destruct R as [ea sa F1 | ea sa eb sb err ec sc F1 F2 F3
                   | ea sa eb sb latest ec sc o F1 D F3 cur cmd Ho].
    + rewrite E1 in F1. discriminate.
    + rewrite E1 in F1. injection F1 as <- <-. rewrite E2 in F2.
      injection F2 as <- <-. rewrite Ec in F3. injection F3 as _ <- _.
      exists []. reflexivity.
    + rewrite E1 in F1. injection F1 as <- <-.
      destruct D as [ed sd F2 | ed sd ee se F2 F2'].
      * rewrite E2 in F2. discriminate.
      * rewrite E2 in F2. injection F2 as <- <-. rewrite Ec in F2'.
        injection F2' as _ <- _. eexists.
        rewrite <- !app_assoc. cbn [app]. reflexivity.
Qed.

(** X25: the command that is logged is the command that is run.  In a run
    that finds its source and has or makes its destination, the events
    after the listing are the line about the mode, the line [Executing
    command:] followed by the command composed from the result of that
    listing, and the invocation of that same command; the line about the
    mode says [Initial backup] when the listing found no snapshot and
    [Incremental backup] with the snapshot found otherwise. *)
Theorem logged_command_is_run config s e1 s1 e2 s2 latest e3 s3 :
  existsSrcPath config s = (Ok true, e1, s1) ->
  DestStep config s1 e2 s2 ->
  getLatestBackupDir config s2 = (Ok latest, e3, s3) ->
  let l := logger config in
  let w := world s3 in
  let cur := currentBackupDirname config (world s) in
  let cmd := rsyncCommand w config latest cur in
  (exists r s4,
     backup config s
     = (r,
        (e1 ++ e2 ++ e3 ++ log_events l Log (modeMessage w config latest cur) w
         ++ log_events l Log ("Executing command:" ++ cmd) w
         ++ [EvSpawn cmd (spawn w cmd).1])%list,
        s4))
  /\ match latest with
     | None =>
         modeMessage w config latest cur
         = "Initial backup to " ++ getDestPath w config ++ "/" ++ path_basename cur
     | Some previous =>
         modeMessage w config latest cur
         = "Incremental backup to " ++ getDestPath w config ++ "/" ++ path_basename cur
           ++ " with link-dest to " ++ dest config ++ "/" ++ path_basename previous
     end.
Proof.
  intros E1 D E3 l w cur cmd. split.
  - pose proof (backup_sync_run config s e1 s1 e2 s2 latest e3 s3 E1 D E3) as E.
    cbv zeta in E. do 2 eexists. exact E.
  - unfold modeMessage. rewrite (getLatestBackupDir_found _ _ _ _ _ E3).
    destruct latest; reflexivity.
Qed.

Ltac cut_exclude c :=
  match goal with
  | |- context [Str.occ excludeMarker (?a ++ String c ?b)] =>
      rewrite (StrFacts.occ_sep excludeMarker a c b) by (reflexivity || discriminate)
  end.

Lemma exclude_tail w (config : ProgramConfig) cur :
  exclude_free (getSrcPath w config) -> exclude_free (getDestPath w config) ->
  exclude_free (path_basename cur) ->
  Str.occ excludeMarker (syncTail w config cur) = 0.
Proof.
  unfold exclude_free, syncTail. intros Hs Hd Hc.
  change (Str.occ excludeMarker
            ("" ++ String " " ("" ++ String "034"
               (getSrcPath w config ++ String "/" ("" ++ String "034"
                  ("" ++ String " " ("" ++ String "034"
                     (getDestPath w config ++ String "/"
                        (path_basename cur ++ String "/" ("" ++ String "034" "")))))))))
          = 0).
  repeat first [cut_exclude " "%char | cut_exclude "034"%char | cut_exclude "/"%char].
  rewrite Hs, Hd, Hc. reflexivity.
Qed.

Lemma exclude_head (config : ProgramConfig) :
  exclude_free ("-" ++ nullish (rsyncOptions config) "az") ->
  exclude_free (tpl (excludeFrom config)) ->
  Str.occ excludeMarker (syncHead config)
    = if given (excludeFrom config) then 1 else 0.
Proof.
  unfold exclude_free, syncHead. intros Ho He.
  destruct (given (excludeFrom config)).
  - change (Str.occ excludeMarker
              ("rsync" ++ String " "
                 (("-" ++ nullish (rsyncOptions config) "az") ++ String " "
                    ("--delete" ++ String " " ("" ++ String " "
                       ("--exclude-from=" ++ String "034"
                          (tpl (excludeFrom config) ++ String "034"
                             ("" ++ String " " "")))))))
            = 1).
    repeat first [cut_exclude " "%char | cut_exclude "034"%char].
    rewrite Ho, He. reflexivity.
  - change (Str.occ excludeMarker
              ("rsync" ++ String " "
                 (("-" ++ nullish (rsyncOptions config) "az") ++ String " "
                    ("--delete" ++ String " " "")))
            = 0).
    repeat cut_exclude " "%char. rewrite Ho. reflexivity.
Qed.

Lemma exclude_baseline latest :
  exclude_free (path_basename latest) ->
  Str.occ excludeMarker ((" " ++ baselineArg latest) ++ String " " "") = 0.
Proof.
  unfold exclude_free, baselineArg. intros Hl. rewrite !StrFacts.append_assoc.
  change (Str.occ excludeMarker
            ("" ++ String " " ("--link-dest=" ++ String "034"
               (".." ++ String "/" (path_basename latest ++ String "/"
                  ("" ++ String "034" ("" ++ String " " ""))))))
          = 0).
  repeat first [cut_exclude " "%char | cut_exclude "034"%char | cut_exclude "/"%char].
  rewrite Hl. reflexivity.
Qed.

(** X26: the sync command names the exclude file exactly when the
    configuration has one: it then holds [--exclude-from=] followed by the
    quoted path, right after the flags; counted as text, for strings of
    the configuration that do not hold [--exclude-from=] themselves, the
    command holds the argument once with an exclude file and not at all
    without. *)
Theorem rsyncCommand_exclude w (config : ProgramConfig) latest cur :
  exclude_free ("-" ++ nullish (rsyncOptions config) "az") ->
  exclude_free (tpl (excludeFrom config)) ->
  exclude_free (getSrcPath w config) ->
  exclude_free (getDestPath w config) ->
  exclude_free (path_basename cur) ->
  (forall l, found latest = Some l -> exclude_free (path_basename l)) ->
  Str.occ excludeMarker (rsyncCommand w config latest cur)
    = (if given (excludeFrom config) then 1 else 0)
  /\ (given (excludeFrom config) = true ->
      exists before after,
        rsyncCommand w config latest cur
          = before ++ " --exclude-from=" ++ Str.dq ++ tpl (excludeFrom config) ++ Str.dq
            ++ " " ++ after).
Proof.
  intros Ho He Hs Hd Hc Hl. split.
  - rewrite rsyncCommand_parts.
    pose proof (exclude_head config Ho He) as Hhead.
    pose proof (exclude_tail w config cur Hs Hd Hc) as Htail.
    destruct (syncHead_ends config) as [h Hh].
    destruct (found latest) as [l|] eqn:Hf.
    + rewrite Hh, occ_app_end, <- Hh, Hhead by (reflexivity || discriminate).
      change (" " ++ baselineArg l ++ " ")
        with ((" " ++ baselineArg l) ++ String " " "").
      rewrite occ_app_end, (exclude_baseline l (Hl l eq_refl)), Htail
        by (reflexivity || discriminate).
      lia.
    + change ("" ++ syncTail w config cur) with (syncTail w config cur).
      rewrite Hh, occ_app_end, <- Hh, Hhead, Htail by (reflexivity || discriminate).
      lia.
  - intros Hg. rewrite rsyncCommand_parts. unfold syncHead. rewrite Hg.
    exists ("rsync -" ++ nullish (rsyncOptions config) "az" ++ " --delete ").
    eexists. rewrite !StrFacts.append_assoc. reflexivity.
Qed.

End TraceFacts.

(** ** Configurations that load, and a destination that is made *)

Lemma accepted_mandatory obj :
  isProgramOptions (JObj obj) = true ->
  prop obj "src" = JStr (src (asProgramOptions obj))
  /\ prop obj "dest" = JStr (dest (asProgramOptions obj)).
Proof.
  unfold isProgramOptions, asProgramOptions, str_field. cbn [src dest].
  destruct (prop obj "src"); try discriminate;
    destruct (prop obj "dest"); try discriminate. auto.
Qed.

Lemma find_option_In decls flag d : find_option decls flag = Some d -> In d decls.
Proof. unfold find_option. intros H. now apply find_some in H. Qed.

Lemma short_with_value_In decls a d v :
  short_with_value decls a = Some (d, v) -> In d decls.
Proof.
  unfold short_with_value. destruct a as [|c1 [|c2 [|c3 r]]]; try discriminate.
  destruct (_ && _)%bool; [|discriminate].
  destruct (find_option decls _) as [d'|] eqn:E; [|discriminate].
  intros [= <- _]. exact (find_option_In _ _ _ E).
Qed.

Lemma long_with_value_In decls a d v :
  long_with_value decls a = Some (d, v) -> In d decls.
Proof.
  unfold long_with_value. destruct a as [|c1 [|c2 r]]; try discriminate.
  destruct (_ && _)%bool; [|discriminate].
  destruct (find_option decls _) as [d'|] eqn:E; [|discriminate].
  intros [= <- _]. exact (find_option_In _ _ _ E).
Qed.

(** What holds of the options at the start, and is kept when a declared
    option is given a text, holds of the options Commander returns. *)
Lemma parseOptions_inv decls (P : gmap string JsVal -> Prop) :
  (forall d v m, In d decls -> P m -> P (<[key d := JStr v]> m)) ->
  forall n args opts unknown opts',
    (length args <= n)%nat -> P opts ->
    parseOptions decls args opts unknown = inr opts' -> P opts'.
Proof.
  intros Hk. induction n as [|n IH]; intros args opts unknown opts' Hn Ho.
  - destruct args; [|simpl in Hn; lia]. simpl.
    destruct unknown; [discriminate|]. now intros [= <-].
  - destruct args as [|a rest]; simpl.
    { destruct unknown; [discriminate|]. now intros [= <-]. }
    simpl in Hn. destruct (String.eqb a "--").
    { destruct unknown; [destruct (existsb is_help rest); discriminate|].
      now intros [= <-]. }
    destruct (find_option decls a) as [d|] eqn:Ef.
    + destruct rest as [|v rest']; [discriminate|]. simpl in Hn.
      apply IH; [lia|]. apply Hk; [exact (find_option_In _ _ _ Ef) | exact Ho].
    + destruct (short_with_value decls a) as [[d v]|] eqn:Es.
      { apply IH; [lia|]. apply Hk; [exact (short_with_value_In _ _ _ _ Es) | exact Ho]. }
      destruct (long_with_value decls a) as [[d v]|] eqn:El.
      { apply IH; [lia|]. apply Hk; [exact (long_with_value_In _ _ _ _ El) | exact Ho]. }
      destruct (is_help a).
      { destruct (parseOptions decls rest opts (first_unknown unknown a)) as [[]|];
          discriminate. }
      destruct (looks_like_option a); apply IH; (lia || exact Ho).
Qed.

(** Commander sets the declared options only. *)
Lemma parseOptions_keys decls k :
  (forall d, In d decls -> key d <> k) ->
  forall args opts',
    parseOptions decls args ∅ None = inr opts' -> opts' !! k = None.
Proof.
  intros Hk args opts' H.
  refine (parseOptions_inv decls (fun m => m !! k = None) _ (length args) args ∅ None
            opts' (Nat.le_refl _) _ H).
  - intros d v m Hd Hm. rewrite lookup_insert_ne; [exact Hm | exact (Hk d Hd)].
  - apply lookup_empty.
Qed.

(** Commander sets them to texts. *)
Lemma parseOptions_texts decls args opts' k :
  parseOptions decls args ∅ None = inr opts' ->
  prop opts' k = JUndefined \/ exists t, prop opts' k = JStr t.
Proof.
  intros H.
  refine (parseOptions_inv decls
            (fun m => prop m k = JUndefined \/ exists t, prop m k = JStr t)
            _ (length args) args ∅ None opts' (Nat.le_refl _) _ H).
  - intros d v m _ Hm. unfold prop in *.
    destruct (String.eqb_spec (key d) k) as [-> | Hne].
    + rewrite lookup_insert_eq. eauto.
    + rewrite lookup_insert_ne by exact Hne. exact Hm.
  - left. unfold prop. now rewrite lookup_empty.
Qed.

Lemma not_a_path_text (o : gmap string JsVal) k :
  prop o k = JUndefined \/ (exists t, prop o k = JStr t) -> not_a_path o k = None.
Proof. unfold not_a_path. intros [-> | [t ->]]; reflexivity. Qed.

Lemma declared_keys k :
  k = "backupPrefix" \/ k = "rsyncOptions" -> forall d, In d declared -> key d <> k.
Proof.
  intros Hk d Hd. unfold declared in Hd. simpl in Hd.
  decompose [or] Hd; subst; simpl; destruct Hk; subst; try discriminate; contradiction.
Qed.

Section SuccessFacts.

Context {World : Type} `{RT : Runtime World}.
Implicit Types (s : @State World).

Lemma bind_get_state {A} (f : @State World -> @M World A) s :
  bind get_state f s = f s s.
Proof. unfold bind, get_state. now destruct (f s s) as [[r e] s1]. Qed.

(** [optionsToConfigOf] on an object whose [logFile] and [excludeFrom] can
    be paths, and on the others. *)
Lemma optionsToConfigOf_typed o s :
  not_a_path o "logFile" = None -> not_a_path o "excludeFrom" = None ->
  optionsToConfigOf o s = optionsToConfig (asProgramOptions o) s.
Proof.
  intros Hl He. unfold optionsToConfigOf. rewrite bind_get_state, Hl, He.
  now destruct (loggerInstance s).
Qed.



(** What [optionsToConfig] makes of the view of a validated object. *)
Lemma optionsToConfig_accepted obj s :
  isProgramOptions (JObj obj) = true ->
  exists (c : ProgramConfig) e s1,
    optionsToConfig (asProgramOptions obj) s = (Ok c, e, s1)
    /\ prop obj "src" = JStr (src c) /\ prop obj "dest" = JStr (dest c)
    /\ backupPrefix c = Some (nullish (text_field obj "backupPrefix") "BACKUP-")
    /\ rsyncOptions c = text_field obj "rsyncOptions".
Proof.
  intros Hv. destruct (accepted_mandatory obj Hv) as [Hs Hd].
  destruct (getLogger_run (asProgramOptions obj) s) as (l & e0 & s0 & E & _).
  rewrite (optionsToConfig_run _ s l e0 s0 E). cbv zeta.
  do 3 eexists. split; [reflexivity|].
  cbn [options backupPrefix src dest rsyncOptions set_backupPrefix].
  destruct (given (excludeFrom (asProgramOptions obj))); [destruct (fs_existsSync _ _)|];
    cbn; auto.
Qed.


(** X27: options given on the command line that validation accepts
    always give a configuration, which the module then holds: its source
    and destination are the strings given, and, the command line having
    no option for them, its snapshot prefix is [BACKUP-] and it has no
    sync flags of its own. *)
Theorem valid_inline_options_load s opts :
  configCache s = None -> (2 < length (process_argv (world s)))%nat ->
  parseOptions declared (skipn 2 (process_argv (world s))) ∅ None = inr opts ->
  config_flag opts = None ->
  isProgramOptions (JObj opts) = true ->
  exists (c : ProgramConfig) e s1,
    getConfig s = (Ok c, e, s1)
    /\ prop opts "src" = JStr (src c) /\ prop opts "dest" = JStr (dest c)
    /\ backupPrefix c = Some "BACKUP-" /\ rsyncOptions c = None
    /\ configCache s1 = Some c.
Proof.
  intros Hc Ha Hp Hf Hv.
  destruct (optionsToConfig_accepted opts s Hv) as (c & e & s1 & E & Hs & Hd & Hb & Ho).
  assert (forall k, k = "backupPrefix" \/ k = "rsyncOptions" -> text_field opts k = None)
    as Hnone.
  { intros k Hk. unfold text_field, prop.
    rewrite (parseOptions_keys declared k (declared_keys k Hk) _ opts Hp).
    reflexivity. }
  rewrite (Hnone "backupPrefix") in Hb by auto.
  rewrite (Hnone "rsyncOptions") in Ho by auto.
  pose proof (optionsToConfigOf_typed opts s
                (not_a_path_text _ _ (parseOptions_texts _ _ _ "logFile" Hp))
                (not_a_path_text _ _ (parseOptions_texts _ _ _ "excludeFrom" Hp))) as Et.
  exists c, e. eexists. split.
  - unfold getConfig. rewrite Hc.
    unfold try_catch, bind at 1. unfold parseConfigFromArgs, bind at 1, get_state.
    apply Nat.leb_gt in Ha. rewrite Ha. cbv beta iota zeta.
    unfold bind at 1. unfold program_parse. rewrite Hp. unfold ret at 1.
    cbv beta iota zeta. rewrite Hf, Hv. cbn [negb]. unfold bind at 1. rewrite Et, E.
    unfold ret, set_config. cbn. rewrite ?app_nil_r. reflexivity.
  - cbn. auto.
Qed.


(** X29: a local destination that is missing and can be created does not
    stop the run: after the source is found the directory is created,
    then the run goes on to the one invocation of the sync tool, which is
    its last event and decides how it ends. *)
Theorem created_destination_run_continues config s e1 s1 :
  isRemoteDest config = false ->
  existsSrcPath config s = (Ok true, e1, s1) ->
  fs_existsSync (world s1) (dest config) = false ->
  (fs_mkdirSync (world s1) (dest config)).1 = None ->
  exists r pre cmd o s2,
    backup config s = (r, (e1 ++ EvMkdir (dest config) :: pre ++ [EvSpawn cmd o])%list, s2)
    /\ is_sync (EvSpawn cmd o) = true /\ no_sync pre
    /\ (r = Ok tt <-> ~ rejected o).
Proof.
  intros Hl E1 Hx Hm.
  assert (existsDestPath config s1 = (Ok false, [], s1)) as E2.
  { unfold existsDestPath, existsPath. rewrite Hl. unfold existsSync. now rewrite Hx. }
  assert (createDestDir config s1
          = (Ok tt, [EvMkdir (dest config)],
             set_world s1 (fs_mkdirSync (world s1) (dest config)).2)) as E3.
  { unfold createDestDir. rewrite Hl. unfold mkdirSync.
    destruct (fs_mkdirSync (world s1) (dest config)) as [r w]. cbn in Hm. now subst r. }
  destruct (backup_inv config s) as (r & evs & s2 & E & R).
  destruct R as [e1' s' E1' | e1' s' e2 s2' err e3 s3 E1' E2' E3'
                 | e1' s' e2 s2' latest e3 s3 o E1' D E3' cur cmd Ho].
  - rewrite E1 in E1'. discriminate.
  - rewrite E1 in E1'. injection E1' as <- <-. rewrite E2 in E2'.
    injection E2' as <- <-. rewrite E3 in E3'. discriminate.
  - rewrite E1 in E1'. injection E1' as <- <-.
    assert (e2 = [EvMkdir (dest config)]) as ->.
    { destruct D as [ea sa F2 | ea sa eb sb F2 F3].
      - rewrite E2 in F2. discriminate.
      - rewrite E2 in F2. injection F2 as <- <-. rewrite E3 in F3.
        now injection F3 as <- _. }
    exists (match settle cmd o with
            | Ok _ => Ok tt
            | Throw e => Throw e
            | Exit c => Exit c
            end),
      (e3 ++ log_events (logger config) Log (modeMessage (world s3) config latest cur)
               (world s3)
       ++ log_events (logger config) Log ("Executing command:" ++ cmd) (world s3))%list,
      cmd, o. eexists. split.
    + rewrite E. cbn [app]. rewrite <- !app_assoc. reflexivity.
    + split; [apply rsyncCommand_is_sync|]. split.
      * rewrite !no_sync_app.
        split; [exact (getLatestBackupDir_no_sync _ _ _ _ _ E3')|].
        split; apply no_sync_log.
      * destruct (settle_cases cmd o) as [[Hr [err ->]] | (Hc & Hs & ->)].
        -- split; [discriminate | tauto].
        -- pose proof (not_rejected _ Hc Hs). tauto.
Qed.

End SuccessFacts.

(** ** More on snapshot names *)

Module MoreStr.

Lemma mem_remove_char c s : Str.mem c (Str.remove_char c s) = false.
Proof.
  induction s as [|d r IH]; [reflexivity|]. cbn [Str.remove_char].
  destruct (Ascii.eqb c d) eqn:E; [exact IH|]. cbn [Str.mem]. now rewrite E.
Qed.

Lemma mem_remove_char_other c d s :
  Str.mem c s = false -> Str.mem c (Str.remove_char d s) = false.
Proof.
  induction s as [|x r IH]; [reflexivity|]. cbn [Str.mem Str.remove_char].
  rewrite orb_false_iff. intros [Hx Hr].
  destruct (Ascii.eqb d x); [auto|]. cbn [Str.mem]. rewrite Hx. auto.
Qed.

Lemma mem_before_char c s : Str.mem c (Str.before_char c s) = false.
Proof.
  induction s as [|d r IH]; [reflexivity|]. cbn [Str.before_char].
  destruct (Ascii.eqb c d) eqn:E; [reflexivity|]. cbn [Str.mem]. now rewrite E.
Qed.

Lemma mem_before_char_other c d s :
  Str.mem c s = false -> Str.mem c (Str.before_char d s) = false.
Proof.
  induction s as [|x r IH]; [reflexivity|]. cbn [Str.mem Str.before_char].
  rewrite orb_false_iff. intros [Hx Hr].
  destruct (Ascii.eqb d x); [reflexivity|]. cbn [Str.mem]. rewrite Hx. auto.
Qed.

Lemma mem_append c a b : Str.mem c (a ++ b) = (Str.mem c a || Str.mem c b)%bool.
Proof.
  induction a as [|x r IH]; [reflexivity|].
  change (String x r ++ b) with (String x (r ++ b)). cbn [Str.mem].
  now rewrite IH, orb_assoc.
Qed.

Lemma remove_char_append c a b :
  Str.remove_char c (a ++ b) = Str.remove_char c a ++ Str.remove_char c b.
Proof.
  induction a as [|x r IH]; [reflexivity|].
  change (String x r ++ b) with (String x (r ++ b)). cbn [Str.remove_char].
  destruct (Ascii.eqb c x); [exact IH|]. rewrite IH. reflexivity.
Qed.

Lemma before_char_append c a b :
  Str.mem c a = false -> Str.before_char c (a ++ String c b) = a.
Proof.
  induction a as [|x r IH].
  - intros _. change ("" ++ String c b) with (String c b).
    cbn [Str.before_char]. now rewrite Ascii.eqb_refl.
  - cbn [Str.mem]. rewrite orb_false_iff. intros [Hx Hr].
    change (String x r ++ String c b) with (String x (r ++ String c b)).
    cbn [Str.before_char]. rewrite Hx. now rewrite IH.
Qed.

Lemma length_append a b : String.length (a ++ b) = String.length a + String.length b.
Proof.
  induction a as [|x r IH]; [reflexivity|].
  change (String x r ++ b) with (String x (r ++ b)). cbn [String.length]. now rewrite IH.
Qed.

End MoreStr.

Module MoreNames.
Import JsDate DateFacts PadFacts NameFacts MoreStr.

Lemma mem_pad c k n :
  (nat_of_ascii c < 48 \/ 57 < nat_of_ascii c)%nat -> Str.mem c (pad k n) = false.
Proof.
  intros Hc. induction k as [|k IH]; [reflexivity|].
  cbn [pad Str.mem]. now rewrite (digit_not c _ Hc), IH.
Qed.

Lemma length_pad k n : String.length (pad k n) = k.
Proof.
  induction k as [|k IH]; [reflexivity|]. cbn [pad String.length]. now rewrite IH.
Qed.

Lemma mem_yearString y : Str.mem "." (yearString y) = false.
Proof.
  unfold yearString. destruct (_ && _)%bool; [apply mem_pad; vm_compute; lia|].
  rewrite mem_append, mem_pad by (vm_compute; lia). now destruct (y <? 0)%Z.
Qed.

Lemma toISOString_split t :
  toISOString t = seconds_part t ++ String "." (pad 3 (msFromTime t) ++ "Z").
Proof.
  unfold toISOString, seconds_part. rewrite !StrFacts.append_assoc. reflexivity.
Qed.

Lemma mem_seconds_part t : Str.mem "." (seconds_part t) = false.
Proof.
  unfold seconds_part.
  rewrite !mem_append, mem_yearString, !mem_pad by (vm_compute; lia). reflexivity.
Qed.

(** The timestamp of a snapshot is the text of the time up to the
    seconds, without the colons, in every year. *)
Lemma backupSuffix_seconds t :
  backupSuffix t = Str.remove_char ":" (seconds_part t).
Proof.
  unfold backupSuffix. rewrite toISOString_split, remove_char_append.
  change (Str.remove_char ":" (String "." (pad 3 (msFromTime t) ++ "Z")))
    with (String "."%char (Str.remove_char ":" (pad 3 (msFromTime t) ++ "Z"))).
  apply before_char_append, mem_remove_char_other, mem_seconds_part.
Qed.

Lemma same_second_fields t1 t2 :
  (t1 / 1000 = t2 / 1000)%Z -> seconds_part t1 = seconds_part t2.
Proof.
  intros H.
  assert (forall t k, (0 < k)%Z -> (t / (1000 * k) = t / 1000 / k)%Z) as D
    by (intros t k Hk; rewrite Z.div_div by lia; reflexivity).
  assert (Day t1 = Day t2) as Hd
    by (unfold Day, msPerDay; change 86400000%Z with (1000 * 86400)%Z;
        rewrite (D t1 86400%Z), (D t2 86400%Z), H by lia; reflexivity).
  assert (HourFromTime t1 = HourFromTime t2) as Hh
    by (unfold HourFromTime; change 3600000%Z with (1000 * 3600)%Z;
        rewrite (D t1 3600%Z), (D t2 3600%Z), H by lia; reflexivity).
  assert (MinFromTime t1 = MinFromTime t2) as Hm
    by (unfold MinFromTime; change 60000%Z with (1000 * 60)%Z;
        rewrite (D t1 60%Z), (D t2 60%Z), H by lia; reflexivity).
  assert (SecFromTime t1 = SecFromTime t2) as Hs
    by (unfold SecFromTime; now rewrite H).
  unfold seconds_part, MonthFromTime, DateFromTime, DayWithinYear, InLeapYear,
    YearFromTime. now rewrite Hd, Hh, Hm, Hs.
Qed.

(** X21: the timestamp of a snapshot name holds no colon and no dot,
    whenever the snapshot is made. *)
Theorem backupSuffix_no_colon_dot t :
  Str.mem ":" (backupSuffix t) = false /\ Str.mem "." (backupSuffix t) = false.
Proof.
  split.
  - unfold backupSuffix. apply mem_before_char_other, mem_remove_char.
  - unfold backupSuffix. apply mem_before_char.
Qed.

(** X22: snapshot names tell seconds apart and nothing finer: two runs
    with the same prefix in the same second get the same name. *)
Theorem same_second_same_name backupPrefix t1 t2 :
  (t1 / 1000 = t2 / 1000)%Z ->
  backupDirName backupPrefix t1 = backupDirName backupPrefix t2.
Proof.
  intros H. unfold backupDirName.
  now rewrite !backupSuffix_seconds, (same_second_fields t1 t2 H).
Qed.

(** X23: in the years 0 to 9999 the timestamp of a snapshot name has the
    form [YYYY-MM-DDTHHMMSS]: seventeen characters, made of a year, a
    month from 1 to 12, a day from 1 to 31, an hour below 24 and minutes
    and seconds below 60, each written with a fixed number of digits. *)
Theorem backupSuffix_shape t :
  (firstTime <= t <= lastTime)%Z ->
  exists Y M D h m s : Z,
    (0 <= Y <= 9999 /\ 1 <= M <= 12 /\ 1 <= D <= 31
     /\ 0 <= h < 24 /\ 0 <= m < 60 /\ 0 <= s < 60)%Z
    /\ backupSuffix t
       = pad 4 Y ++ "-" ++ pad 2 M ++ "-" ++ pad 2 D ++ "T"
         ++ pad 2 h ++ pad 2 m ++ pad 2 s
    /\ String.length (backupSuffix t) = 17.
Proof.
  intros Ht. pose proof (year_range t Ht) as Hy.
  pose proof (fields_range t) as [Hm Hd]. pose proof (clock_range t) as (Hh & Hi & Hs).
  exists (YearFromTime t), (MonthFromTime t), (DateFromTime t), (HourFromTime t),
    (MinFromTime t), (SecFromTime t).
  split; [tauto|]. rewrite (backupSuffix_fields t Hy). split.
  - rewrite StrFacts.append_empty_r. reflexivity.
  - change (String "-" ?x) with ("-" ++ x).
    rewrite !length_append, !length_pad. reflexivity.
Qed.

End MoreNames.

(** ** The statements at work in the small world *)

Module Examples.

(** C3, the claim as stated fails past the year 9999: the snapshot made
    in the first second of the year 10000 is named with a signed six-digit
    year and sorts before the one made a second earlier. *)
Lemma names_out_of_order_after_9999 :
  backupDirName None 253402300799000 = "BACKUP-9999-12-31T235959"
  /\ backupDirName None 253402300800000 = "BACKUP-+010000-01-01T000000"
  /\ (253402300799000 + 1000 <= 253402300800000)%Z
  /\ String.ltb (backupDirName None 253402300799000)
       (backupDirName None 253402300800000) = false.
Proof.
  split; [|split; [|split]]; [vm_compute; reflexivity | vm_compute; reflexivity | lia
                             | vm_compute; reflexivity].
Qed.

Lemma names_sort_chronologically_witness :
  backupDirName None 1763926245123 = "BACKUP-2025-11-23T193045"
  /\ backupDirName None 1763926246123 = "BACKUP-2025-11-23T193046"
  /\ String.ltb (backupDirName None 1763926245123) (backupDirName None 1763926246123)
     = true.
Proof.
  split; [vm_compute; reflexivity|]. split; [vm_compute; reflexivity|].
  apply NameFacts.names_sort_chronologically; unfold JsDate.firstTime, JsDate.lastTime; lia.
Defined.



(** C5, the claim as stated fails when the existence test prints the
    sentinel and ssh writes a warning: the command ends with status 0 and
    its output is [exists], and the probe answers false. *)
Lemma sentinel_with_warning :
  exit_code (Sim.warned (remoteExistsCommand "backup" "backup.example" "/srv/backups"))
  = Some 0%Z
  /\ Str.trim
       (captured_stdout
          (Sim.warned (remoteExistsCommand "backup" "backup.example" "/srv/backups")))
     = "exists"
  /\ remoteExists "backup" "backup.example" "/srv/backups" (Sim.start Sim.warnedHost)
     = (Ok false,
        [EvSpawn (remoteExistsCommand "backup" "backup.example" "/srv/backups")
           (Sim.warned (remoteExistsCommand "backup" "backup.example" "/srv/backups"))],
        Sim.start Sim.warnedHost).
Proof.
  split; [reflexivity|]. split; vm_compute; reflexivity.
Qed.

Lemma remote_triple_witness :
  isProgramOptions (JObj Sim.remoteObject) = true
  /\ exists config evs s1,
       optionsToConfig (asProgramOptions Sim.remoteObject) (Sim.start Sim.remoteDest)
         = (Ok config, evs, s1)
       /\ isRemoteSrc config = false /\ isRemoteDest config = true.
Proof.
  assert (isProgramOptions (JObj Sim.remoteObject) = true) as H by (vm_compute; reflexivity).
  split; [exact H|].
  destruct (remote_triple Sim.remoteObject (Sim.start Sim.remoteDest) H)
    as (_ & config & evs & s1 & E & _ & Hdest & _).
  exists config, evs, s1. split; [exact E|]. apply Hdest. vm_compute. reflexivity.
Defined.


Lemma missing_source_aborts_witness :
  (main (Sim.start Sim.noSource)).1
  = (Exit 1,
     [EvConsole Error
        ("Backup failed: Source directory " ++ Str.dq ++ "/tmp/zz" ++ Str.dq
         ++ " does not exist.")]).
Proof.
  destruct (missing_source_aborts (Sim.start Sim.noSource) Sim.noSourceConfig []
              (Sim.loaded Sim.noSource Sim.noSourceConfig))
    as (e1 & s1 & Eb & Em & _).
  - vm_compute. reflexivity.
  - vm_compute. reflexivity.
  - rewrite Em. assert (e1 = []) as -> by (vm_compute in Eb; congruence).
    reflexivity.
Defined.

Lemma transport_failure_policy_witness :
  (exists e1 s1,
     getLatestBackupDir Sim.remoteConfig (Sim.start Sim.remoteDest) = (Ok None, e1, s1))
  /\ (exists err e1 s1,
        createDestDir Sim.remoteConfig (Sim.start Sim.remoteDest) = (Throw err, e1, s1)).
Proof.
  destruct (transport_failure_policy Sim.remoteConfig (Sim.start Sim.remoteDest)
              eq_refl eq_refl) as (_ & Hls & Hmk).
  split.
  - apply Hls. right. vm_compute. discriminate.
  - apply Hmk. right. vm_compute. discriminate.
Defined.

Lemma missing_exclude_file_witness :
  exists (result : ProgramConfig) evs s0,
    optionsToConfig
      (asProgramOptions (<["excludeFrom" := JStr "exclude.txt"]> Sim.remoteObject))
      (Sim.start Sim.withExclude) = (Ok result, evs, s0)
    /\ excludeFrom result = None.
Proof.
  destruct (missing_exclude_file
              (asProgramOptions (<["excludeFrom" := JStr "exclude.txt"]> Sim.remoteObject))
              (Sim.start Sim.withExclude) "exclude.txt")
    as (result & evs & E & Hnone & _).
  - vm_compute. reflexivity.
  - discriminate.
  - vm_compute. reflexivity.
  - eauto.
Defined.

Lemma executeCommand_rejects_iff_witness :
  exists e, (executeCommand "ssh backup.example true" (Sim.start Sim.remoteDest)).1.1 = Throw e.
Proof.
  apply (proj1 (executeCommand_rejects_iff "ssh backup.example true"
                  (Sim.start Sim.remoteDest))).
  right. vm_compute. discriminate.
Defined.

Lemma remoteCommand_requires_endpoint_witness :
  remoteCommand "ls" Sim.localOptions false (Sim.start Sim.localRun)
    = (Throw (MkError endpointRequired), [], Sim.start Sim.localRun)
  /\ remoteCommand "ls" Sim.localOptions true (Sim.start Sim.localRun)
    = (Throw (MkError endpointRequired), [], Sim.start Sim.localRun).
Proof.
  pose proof (proj1 (remoteCommand_requires_endpoint "ls" Sim.localOptions
                       (Sim.start Sim.localRun)) (or_introl eq_refl)) as H.
  split; apply H.
Defined.

(** C1, where the code departs from the claim: the options [-p],
    [--backup-prefix], [-o] and [--rsync-options] are not declared, so a
    command line that uses one ends with status 1 before any configuration
    exists; and the [rsyncOptions] of a configuration, which validation does
    not look at, are written into the sync command as they are, whatever
    flags they hold. *)
Theorem undeclared_flags_unfiltered_options :
  (find_option declared "-p" = None /\ find_option declared "--backup-prefix" = None
   /\ find_option declared "-o" = None /\ find_option declared "--rsync-options" = None)
  /\ (main (Sim.start Sim.prefixFlag)).1
     = (Exit 1, [EvConsole Error "error: unknown option '--backup-prefix'"])
  /\ (main (Sim.start Sim.optionsFlag)).1
     = (Exit 1, [EvConsole Error "error: unknown option '-o'"])
  /\ (forall (World : Type) (RT : Runtime World) (w : World) (config : ProgramConfig)
             latest cur flags,
        rsyncOptions config = Some flags ->
        exists rest,
          rsyncCommand w config latest cur = "rsync -" ++ flags ++ " --delete " ++ rest)
  /\ (isProgramOptions (JObj Sim.flagsObject) = true
      /\ In (EvSpawn
               ("rsync -av --rsh=sh --delete  " ++ Str.dq ++ "/tmp/a/" ++ Str.dq ++ " "
                ++ Str.dq ++ "/tmp/b/BACKUP-2025-11-23T193045/" ++ Str.dq)
               (Closed (Some 0%Z) "" ""))
            (@main _ (Sim.runtime [(Sim.flagsText, JObj Sim.flagsObject)])
               (Sim.start Sim.flagsFile)).1.2).
Proof.
  split; [repeat split|]. split; [vm_compute; reflexivity|].
  split; [vm_compute; reflexivity|]. split.
  - intros World RT w config latest cur flags Hf. rewrite rsyncCommand_parts.
    unfold syncHead. rewrite Hf. cbn [nullish]. eexists.
    rewrite !StrFacts.append_assoc. reflexivity.
  - split; [vm_compute; reflexivity|]. vm_compute. auto 10.
Qed.

End Examples.

(** ** The further properties at work in the small world *)

Module Scenarios.

Lemma remoteCommand_resolves_witness :
  exists e s1,
    remoteCommand "ls" Sim.remoteConfig false (Sim.start Sim.localRun) = (Ok "", e, s1).
Proof.
  destruct (remoteCommand_resolves "ls" Sim.remoteConfig (Sim.start Sim.localRun) eq_refl)
    as (v & e & s1 & E & _ & Hv & _).
  exists e, s1. rewrite E. rewrite Hv; [reflexivity|].
  intros [H | H]; vm_compute in H; congruence.
Defined.

Lemma isProgramOptions_other_keys_witness :
  isProgramOptions (JObj (<["rsyncOptions" := JNum 7]> Sim.remoteObject))
  = isProgramOptions (JObj Sim.remoteObject).
Proof.
  apply isProgramOptions_other_keys. unfold checked. simpl.
  intros H. decompose [or] H; try discriminate. assumption.
Defined.

Lemma getLogger_singleton_witness :
  getLogger Sim.fileLogging (Sim.withLogger Sim.localRun)
  = (Ok Sim.console, [], Sim.withLogger Sim.localRun).
Proof.
  apply (getLogger_singleton Sim.localOptions (Sim.start Sim.localRun) Sim.console []).
  vm_compute. reflexivity.
Defined.

Lemma kept_exclude_file_exists_witness :
  fs_existsSync Sim.excludeKept "/home/u/exclude.txt" = true
  /\ "/home/u/exclude.txt" = resolved Sim.excludeKept "exclude.txt".
Proof.
  apply (kept_exclude_file_exists Sim.excludeOptions (Sim.start Sim.excludeKept)
           Sim.excludeConfig [] (Sim.withLogger Sim.excludeKept) "/home/u/exclude.txt").
  - vm_compute. reflexivity.
  - reflexivity.
  - discriminate.
Defined.

Lemma getConfig_cached_witness :
  getConfig (Sim.loaded Sim.localRun Sim.localConfig)
  = (Ok Sim.localConfig, [], Sim.loaded Sim.localRun Sim.localConfig).
Proof.
  apply (getConfig_cached (Sim.start Sim.localRun) Sim.localConfig []).
  vm_compute. reflexivity.
Defined.

Lemma config_sources_witness :
  getConfig (Sim.start Sim.noArguments) = loadFrom "" (Sim.start Sim.noArguments)
  /\ getConfig (Sim.start Sim.missingFile)
     = loadFrom "/etc/none.json" (Sim.start Sim.missingFile).
Proof.
  split.
  - apply (proj1 (config_sources (Sim.start Sim.noArguments) eq_refl)). simpl. lia.
  - apply (proj2 (config_sources (Sim.start Sim.missingFile) eq_refl) Sim.configOnly).
    + simpl. lia.
    + vm_compute. reflexivity.
    + reflexivity.
Defined.

Lemma explicit_config_missing_witness :
  getConfig (Sim.start Sim.missingFile)
  = (Exit 1,
     [EvConsole Error "Startup error: Configuration file .incback not found in /home/u"],
     Sim.start Sim.missingFile).
Proof.
  refine (explicit_config_missing (Sim.start Sim.missingFile) Sim.configOnly "/etc/none.json"
            _ _ _ _ _).
  - reflexivity.
  - simpl. lia.
  - vm_compute. reflexivity.
  - reflexivity.
  - reflexivity.
Defined.

Lemma missing_default_file_witness :
  getConfig (Sim.start Sim.noArguments)
  = (Exit 1,
     [EvConsole Error "Startup error: Configuration file .incback not found in /home/u"],
     Sim.start Sim.noArguments).
Proof.
  refine (missing_default_file (Sim.start Sim.noArguments) _ _ _).
  - reflexivity.
  - simpl. lia.
  - reflexivity.
Defined.

Lemma invalid_file_content_witness :
  getConfig (Sim.start Sim.brokenFile)
  = (Exit 1, [EvConsole Error "Startup error: Invalid .incback configuration file"],
     Sim.start Sim.brokenFile).
Proof.
  refine (invalid_file_content (Sim.start Sim.brokenFile) "{oops" _ _ _ _ _).
  - reflexivity.
  - simpl. lia.
  - reflexivity.
  - reflexivity.
  - exact I.
Defined.

Lemma invalid_inline_options_witness :
  getConfig (Sim.start Sim.sourceOnly)
  = (Exit 1, [EvConsole Error "Error: Missing or invalid parameters."; EvHelp],
     Sim.start Sim.sourceOnly).
Proof.
  refine (invalid_inline_options (Sim.start Sim.sourceOnly) Sim.srcOnly _ _ _ _ _).
  - reflexivity.
  - simpl. lia.
  - vm_compute. reflexivity.
  - reflexivity.
  - reflexivity.
Defined.

Lemma local_destination_uncreatable_witness :
  backup Sim.newDestConfig (Sim.start Sim.readOnly)
  = (Throw (MkError (destUncreatable Sim.newDestConfig)), [EvMkdir "/tmp/new"],
     Sim.start Sim.readOnly).
Proof.
  refine (local_destination_uncreatable Sim.newDestConfig (Sim.start Sim.readOnly) []
            (Sim.start Sim.readOnly) (MkError "EACCES: permission denied, mkdir")
            _ _ _ _).
  - reflexivity.
  - reflexivity.
  - reflexivity.
  - reflexivity.
Defined.

Lemma same_second_same_name_witness :
  backupDirName None 1763926245123 = backupDirName None 1763926245999.
Proof. apply MoreNames.same_second_same_name. reflexivity. Defined.

Lemma backupSuffix_shape_witness :
  String.length (backupSuffix 1763926245123) = 17.
Proof.
  destruct (MoreNames.backupSuffix_shape 1763926245123) as (Y & M & D & h & m & s & _ & _ & H).
  - unfold JsDate.firstTime, JsDate.lastTime. lia.
  - exact H.
Defined.

Lemma rsyncCommand_exclude_witness :
  Str.occ excludeMarker
    (rsyncCommand Sim.excludeKept Sim.excludeConfig None "/tmp/b/BACKUP-2025-11-24T080000")
  = 1.
Proof.
  refine (proj1 (rsyncCommand_exclude Sim.excludeKept Sim.excludeConfig None
                   "/tmp/b/BACKUP-2025-11-24T080000" _ _ _ _ _ _));
    try reflexivity.
  intros l [=].
Defined.

Lemma valid_inline_options_load_witness :
  exists (c : ProgramConfig) e s1,
    getConfig (Sim.start Sim.localRun) = (Ok c, e, s1)
    /\ src c = "/tmp/a" /\ dest c = "/tmp/b" /\ backupPrefix c = Some "BACKUP-".
Proof.
  destruct (valid_inline_options_load (Sim.start Sim.localRun) Sim.inlineOptions)
    as (c & e & s1 & E & Hs & Hd & Hb & _).
  - reflexivity.
  - simpl. lia.
  - vm_compute. reflexivity.
  - reflexivity.
  - reflexivity.
  - exists c, e, s1. split; [exact E|].
    assert (JStr "/tmp/a" = JStr (src c)) as H1 by exact Hs.
    assert (JStr "/tmp/b" = JStr (dest c)) as H2 by exact Hd.
    injection H1 as H1. injection H2 as H2. auto.
Defined.


Lemma logged_command_is_run_witness :
  modeMessage Sim.secondRun Sim.localConfig (Some "/tmp/b/BACKUP-2025-11-22T193045")
    (currentBackupDirname Sim.localConfig Sim.secondRun)
  = "Incremental backup to /tmp/b/BACKUP-2025-11-23T193045 with link-dest to "
    ++ "/tmp/b/BACKUP-2025-11-22T193045".
Proof.
  refine (proj2 (logged_command_is_run Sim.localConfig (Sim.start Sim.secondRun)
                   [] (Sim.start Sim.secondRun) [] (Sim.start Sim.secondRun)
                   (Some "/tmp/b/BACKUP-2025-11-22T193045")
                   (getLatestBackupDir Sim.localConfig (Sim.start Sim.secondRun)).1.2
                   (Sim.start Sim.secondRun) _ _ _)).
  - reflexivity.
  - apply dest_present. reflexivity.
  - vm_compute. reflexivity.
Defined.

Lemma created_destination_run_continues_witness :
  exists r pre cmd o s2,
    backup Sim.newDestConfig (Sim.start Sim.freshDest)
    = (r, (EvMkdir "/tmp/new" :: pre ++ [EvSpawn cmd o])%list, s2).
Proof.
  destruct (created_destination_run_continues Sim.newDestConfig (Sim.start Sim.freshDest)
              [] (Sim.start Sim.freshDest))
    as (r & pre & cmd & o & s2 & E & _).
  - reflexivity.
  - reflexivity.
  - reflexivity.
  - reflexivity.
  - exists r, pre, cmd, o, s2. exact E.
Defined.

End Scenarios.
